(** * Daengs-Club guest book: the submission handler of [main.py]

    A shallow embedding of the dog-grooming guest book ([src/main.py]):
    the path sanitiser, the spreadsheet log, the image copy and the
    [on_run] submission handler of [DogPhotoTool], followed by the
    properties of the specification that concern them.

    Python strings are sequences of Unicode code points, so a [str] is a
    list of code points and [len] is the length of that list.  Literals
    are written as in the source and decoded from UTF-8 by [u]. *)

From Stdlib Require Import ZArith NArith Ascii String.
From stdpp Require Import base numbers list gmap.

(** ** Python strings *)

Module Py.

Abbreviation char := N (only parsing).
Abbreviation str := (list N) (only parsing).

(** UTF-8 decoding of the bytes of a source literal. *)
Fixpoint utf8_decode (bs : list N) : str :=
  match bs with
  | [] => []
  | b0 :: r =>
      if (b0 <? 128)%N then b0 :: utf8_decode r
      else if (b0 <? 224)%N then
        match r with
        | b1 :: r1 => ((b0 - 192) * 64 + (b1 - 128))%N :: utf8_decode r1
        | _ => []
        end
      else if (b0 <? 240)%N then
        match r with
        | b1 :: b2 :: r2 =>
            ((b0 - 224) * 4096 + (b1 - 128) * 64 + (b2 - 128))%N :: utf8_decode r2
        | _ => []
        end
      else
        match r with
        | b1 :: b2 :: b3 :: r3 =>
            ((b0 - 240) * 262144 + (b1 - 128) * 4096 + (b2 - 128) * 64 + (b3 - 128))%N
              :: utf8_decode r3
        | _ => []
        end
  end.

Definition u (s : string) : str :=
  utf8_decode (List.map N_of_ascii (list_ascii_of_string s)).

(** [ch in s] for a one-character [ch]. *)
Definition char_in (ch : N) (s : str) : bool := existsb (N.eqb ch) s.

Fixpoint str_eqb (a b : str) : bool :=
  match a, b with
  | [], [] => true
  | x :: a', y :: b' => N.eqb x y && str_eqb a' b'
  | _, _ => false
  end.

(** The truth value of a string: [not s] holds of the empty string only. *)
Definition truthy (s : str) : bool :=
  match s with [] => false | _ :: _ => true end.

(** *** The Unicode tables behind [isdecimal], [isdigit] and [isspace]

    The tables are those of Unicode 14, which CPython 3.11 carries.
    Every decimal digit of Unicode sits in a run of ten consecutive code
    points that starts at the digit zero of its script; these are the
    zeros. *)
Definition decimal_zeros : list N :=
  [48; 1632; 1776; 1984; 2406; 2534; 2662; 2790; 2918; 3046; 3174; 3302;
   3430; 3558; 3664; 3792; 3872; 4160; 4240; 6112; 6160; 6470; 6608; 6784;
   6800; 6992; 7088; 7232; 7248; 42528; 43216; 43264; 43472; 43504; 43600;
   44016; 65296; 66720; 68912; 69734; 69872; 69942; 70096; 70384; 70736;
   70864; 71248; 71360; 71472; 71904; 72016; 72784; 73040; 73120; 92768;
   92864; 93008; 120782; 120792; 120802; 120812; 120822; 123200; 123632;
   125264; 130032]%N.

(** Code points that are digits without being decimal: superscripts,
    subscripts, circled and parenthesised digits and the like. *)
Definition other_digit_ranges : list (N * N) :=
  [(178, 179); (185, 185); (4969, 4977); (6618, 6618); (8304, 8304);
   (8308, 8313); (8320, 8329); (9312, 9320); (9332, 9340); (9352, 9360);
   (9450, 9450); (9461, 9469); (9471, 9471); (10102, 10110);
   (10112, 10120); (10122, 10130); (68160, 68163); (69216, 69224);
   (69714, 69722); (127232, 127242)]%N.

Definition space_ranges : list (N * N) :=
  [(9, 13); (28, 32); (133, 133); (160, 160); (5760, 5760); (8192, 8202);
   (8232, 8233); (8239, 8239); (8287, 8287); (12288, 12288)]%N.

Definition in_range (c : N) (r : N * N) : bool :=
  ((fst r <=? c) && (c <=? snd r))%N.

Definition in_ranges (c : N) (rs : list (N * N)) : bool :=
  existsb (in_range c) rs.

(** The value of a decimal digit, [None] for any other character. *)
Fixpoint decimal_in (zeros : list N) (c : N) : option N :=
  match zeros with
  | [] => None
  | z :: zs =>
      if ((z <=? c) && (c <? z + 10))%N then Some (c - z)%N
      else decimal_in zs c
  end.

Definition decimal_value (c : N) : option N := decimal_in decimal_zeros c.

Definition isdecimal (c : N) : bool :=
  match decimal_value c with Some _ => true | None => false end.

(** [ch.isdigit()] *)
Definition isdigit (c : N) : bool :=
  isdecimal c || in_ranges c other_digit_ranges.

(** [ch.isspace()] *)
Definition isspace (c : N) : bool := in_ranges c space_ranges.

(** *** [str.strip()] *)
Fixpoint lstrip (s : str) : str :=
  match s with
  | [] => []
  | c :: r => if isspace c then lstrip r else s
  end.

Definition rstrip (s : str) : str := rev (lstrip (rev s)).

Definition strip (s : str) : str := lstrip (rstrip s).

(** *** [int(s)] on a string of digits

    The callers pass a string all of whose characters satisfy [isdigit].
    [int] accepts such a string when it is not empty and each character is
    a decimal digit; it raises [ValueError] otherwise, and also when the
    literal is longer than the interpreter's limit on integer strings
    ([sys.get_int_max_str_digits()], 0 when the interpreter has none),
    which is only looked at above 640 digits. *)
Fixpoint decimal_fold (acc : Z) (s : str) : option Z :=
  match s with
  | [] => Some acc
  | c :: r =>
      match decimal_value c with
      | Some d => decimal_fold (acc * 10 + Z.of_N d) r
      | None => None
      end
  end.

Definition too_many_digits (max_str_digits : N) (s : str) : bool :=
  let n := N.of_nat (length s) in
  ((640 <? n) && (0 <? max_str_digits) && (max_str_digits <? n))%N.

Definition int (max_str_digits : N) (s : str) : option Z :=
  match s with
  | [] => None
  | _ :: _ =>
      if too_many_digits max_str_digits s then None else decimal_fold 0 s
  end.

(** [str.lower()] on ASCII text; used where a concrete lowering function
    is needed for a run on ASCII paths. *)
Definition ascii_lower_char (c : N) : N :=
  if ((65 <=? c) && (c <=? 90))%N then (c + 32)%N else c.

Definition ascii_lower (s : str) : str := List.map ascii_lower_char s.

End Py.

Import Py.

(** ** [os.path], as [posixpath] *)

Module os_path.

Definition sep : N := 47.
Definition extsep : N := 46.

(** [s.rfind(c)]: the last index of [c], or -1. *)
Fixpoint rfind_from (c : N) (s : str) (i last : Z) : Z :=
  match s with
  | [] => last
  | x :: r => rfind_from c r (i + 1) (if N.eqb x c then i else last)
  end.

Definition rfind (c : N) (s : str) : Z := rfind_from c s 0 (-1).

(** [p[i:]] and [p[:i]] for an index [i >= 0]. *)
Definition slice_from (p : str) (i : Z) : str := drop (Z.to_nat i) p.
Definition slice_to (p : str) (i : Z) : str := take (Z.to_nat i) p.

(** [splitext]: the extension starts at the last dot of the last path
    component, unless that component has only dots before it. *)
Definition splitext (p : str) : str * str :=
  let sepIndex := rfind sep p in
  let dotIndex := rfind extsep p in
  if (sepIndex <? dotIndex)%Z
     && existsb (fun c => negb (N.eqb c extsep))
          (slice_to (slice_from p (sepIndex + 1)) (dotIndex - (sepIndex + 1)))
  then (slice_to p dotIndex, slice_from p dotIndex)
  else (p, []).

Definition startswith_sep (p : str) : bool :=
  match p with c :: _ => N.eqb c sep | [] => false end.

Definition endswith_sep (p : str) : bool :=
  match rev p with c :: _ => N.eqb c sep | [] => false end.

(** [join(a, b)] *)
Definition join (a b : str) : str :=
  if startswith_sep b then b
  else if negb (truthy a) || endswith_sep a then a ++ b
  else a ++ sep :: b.

(** [basename(p)] *)
Definition basename (p : str) : str := slice_from p (rfind sep p + 1).

End os_path.

(** ** Module constants and the path sanitiser *)

Definition EXCEL_FILE : str := u "customer_data.xlsx".
Definition OUTPUT_ROOT : str := u "고객사진".

(** The sentinel breed, the customer placeholder and its colour. *)
Definition BREED_OTHER : str := u "기타(직접입력)".
Definition CUSTOMER_PLACEHOLDER : str := u "010-0000-0000".
Definition GRAY : str := u "gray".
Definition BLACK : str := u "black".

(** The characters [sanitize_for_path] looks for: backslash, slash, colon,
    star, question mark, double quote, less-than, greater-than and bar. *)
Definition invalid : str := [92; 47; 58; 42; 63; 34; 60; 62; 124]%N.

Definition underscore : N := 95.

Definition sanitize_char (ch : N) : N :=
  if char_in ch invalid then underscore else ch.

Definition sanitize_for_path (name : str) : str :=
  let result := List.map sanitize_char name in
  strip result.

(** ** The filesystem, the workbook and the images *)

(** The cells of the log: a text, a number, and [CellRendered given],
    which stands for whatever the workbook makes of a value that it may
    not give back as it was given: an empty cell for the empty text, a
    text cut at 32767 characters, a formula for a text that starts with
    an equals sign, a number written with 16 significant digits. *)
Inductive cell :=
| CellStr (s : str)
| CellInt (n : Z)
| CellRendered (given : cell).

(** What [Image.open] yields: a mode and the picture data. *)
Record image := { im_mode : str; im_data : N }.

(** The picture [save_image_copy] writes: the source flattened onto a
    white background, or converted to RGB. *)
Inductive picture :=
| FlattenedOnWhite (im : image)
| ConvertedRGB (im : image).

Inductive image_format :=
| JPEG_quality_95
| PNG.

(** A file: a workbook with the rows of its sheet as loading it gives
    them, a stored picture, or what a save leaves that failed after it
    had opened, and so emptied, the file. *)
Inductive file :=
| Workbook (rows : list (list cell))
| ImageFile (fmt : image_format) (pic : picture)
| Damaged.

Record World := {
  dirs : gset (list N);
  files : gmap (list N) file;
}.

(** What [on_run] uses of [datetime.now()]. *)
Record datetime := {
  year : N; month : N; day : N; hour : N; minute : N;
}.

(** The world outside the program: the clock, where the script lives
    ([os.path.dirname(__file__)] and its [abspath]), the interpreter's
    limit on integer strings, [str.lower], the picture read from the
    path of a source photo ([None] when it cannot be opened or decoded),
    and which writes,
    folder creations and workbook loads succeed.  [makedirs_ok] says for
    each folder whether [os.mkdir] can create it.  A workbook is saved in
    two steps, either of which can fail: the file is opened for writing,
    which empties it ([workbook_create_ok] for a new log,
    [workbook_save_ok] for an existing one), and then the archive is
    written ([workbook_create_write_ok], [workbook_save_write_ok]).  A
    picture is saved in the same two steps ([image_save_ok], then
    [image_write_ok]); when the second fails, a file that the save itself
    created is removed again, unless [image_save_leaves] says that it
    stays, as it does with older versions of the imaging library. *)
Record Env := {
  now : datetime;
  script_dir : str;
  script_abs_dir : str;
  int_max_str_digits : N;
  lower : str -> str;
  image_open : str -> option image;
  image_save_ok : str -> bool;
  image_write_ok : str -> bool;
  image_save_leaves : str -> bool;
  makedirs_ok : str -> bool;
  workbook_create_ok : str -> bool;
  load_workbook_ok : str -> bool;
  workbook_save_ok : str -> bool;
  workbook_create_write_ok : str -> bool;
  workbook_save_write_ok : str -> bool;
}.

Inductive exn :=
| ValueError
| MakedirsError (path : str)
| ImageOpenError (src : str)
| ImageSaveError (dest : str)
| WorkbookSaveError (path : str)
| LoadWorkbookError (path : str)
| IllegalCharacterError
| OverflowError.

(** [os.path.exists] *)
Definition path_exists (w : World) (path : str) : bool :=
  bool_decide (path ∈ dirs w) || bool_decide (is_Some (files w !! path)).

Definition write_file (w : World) (path : str) (f : file) : World :=
  {| dirs := dirs w; files := <[path := f]> (files w) |}.

(** The header row of a new log. *)
Definition HEADER : list cell :=
  [CellStr (u "기록시각"); CellStr (u "고객번호"); CellStr (u "보호자 이름");
   CellStr (u "강아지 이름"); CellStr (u "품종"); CellStr (u "오늘 미용 스타일");
   CellStr (u "고객 요구사항"); CellStr (u "미용 중 특이사항");
   CellStr (u "애프터 케어"); CellStr (u "결제금액"); CellStr (u "결제상태");
   CellStr (u "미용 전 사진파일명"); CellStr (u "미용 후 사진파일명")].

(** The text starts with an equals sign, as a formula does, or with a
    number sign, as an error value does. *)
Definition special_start (s : str) : bool :=
  match s with
  | c :: _ => N.eqb c 61 || N.eqb c 35
  | [] => false
  end.

(** *** What the workbook keeps of a value

    A number is written with 16 significant digits after conversion to a
    float: it comes back as given up to 2^53, and the conversion raises
    [OverflowError] from 2^1024 - 2^970 on.  A text is cut at 32767
    characters when it is put into a cell, and the cell refuses it with
    [IllegalCharacterError] if what is left holds one of the control
    characters 0-8, 11, 12 and 14-31.  A text that is stored comes back
    as it was given when it is an ordinary one: [plain_text] leaves out
    the texts that the workbook or the file format may treat in a way of
    their own, which are the empty text (an empty cell), a text of more
    than 32767 characters (cut), a text that starts like a formula or an
    error value, and a text with a carriage return, a surrogate, a
    non-character or an underscore (with which the escape sequences of
    the file format start). *)
Definition plain_char (c : N) : bool :=
  (negb (N.eqb c 95)
   && (N.eqb c 9 || N.eqb c 10
       || ((32 <=? c) && (c <? 55296))
       || ((57344 <=? c) && (c <=? 65533))
       || ((65536 <=? c) && (c <=? 1114111))))%N.

Definition plain_text (s : str) : bool :=
  truthy s && (N.of_nat (length s) <=? 32767)%N && forallb plain_char s
  && negb (special_start s).

(** What the sheet keeps of a value that is appended to it. *)
Definition stored_cell (c : cell) : cell :=
  match c with
  | CellStr s => if plain_text s then c else CellRendered c
  | CellInt n => if (Z.abs n <=? 2 ^ 53)%Z then c else CellRendered c
  | CellRendered _ => c
  end.

(** The values that come back from the workbook as they were given. *)
Definition cell_kept (c : cell) : bool :=
  match c with
  | CellStr s => plain_text s
  | CellInt n => (Z.abs n <=? 2 ^ 53)%Z
  | CellRendered _ => true
  end.

Definition illegal_char (c : N) : bool :=
  ((c <=? 8) || N.eqb c 11 || N.eqb c 12 || ((14 <=? c) && (c <=? 31)))%N.

(** The cell would raise [IllegalCharacterError]. *)
Definition cell_illegal (c : cell) : bool :=
  match c with
  | CellStr s => existsb illegal_char (take (N.to_nat 32767) s)
  | _ => false
  end.

(** Writing the cell would raise [OverflowError]. *)
Definition cell_overflows (c : cell) : bool :=
  match c with
  | CellInt n => (2 ^ 1024 - 2 ^ 970 <=? Z.abs n)%Z
  | _ => false
  end.

(** What a save makes of a cell that was loaded from the file: a text
    stays as it is, a number is written with 16 significant digits like
    any other. *)
Definition resaved (c : cell) : cell :=
  match c with
  | CellInt n => if (Z.abs n <=? 2 ^ 53)%Z then c else CellRendered c
  | _ => c
  end.

Definition resave_rows (rows : list (list cell)) : list (list cell) :=
  List.map (List.map resaved) rows.

(** [ws.append(row)] on a sheet with the given rows, for a row that no
    cell refuses: an empty row adds nothing that a save would keep. *)
Definition sheet_append (rows : list (list cell)) (r : list cell)
    : list (list cell) :=
  match r with
  | [] => rows
  | _ :: _ => rows ++ [List.map stored_cell r]
  end.

(** [wb.save(path)].  It fails, leaving the world as it is, when the file
    cannot be opened for writing; once the file is open it is empty, and
    an exception while the archive is written ([failure]) leaves it
    damaged. *)
Definition workbook_save (open_ok : bool) (failure : option exn)
    (path : str) (rows : list (list cell)) (w : World) : exn * World + World :=
  if open_ok && negb (bool_decide (path ∈ dirs w))
  then
    match failure with
    | None => inr (write_file w path (Workbook rows))
    | Some e => inl (e, write_file w path Damaged)
    end
  else inl (WorkbookSaveError path, w).

(** What, if anything, stops the archive from being written, for the
    cells that go into it. *)
Definition write_failure (write_ok : bool) (path : str) (cells : list cell)
    : option exn :=
  if existsb cell_overflows cells then Some OverflowError
  else if write_ok then None
  else Some (WorkbookSaveError path).

(** [ensure_excel_file]: the header holds texts that the workbook keeps
    as they are and that no cell refuses. *)
Definition ensure_excel_file (env : Env) (path : str) (w : World)
    : exn * World + World :=
  if negb (path_exists w path)
  then workbook_save (workbook_create_ok env path)
         (write_failure (workbook_create_write_ok env path) path HEADER)
         path (sheet_append [] HEADER) w
  else inr w.

(** [load_workbook(path)] and the rows of its active sheet. *)
Definition load_workbook (env : Env) (path : str) (w : World)
    : exn + list (list cell) :=
  match files w !! path with
  | Some (Workbook rows) =>
      if load_workbook_ok env path then inr rows else inl (LoadWorkbookError path)
  | _ => inl (LoadWorkbookError path)
  end.

(** [append_excel_row]: the log is created if need be, loaded, given
    the row and saved over the file; the save writes every cell of the
    sheet, the rows that were loaded and the new one. *)
Definition append_excel_row (env : Env) (path : str) (r : list cell) (w : World)
    : exn * World + World :=
  match ensure_excel_file env path w with
  | inl (e, w0) => inl (e, w0)
  | inr w1 =>
      match load_workbook env path w1 with
      | inl e => inl (e, w1)
      | inr rows =>
          if existsb cell_illegal r then inl (IllegalCharacterError, w1)
          else
            workbook_save (workbook_save_ok env path)
              (write_failure (workbook_save_write_ok env path) path
                 (concat rows ++ r))
              path (sheet_append (resave_rows rows) r) w1
      end
  end.

Definition add_dir (w : World) (path : str) : World :=
  {| dirs := {[ path ]} ∪ dirs w; files := files w |}.

(** [os.makedirs(path, exist_ok=True)] for a folder directly under the
    output root [base_dir], whose own parent is the directory of the
    script.  The root is made first if nothing is at its path, and stays
    when the folder itself cannot be made; that the folder is already
    there is no error. *)
Definition makedirs (env : Env) (base_dir path : str) (w : World)
    : exn * World + World :=
  if negb (path_exists w base_dir) && negb (makedirs_ok env base_dir)
  then inl (MakedirsError base_dir, w)
  else
    let w1 := if path_exists w base_dir then w else add_dir w base_dir in
    if bool_decide (base_dir ∈ dirs w1)
       && (bool_decide (path ∈ dirs w1)
           || (makedirs_ok env path && negb (path_exists w1 path)))
    then inr {| dirs := {[ base_dir ]} ∪ ({[ path ]} ∪ dirs w); files := files w |}
    else inl (MakedirsError path, w1).

Definition str_in (s : str) (l : list str) : bool := existsb (str_eqb s) l.

(** [save_image_copy].  [im.save] fails, leaving the world as it is,
    when the file cannot be opened for writing; once it is open the file
    is empty, and when the picture cannot be written a file that was
    there before is left damaged. *)
Definition save_image_copy (env : Env) (src dest : str) (w : World)
    : exn * World + World :=
  match image_open env src with
  | None => inl (ImageOpenError src, w)
  | Some im =>
      let ext := lower env (snd (os_path.splitext dest)) in
      let pic :=
        if str_in (im_mode im) [u "RGBA"; u "LA"]
        then FlattenedOnWhite im else ConvertedRGB im in
      let fmt :=
        if str_in ext [u ".jpg"; u ".jpeg"] then JPEG_quality_95 else PNG in
      if image_save_ok env dest && negb (bool_decide (dest ∈ dirs w))
      then
        if image_write_ok env dest
        then inr (write_file w dest (ImageFile fmt pic))
        else inl (ImageSaveError dest,
                  if path_exists w dest || image_save_leaves env dest
                  then write_file w dest Damaged else w)
      else inl (ImageSaveError dest, w)
  end.

(** ** The form *)

(** The variables and widget options of [DogPhotoTool] that the handlers
    read and write.  The three text fields hold what
    [get(1.0, end)] returns. *)
Record Form := {
  before_path : str;
  after_path : str;
  dog_name : str;
  owner_name : str;
  customer_raw : str;
  customer_foreground : str;
  style_today : str;
  breed_var : str;
  breed_other_var : str;
  payment_display : str;
  payment_state : str;
  requirements_text : str;
  notes_text : str;
  aftercare_text : str;
  breeds : list (list N);
}.

Definition set_customer (f : Form) (text colour : str) : Form :=
  {| before_path := before_path f; after_path := after_path f;
     dog_name := dog_name f; owner_name := owner_name f;
     customer_raw := text; customer_foreground := colour;
     style_today := style_today f; breed_var := breed_var f;
     breed_other_var := breed_other_var f;
     payment_display := payment_display f; payment_state := payment_state f;
     requirements_text := requirements_text f; notes_text := notes_text f;
     aftercare_text := aftercare_text f; breeds := breeds f |}.

Definition set_payment_display (f : Form) (text : str) : Form :=
  {| before_path := before_path f; after_path := after_path f;
     dog_name := dog_name f; owner_name := owner_name f;
     customer_raw := customer_raw f;
     customer_foreground := customer_foreground f;
     style_today := style_today f; breed_var := breed_var f;
     breed_other_var := breed_other_var f;
     payment_display := text; payment_state := payment_state f;
     requirements_text := requirements_text f; notes_text := notes_text f;
     aftercare_text := aftercare_text f; breeds := breeds f |}.

(** The dialogs of [messagebox.showerror], by what they report. *)
Inductive message :=
| MissingPhotos
| MissingIdentity
| CustomerNeedsDigit
| CustomerBadCharacter
| MissingOtherBreed
| PaymentDigitsOnly
| PaymentUnreadable
| FilenameTooLong.

(** *** Placeholder handling of the customer entry *)

Definition _on_customer_focus_in (f : Form) : Form :=
  if str_eqb (customer_raw f) CUSTOMER_PLACEHOLDER
     && str_eqb (customer_foreground f) GRAY
  then set_customer f [] BLACK
  else f.

Definition _on_customer_focus_out (f : Form) : Form :=
  if negb (truthy (strip (customer_raw f)))
  then set_customer f (CUSTOMER_PLACEHOLDER ++ customer_raw f) GRAY
  else f.

(** The operator replaces the text of the customer entry. *)
Definition type_customer (text : str) (f : Form) : Form :=
  set_customer f text (customer_foreground f).

(** *** The payment display *)

(** Decimal digits of a number, least significant first. *)
Fixpoint digits_rev (fuel : nat) (n : N) : str :=
  match fuel with
  | O => []
  | S k =>
      if (n <? 10)%N then [48 + n]%N
      else (48 + n mod 10)%N :: digits_rev k (n / 10)%N
  end.

(** A comma after every third digit that has a digit after it. *)
Fixpoint commas_rev (ds : str) : str :=
  match ds with
  | a :: b :: c :: ((_ :: _) as r) => a :: b :: c :: 44%N :: commas_rev r
  | _ => ds
  end.

(** [f"{value:,}"] for [value >= 0]. *)
Definition format_commas (value : Z) : str :=
  let n := Z.to_N value in
  rev (commas_rev (digits_rev (S (N.to_nat (N.size n))) n)).

Definition on_payment_focus_out (env : Env) (f : Form) : option message * Form :=
  let raw := strip (payment_display f) in
  if negb (truthy raw) then (None, f)
  else
    let digits := List.filter isdigit raw in
    if negb (truthy digits)
    then (Some PaymentDigitsOnly, set_payment_display f [])
    else
      match int (int_max_str_digits env) digits with
      | Some value => (None, set_payment_display f (format_commas value))
      | None => (Some PaymentUnreadable, set_payment_display f [])
      end.

(** ** The submission handler *)

(** How a block of [on_run] ends: it goes on with a value, it shows an
    error dialog and returns, or it raises. *)
Inductive result (A : Type) :=
| Ok (a : A)
| Return (m : message)
| Raise (e : exn).

Arguments Ok {A} a.
Arguments Return {A} m.
Arguments Raise {A} e.

#[global] Instance result_bind : MBind result := fun A B k r =>
  match r with
  | Ok a => k a
  | Return m => Return m
  | Raise e => Raise e
  end.

(** Lines 469-477: the customer number. *)
Definition customer_number (raw_customer : str) : result str :=
  let digits_only := List.filter isdigit raw_customer in
  if negb (truthy digits_only) then Return CustomerNeedsDigit
  else if existsb (fun ch => negb (isdigit ch || char_in ch (u "- "))) raw_customer
  then Return CustomerBadCharacter
  else Ok digits_only.

(** Lines 479-487: the breed. *)
Definition breed_of (f : Form) : result str :=
  let selected_breed := strip (breed_var f) in
  if str_eqb selected_breed BREED_OTHER then
    let breed := strip (breed_other_var f) in
    if negb (truthy breed) then Return MissingOtherBreed else Ok breed
  else Ok selected_breed.

(** Lines 489-498: the payment amount. *)
Definition payment_of (env : Env) (f : Form) : result Z :=
  let raw_pay := strip (payment_display f) in
  if truthy raw_pay then
    let digits := List.filter isdigit raw_pay in
    if negb (truthy digits) then Return PaymentDigitsOnly
    else
      match int (int_max_str_digits env) digits with
      | Some payment_amount => Ok payment_amount
      | None => Raise ValueError
      end
  else Ok 0%Z.

(** The values step 1 of [on_run] leaves for the later steps. *)
Record Validated := {
  v_before : str;
  v_after : str;
  v_dog_name : str;
  v_owner_name : str;
  v_customer_no : str;
  v_breed : str;
  v_payment_amount : Z;
  v_payment_state : str;
  v_style_today : str;
  v_requirements : str;
  v_notes : str;
  v_aftercare : str;
}.

(** The customer identifier [on_run] looks at: the placeholder in gray
    counts as no input. *)
Definition raw_customer_of (f : Form) : str :=
  let raw_customer := strip (customer_raw f) in
  if str_eqb raw_customer CUSTOMER_PLACEHOLDER
     && str_eqb (customer_foreground f) GRAY
  then [] else raw_customer.

(** Lines 451-505: step 1, the checks on the input. *)
Definition validate (env : Env) (f : Form) : result Validated :=
  let before := before_path f in
  let after := after_path f in
  if negb (truthy before) || negb (truthy after) then Return MissingPhotos
  else
    let dog_name := strip (dog_name f) in
    let owner_name := strip (owner_name f) in
    let raw_customer := raw_customer_of f in
    if negb (truthy dog_name) || negb (truthy owner_name)
       || negb (truthy raw_customer)
    then Return MissingIdentity
    else
      customer_no ← customer_number raw_customer;
      breed ← breed_of f;
      payment_amount ← payment_of env f;
      Ok {| v_before := before; v_after := after;
            v_dog_name := dog_name; v_owner_name := owner_name;
            v_customer_no := customer_no; v_breed := breed;
            v_payment_amount := payment_amount;
            v_payment_state :=
              if str_eqb (payment_state f) (u "paid")
              then u "결제완료" else u "입금 전";
            v_style_today := strip (style_today f);
            v_requirements := strip (requirements_text f);
            v_notes := strip (notes_text f);
            v_aftercare := strip (aftercare_text f) |}.

(** [strftime]: zero-padded decimal fields. *)
Definition pad2 (n : N) : str := [48 + n / 10 mod 10; 48 + n mod 10]%N.

Definition pad4 (n : N) : str :=
  [48 + n / 1000 mod 10; 48 + n / 100 mod 10; 48 + n / 10 mod 10; 48 + n mod 10]%N.

(** [now.strftime] with year, month, day, hour and minute run together. *)
Definition dt_str (d : datetime) : str :=
  pad4 (year d) ++ pad2 (month d) ++ pad2 (day d) ++ pad2 (hour d) ++ pad2 (minute d).

(** [now.strftime] with dashes, a space and a colon. *)
Definition record_time (d : datetime) : str :=
  pad4 (year d) ++ u "-" ++ pad2 (month d) ++ u "-" ++ pad2 (day d)
    ++ u " " ++ pad2 (hour d) ++ u ":" ++ pad2 (minute d).

(** Lines 507-539: the folder and the file names. *)
Definition folder_name (v : Validated) : str :=
  sanitize_for_path
    (v_customer_no v ++ u " - " ++ v_owner_name v ++ u " - " ++ v_dog_name v).

Definition base_dir (env : Env) : str :=
  os_path.join (script_abs_dir env) OUTPUT_ROOT.

Definition dest_folder (env : Env) (v : Validated) : str :=
  os_path.join (base_dir env) (folder_name v).

Definition prefix (env : Env) (v : Validated) : str :=
  sanitize_for_path
    (v_customer_no v ++ u " - " ++ v_owner_name v ++ u " - " ++ v_dog_name v
       ++ u " - " ++ dt_str (now env)).

Definition ext_of (env : Env) (path : str) : str :=
  lower env (snd (os_path.splitext path)).

Definition name_before (env : Env) (v : Validated) : str :=
  prefix env v ++ u " - 미용전" ++ ext_of env (v_before v).

Definition name_after (env : Env) (v : Validated) : str :=
  prefix env v ++ u " - 미용후" ++ ext_of env (v_after v).

Definition dest_before (env : Env) (v : Validated) : str :=
  os_path.join (dest_folder env v) (name_before env v).

Definition dest_after (env : Env) (v : Validated) : str :=
  os_path.join (dest_folder env v) (name_after env v).

(** Lines 545-563: the row of the log and where the log lives. *)
Definition log_row (env : Env) (v : Validated) : list cell :=
  [CellStr (record_time (now env));
   CellStr (v_customer_no v);
   CellStr (v_owner_name v);
   CellStr (v_dog_name v);
   CellStr (v_breed v);
   CellStr (v_style_today v);
   CellStr (v_requirements v);
   CellStr (v_notes v);
   CellStr (v_aftercare v);
   CellInt (v_payment_amount v);
   CellStr (v_payment_state v);
   CellStr (os_path.basename (dest_before env v));
   CellStr (os_path.basename (dest_after env v))].

Definition log_path (env : Env) : str :=
  os_path.join (script_dir env) EXCEL_FILE.

(** [reset_inputs]: the form after a successful submission. *)
Definition reset_inputs (f : Form) : Form :=
  {| before_path := []; after_path := [];
     dog_name := []; owner_name := [];
     customer_raw := CUSTOMER_PLACEHOLDER; customer_foreground := GRAY;
     style_today := [];
     breed_var := match breeds f with b :: _ => b | [] => [] end;
     breed_other_var := [];
     payment_display := []; payment_state := u "paid";
     requirements_text := [10%N]; notes_text := [10%N];
     aftercare_text := [10%N]; breeds := breeds f |}.

(** What the operator sees when the handler is over. *)
Inductive outcome :=
| ShowError (m : message)
| UnexpectedError (e : exn)
| Saved (folder : str).

(** Lines 507-572: steps 2 to 5, on the values of step 1. *)
Definition store (env : Env) (f : Form) (v : Validated) (w : World)
    : outcome * Form * World :=
  match makedirs env (base_dir env) (dest_folder env v) w with
  | inl (e, w0) => (UnexpectedError e, f, w0)
  | inr w1 =>
      if (100 <? length (name_before env v))%nat
         || (100 <? length (name_after env v))%nat
      then (ShowError FilenameTooLong, f, w1)
      else
        match save_image_copy env (v_before v) (dest_before env v) w1 with
        | inl (e, w0) => (UnexpectedError e, f, w0)
        | inr w2 =>
            match save_image_copy env (v_after v) (dest_after env v) w2 with
            | inl (e, w0) => (UnexpectedError e, f, w0)
            | inr w3 =>
                match append_excel_row env (log_path env) (log_row env v) w3 with
                | inl (e, w4) => (UnexpectedError e, f, w4)
                | inr w4 => (Saved (dest_folder env v), reset_inputs f, w4)
                end
            end
        end
  end.

Definition on_run (env : Env) (f : Form) (w : World) : outcome * Form * World :=
  match validate env f with
  | Return m => (ShowError m, f, w)
  | Raise e => (UnexpectedError e, f, w)
  | Ok v => store env f v w
  end.

(** [load_breeds_or_die], when the breed file can be read: the stripped
    non-empty lines, with the sentinel added at the end when it is not
    among them. *)
Definition load_breeds_or_die (lines : list (list N)) : list (list N) :=
  let breeds := List.filter truthy (List.map strip lines) in
  if str_in BREED_OTHER breeds then breeds else breeds ++ [BREED_OTHER].

(** The check of [set_photo] on the extension of a photo, lines 427-430:
    only such paths are ever stored in [before_path] and [after_path]. *)
Definition photo_ext_accepted (env : Env) (path : str) : bool :=
  str_in (ext_of env path) [u ".jpg"; u ".jpeg"; u ".png"].

(** ** The sanitiser in the words of the specification

    The specification says that sanitisation removes the forbidden
    characters; [remove_invalid] deletes them and trims, to be compared
    with [sanitize_for_path]. *)
Definition remove_invalid (name : str) : str :=
  strip (List.filter (fun ch => negb (char_in ch invalid)) name).

(** ** Inputs for the examples *)

Definition rgb_photo : image := {| im_mode := u "RGB"; im_data := 0 |}.

(** A world where every operation succeeds, on 7 December 2025, 14:34. *)
Definition env_ok : Env :=
  {| now := {| year := 2025; month := 12; day := 7; hour := 14; minute := 34 |};
     script_dir := u "/app";
     script_abs_dir := u "/app";
     int_max_str_digits := 4300;
     lower := ascii_lower;
     image_open := fun _ => Some rgb_photo;
     image_save_ok := fun _ => true;
     image_write_ok := fun _ => true;
     image_save_leaves := fun _ => false;
     makedirs_ok := fun _ => true;
     workbook_create_ok := fun _ => true;
     load_workbook_ok := fun _ => true;
     workbook_save_ok := fun _ => true;
     workbook_create_write_ok := fun _ => true;
     workbook_save_write_ok := fun _ => true |}.

(** The same, except that the second photo can no longer be opened. *)
Definition env_after_unreadable : Env :=
  {| now := now env_ok;
     script_dir := script_dir env_ok;
     script_abs_dir := script_abs_dir env_ok;
     int_max_str_digits := int_max_str_digits env_ok;
     lower := lower env_ok;
     image_open := fun src =>
       if str_eqb src (u "/photos/b.png") then None else Some rgb_photo;
     image_save_ok := image_save_ok env_ok;
     image_write_ok := image_write_ok env_ok;
     image_save_leaves := image_save_leaves env_ok;
     makedirs_ok := makedirs_ok env_ok;
     workbook_create_ok := workbook_create_ok env_ok;
     load_workbook_ok := load_workbook_ok env_ok;
     workbook_save_ok := workbook_save_ok env_ok;
     workbook_create_write_ok := workbook_create_write_ok env_ok;
     workbook_save_write_ok := workbook_save_write_ok env_ok |}.

Definition example_form (owner customer colour breed other pay : str) : Form :=
  {| before_path := u "/photos/a.JPG";
     after_path := u "/photos/b.png";
     dog_name := u "Mango";
     owner_name := owner;
     customer_raw := customer;
     customer_foreground := colour;
     style_today := [];
     breed_var := breed;
     breed_other_var := other;
     payment_display := pay;
     payment_state := u "paid";
     requirements_text := [10%N];
     notes_text := [10%N];
     aftercare_text := [10%N];
     breeds := [u "Poodle"; BREED_OTHER] |}.

(** The end-to-end example of the specification. *)
Definition form_kim : Form :=
  example_form (u "Kim") (u "010-1234-5678") BLACK (u "Poodle") [] (u "15000").

(** An owner name of a hundred characters. *)
Definition form_long_owner : Form :=
  example_form (repeat 75%N 100) (u "010-1234-5678") BLACK (u "Poodle") []
    (u "15000").

Definition world_empty : World := {| dirs := ∅; files := ∅ |}.

(** What step 1 computes from the example forms, up to the owner, the
    customer number, the breed and the payment amount. *)
Definition example_validated (owner customer_no breed : str) (amount : Z)
    : Validated :=
  {| v_before := u "/photos/a.JPG";
     v_after := u "/photos/b.png";
     v_dog_name := u "Mango";
     v_owner_name := owner;
     v_customer_no := customer_no;
     v_breed := breed;
     v_payment_amount := amount;
     v_payment_state := u "결제완료";
     v_style_today := [];
     v_requirements := [];
     v_notes := [];
     v_aftercare := [] |}.

Definition validated_kim : Validated :=
  example_validated (u "Kim") (u "01012345678") (u "Poodle") 15000.

(** A customer identifier with letters among the digits. *)
Definition form_letters : Form :=
  example_form (u "Kim") (u "ab-12") BLACK (u "Poodle") [] (u "15000").

(** The sentinel breed with a breed typed by hand, and without one. *)
Definition form_other_breed : Form :=
  example_form (u "Kim") (u "010-1234-5678") BLACK BREED_OTHER (u " Maltipoo ")
    (u "15000").

Definition form_other_breed_blank : Form :=
  example_form (u "Kim") (u "010-1234-5678") BLACK BREED_OTHER (u "  ")
    (u "15000").

(** A payment of superscript two, a digit that is not decimal. *)
Definition form_superscript_payment : Form :=
  example_form (u "Kim") (u "010-1234-5678") BLACK (u "Poodle") [] (u "²").

(** A payment with a minus sign. *)
Definition form_minus_payment : Form :=
  example_form (u "Kim") (u "010-1234-5678") BLACK (u "Poodle") [] (u "-500").

(** The placeholder text typed by the operator, in black. *)
Definition form_typed_placeholder : Form :=
  example_form (u "Kim") CUSTOMER_PLACEHOLDER BLACK (u "Poodle") [] (u "15000").

(** The placeholder as the program shows it, in gray. *)
Definition form_gray_placeholder : Form :=
  example_form (u "Kim") CUSTOMER_PLACEHOLDER GRAY (u "Poodle") [] (u "15000").

Definition validated_long_owner : Validated :=
  example_validated (repeat 75%N 100) (u "01012345678") (u "Poodle") 15000.

(** The world after the folders of a submission have been made. *)
Definition world_with_folder (env : Env) (v : Validated) (w : World) : World :=
  {| dirs := {[ base_dir env ]} ∪ ({[ dest_folder env v ]} ∪ dirs w);
     files := files w |}.

(** The world after [form_kim] has been saved from the empty world. *)
Definition world_kim_saved : World :=
  write_file
    (write_file
       (write_file (world_with_folder env_ok validated_kim world_empty)
          (dest_before env_ok validated_kim)
          (ImageFile JPEG_quality_95 (ConvertedRGB rgb_photo)))
       (dest_after env_ok validated_kim)
       (ImageFile PNG (ConvertedRGB rgb_photo)))
    (log_path env_ok)
    (Workbook [HEADER; List.map stored_cell (log_row env_ok validated_kim)]).

(** The world after [form_kim] has failed on its second photo. *)
Definition world_kim_half_saved : World :=
  write_file (world_with_folder env_after_unreadable validated_kim world_empty)
    (dest_before env_after_unreadable validated_kim)
    (ImageFile JPEG_quality_95 (ConvertedRGB rgb_photo)).

(** ** Photos: drag and drop and [set_photo] *)

Definition lbrace : N := 123.
Definition rbrace : N := 125.
Definition space : N := 32.

(** The loop of [split_dnd_files], lines 401-417, on the characters still
    to be read. *)
Fixpoint split_dnd_loop (data : str) (result : list str) (current : str)
    (in_brace : bool) : list str * str :=
  match data with
  | [] => (result, current)
  | ch :: rest =>
      if N.eqb ch lbrace then split_dnd_loop rest result [] true
      else if N.eqb ch rbrace then split_dnd_loop rest (result ++ [current]) [] false
      else if N.eqb ch space && negb in_brace then
        if truthy current
        then split_dnd_loop rest (result ++ [current]) [] in_brace
        else split_dnd_loop rest result current in_brace
      else split_dnd_loop rest result (current ++ [ch]) in_brace
  end.

(** Lines 418-420: what is left in [current] is the last part. *)
Definition split_dnd_finish (state : list str * str) : list str :=
  let '(result, current) := state in
  if truthy current then result ++ [current] else result.

Definition split_dnd_files (data : str) : list str :=
  split_dnd_finish (split_dnd_loop data [] [] false).

(** [s.strip(chars)] *)
Fixpoint lstrip_chars (chars s : str) : str :=
  match s with
  | [] => []
  | c :: r => if char_in c chars then lstrip_chars chars r else s
  end.

Definition rstrip_chars (chars s : str) : str := rev (lstrip_chars chars (rev s)).

Definition strip_chars (chars s : str) : str :=
  lstrip_chars chars (rstrip_chars chars s).

Definition startswith_char (c : N) (s : str) : bool :=
  match s with x :: _ => N.eqb x c | [] => false end.

Definition endswith_char (c : N) (s : str) : bool :=
  match rev s with x :: _ => N.eqb x c | [] => false end.

(** Lines 386-391 of [on_photo_drop]: the parts of the dropped data. *)
Definition drop_parts (data : str) : list str :=
  if char_in space data
     && negb (startswith_char lbrace data && endswith_char rbrace data)
  then split_dnd_files data
  else [strip_chars (u "{}") data].

Definition set_before_path (f : Form) (path : str) : Form :=
  {| before_path := path; after_path := after_path f;
     dog_name := dog_name f; owner_name := owner_name f;
     customer_raw := customer_raw f;
     customer_foreground := customer_foreground f;
     style_today := style_today f; breed_var := breed_var f;
     breed_other_var := breed_other_var f;
     payment_display := payment_display f; payment_state := payment_state f;
     requirements_text := requirements_text f; notes_text := notes_text f;
     aftercare_text := aftercare_text f; breeds := breeds f |}.

Definition set_after_path (f : Form) (path : str) : Form :=
  {| before_path := before_path f; after_path := path;
     dog_name := dog_name f; owner_name := owner_name f;
     customer_raw := customer_raw f;
     customer_foreground := customer_foreground f;
     style_today := style_today f; breed_var := breed_var f;
     breed_other_var := breed_other_var f;
     payment_display := payment_display f; payment_state := payment_state f;
     requirements_text := requirements_text f; notes_text := notes_text f;
     aftercare_text := aftercare_text f; breeds := breeds f |}.

(** The dialogs of [set_photo]. *)
Inductive photo_error :=
| FileNotFound
| UnsupportedFormat
| ImageUnreadable.

(** [set_photo], lines 422-445.  [isfile] is [os.path.isfile] on the
    disk the photos come from.  The thumbnail is display state and is
    left out; loading it fails when the image cannot be opened. *)
Definition set_photo (env : Env) (isfile : str -> bool) (which path : str)
    (f : Form) : option photo_error * Form :=
  if negb (isfile path) then (Some FileNotFound, f)
  else if negb (photo_ext_accepted env path) then (Some UnsupportedFormat, f)
  else
    match image_open env path with
    | None => (Some ImageUnreadable, f)
    | Some _ =>
        if str_eqb which (u "before")
        then (None, set_before_path f path)
        else (None, set_after_path f path)
    end.

Definition on_photo_drop (env : Env) (isfile : str -> bool) (data which : str)
    (f : Form) : option photo_error * Form :=
  match drop_parts data with
  | [] => (None, f)
  | path :: _ => set_photo env isfile which path f
  end.

(** [on_photo_click], with the path the file dialog gave back. *)
Definition on_photo_click (env : Env) (isfile : str -> bool) (chosen which : str)
    (f : Form) : option photo_error * Form :=
  if truthy chosen then set_photo env isfile which chosen f else (None, f).

(** The form when the window opens, lines 150-167 and 247-248, 270. *)
Definition initial_form (breed_list : list (list N)) : Form :=
  {| before_path := []; after_path := [];
     dog_name := []; owner_name := [];
     customer_raw := CUSTOMER_PLACEHOLDER; customer_foreground := GRAY;
     style_today := [];
     breed_var := match breed_list with b :: _ => b | [] => [] end;
     breed_other_var := [];
     payment_display := []; payment_state := u "paid";
     requirements_text := [10%N]; notes_text := [10%N];
     aftercare_text := [10%N]; breeds := breed_list |}.

(** Every photo path of the form is empty or has passed the check of
    [set_photo] on its extension. *)
Definition photos_accepted (env : Env) (f : Form) : Prop :=
  (before_path f = [] \/ photo_ext_accepted env (before_path f) = true)
  /\ (after_path f = [] \/ photo_ext_accepted env (after_path f) = true).

(** What [save_image_copy] writes for an opened image, lines 581-593. *)
Definition stored_image (env : Env) (dest : str) (im : image) : file :=
  ImageFile
    (if str_in (lower env (snd (os_path.splitext dest))) [u ".jpg"; u ".jpeg"]
     then JPEG_quality_95 else PNG)
    (if str_in (im_mode im) [u "RGBA"; u "LA"]
     then FlattenedOnWhite im else ConvertedRGB im).

(** How dropped files arrive, after the comment in [split_dnd_files]:
    the paths one after the other with a space between them, a path in
    braces or bare. *)
Definition dnd_item (item : list N * bool) : str :=
  if snd item then lbrace :: fst item ++ [rbrace] else fst item.

Fixpoint dnd_format (items : list (list N * bool)) : str :=
  match items with
  | [] => []
  | item :: rest =>
      match rest with
      | [] => dnd_item item
      | _ :: _ => dnd_item item ++ space :: dnd_format rest
      end
  end.

(** A path that can be dropped: it holds no brace, and it is in braces
    when it is empty or holds a space. *)
Definition dnd_item_ok (item : list N * bool) : Prop :=
  ~ In lbrace (fst item) /\ ~ In rbrace (fst item)
  /\ (snd item = true \/ (fst item <> [] /\ ~ In space (fst item))).


(** The example in the comment of [split_dnd_files]: a path with spaces
    in braces, then a bare path. *)
Definition dnd_example : list (list N * bool) :=
  [(u "C:\path with space\file.jpg", true); (u "C:\path2\file2.jpg", false)].


(** [dnd_item_ok], decided. *)
Definition dnd_item_okb (item : list N * bool) : bool :=
  negb (char_in lbrace (fst item)) && negb (char_in rbrace (fst item))
  && (snd item || (truthy (fst item) && negb (char_in space (fst item)))).


(** ** What the steps of a submission leave

    The world after the folder and the first photo, and after both
    photos, for the pictures opened from the two source paths. *)
Definition world_with_before (env : Env) (v : Validated) (w : World)
    (im1 : image) : World :=
  write_file (world_with_folder env v w) (dest_before env v)
    (stored_image env (dest_before env v) im1).

Definition world_with_photos (env : Env) (v : Validated) (w : World)
    (im1 im2 : image) : World :=
  write_file (world_with_before env v w im1) (dest_after env v)
    (stored_image env (dest_after env v) im2).

(** A customer identifier that starts with superscript two. *)
Definition form_superscript_customer : Form :=
  example_form (u "Kim") (u "²-1") BLACK (u "Poodle") [] (u "15000").

Definition validated_superscript_customer : Validated :=
  example_validated (u "Kim") (u "²1") (u "Poodle") 15000.

(** A payment amount of 309 nines. *)
Definition form_huge_payment : Form :=
  example_form (u "Kim") (u "010-1234-5678") BLACK (u "Poodle") []
    (repeat 57%N 309).

Definition validated_huge_payment : Validated :=
  example_validated (u "Kim") (u "01012345678") (u "Poodle") (10 ^ 309 - 1).

(** The same as [env_ok], except that the customer folder cannot be
    made, as when its name is too long for the file system. *)
Definition env_no_folder : Env :=
  {| now := now env_ok;
     script_dir := script_dir env_ok;
     script_abs_dir := script_abs_dir env_ok;
     int_max_str_digits := int_max_str_digits env_ok;
     lower := lower env_ok;
     image_open := image_open env_ok;
     image_save_ok := image_save_ok env_ok;
     image_write_ok := image_write_ok env_ok;
     image_save_leaves := image_save_leaves env_ok;
     makedirs_ok := fun path => str_eqb path (base_dir env_ok);
     workbook_create_ok := workbook_create_ok env_ok;
     load_workbook_ok := load_workbook_ok env_ok;
     workbook_save_ok := workbook_save_ok env_ok;
     workbook_create_write_ok := workbook_create_write_ok env_ok;
     workbook_save_write_ok := workbook_save_write_ok env_ok |}.


(** * Properties *)

(** ** Strings *)

Example u_ascii :
  u "010-0000-0000" = [48; 49; 48; 45; 48; 48; 48; 48; 45; 48; 48; 48; 48]%N.
Proof. reflexivity. Qed.

Example u_hangul : u "고객사진" = [44256; 44061; 49324; 51652]%N.
Proof. reflexivity. Qed.

Example isdigit_superscript_two : isdigit 178 = true /\ decimal_value 178 = None.
Proof. split; reflexivity. Qed.

Example int_arabic_indic : int 4300 [1633; 1634; 51]%N = Some 123%Z.
Proof. reflexivity. Qed.

Example format_commas_examples :
  format_commas 1234567 = u "1,234,567" /\ format_commas 0 = u "0"
  /\ format_commas 999 = u "999" /\ format_commas 1000 = u "1,000".
Proof. repeat split; reflexivity. Qed.

Example splitext_examples :
  os_path.splitext (u "/a/b/.x.JPG") = (u "/a/b/.x", u ".JPG")
  /\ os_path.splitext (u "/a.b/c") = (u "/a.b/c", [])
  /\ os_path.splitext (u "..jpg") = (u "..jpg", [])
  /\ os_path.splitext (u "a..jpg") = (u "a.", u ".jpg").
Proof. repeat split; reflexivity. Qed.

Lemma truthy_false (s : list N) : truthy s = false <-> s = [].
Proof. destruct s; split; intros H; try reflexivity; discriminate. Qed.

Lemma truthy_true (s : list N) : truthy s = true <-> s <> [].
Proof. destruct s; split; intros H; try reflexivity; try discriminate; congruence. Qed.

Lemma str_eqb_eq (a b : list N) : str_eqb a b = true <-> a = b.
Proof.
  revert b; induction a as [|x a IH]; intros [|y b]; simpl;
    try (split; [discriminate | discriminate]); try tauto.
  rewrite andb_true_iff, N.eqb_eq, IH. split.
  - intros [-> ->]; reflexivity.
  - intros [= -> ->]; split; reflexivity.
Qed.

Lemma str_eqb_refl (a : list N) : str_eqb a a = true.
Proof. apply str_eqb_eq; reflexivity. Qed.

Lemma str_eqb_neq (a b : list N) : str_eqb a b = false <-> a <> b.
Proof.
  rewrite <- str_eqb_eq. destruct (str_eqb a b); split; intros H;
    try reflexivity; try discriminate; congruence.
Qed.

Lemma char_in_spec (ch : N) (s : list N) : char_in ch s = true <-> In ch s.
Proof.
  unfold char_in. rewrite existsb_exists. split.
  - intros (x & Hx & He). apply N.eqb_eq in He. subst; assumption.
  - intros H. exists ch. split; [assumption | apply N.eqb_refl].
Qed.

(** ** [strip] *)

Lemma lstrip_split (s : list N) :
  exists l, s = l ++ lstrip s /\ forallb isspace l = true.
Proof.
  induction s as [|c s (l & Hs & Hl)]; simpl.
  - exists []. split; reflexivity.
  - destruct (isspace c) eqn:Hc.
    + exists (c :: l). simpl. rewrite Hc, Hl. split; [f_equal; exact Hs | reflexivity].
    + exists []. split; reflexivity.
Qed.

Lemma lstrip_head (s : list N) (c : N) (t : list N) :
  lstrip s = c :: t -> isspace c = false.
Proof.
  induction s as [|x s IH]; simpl; [discriminate|].
  destruct (isspace x) eqn:Hx; [exact IH|].
  intros [= -> _]. exact Hx.
Qed.

Lemma lstrip_nonspace (c : N) (t : list N) :
  isspace c = false -> lstrip (c :: t) = c :: t.
Proof. intros H. simpl. rewrite H. reflexivity. Qed.

Lemma lstrip_app_nonspace (l : list N) (c : N) (r : list N) :
  isspace c = false -> lstrip (l ++ c :: r) = lstrip l ++ c :: r.
Proof.
  intros Hc. induction l as [|x l IH]; simpl.
  - rewrite Hc. reflexivity.
  - destruct (isspace x); [exact IH | reflexivity].
Qed.

Lemma rstrip_split (s : list N) :
  exists r, s = rstrip s ++ r /\ forallb isspace r = true.
Proof.
  unfold rstrip. destruct (lstrip_split (rev s)) as (l & Hs & Hl).
  exists (rev l). split.
  - rewrite <- rev_app_distr, <- Hs, rev_involutive. reflexivity.
  - rewrite forallb_forall in *. intros x Hx. apply Hl. apply in_rev. exact Hx.
Qed.

Lemma rstrip_cases (s : list N) :
  rstrip s = [] \/ exists y c, rstrip s = y ++ [c] /\ isspace c = false.
Proof.
  unfold rstrip. destruct (lstrip (rev s)) as [|c t] eqn:E.
  - left. reflexivity.
  - right. exists (rev t), c. split; [reflexivity | exact (lstrip_head _ _ _ E)].
Qed.

Lemma rstrip_snoc_nonspace (y : list N) (c : N) :
  isspace c = false -> rstrip (y ++ [c]) = y ++ [c].
Proof.
  intros Hc. unfold rstrip. rewrite rev_app_distr. simpl. rewrite Hc.
  simpl. rewrite rev_involutive. reflexivity.
Qed.

(** A stripped string is empty, or it starts and ends with characters that
    are not white space. *)
Lemma strip_cases (s : list N) :
  strip s = []
  \/ exists z c, strip s = z ++ [c] /\ isspace c = false /\ lstrip (z ++ [c]) = z ++ [c].
Proof.
  unfold strip. destruct (rstrip_cases s) as [-> | (y & c & -> & Hc)].
  - left. reflexivity.
  - right. rewrite (lstrip_app_nonspace y c [] Hc).
    exists (lstrip y), c. split; [reflexivity | split; [exact Hc |]].
    destruct (lstrip y) as [|d t] eqn:E; simpl.
    + rewrite Hc. reflexivity.
    + rewrite (lstrip_head _ _ _ E). reflexivity.
Qed.

Lemma lstrip_strip (s : list N) : lstrip (strip s) = strip s.
Proof.
  destruct (strip_cases s) as [-> | (z & c & -> & _ & H)]; [reflexivity | exact H].
Qed.

Lemma rstrip_strip (s : list N) : rstrip (strip s) = strip s.
Proof.
  destruct (strip_cases s) as [-> | (z & c & -> & Hc & _)]; [reflexivity|].
  apply rstrip_snoc_nonspace. exact Hc.
Qed.

Lemma strip_idempotent (s : list N) : strip (strip s) = strip s.
Proof.
  unfold strip at 1. rewrite rstrip_strip. apply lstrip_strip.
Qed.

Lemma strip_split (s : list N) :
  exists l r, s = l ++ strip s ++ r
              /\ forallb isspace l = true /\ forallb isspace r = true.
Proof.
  destruct (rstrip_split s) as (r & Hs & Hr).
  destruct (lstrip_split (rstrip s)) as (l & Hl & Hl').
  exists l, r. unfold strip. split; [|split; assumption].
  rewrite app_assoc, <- Hl. exact Hs.
Qed.

Lemma In_strip (c : N) (s : list N) : In c (strip s) -> In c s.
Proof.
  intros H. destruct (strip_split s) as (l & r & Hs & _).
  rewrite Hs. apply in_or_app. right. apply in_or_app. left. exact H.
Qed.

(** ** The sanitiser *)

Lemma sanitize_char_valid (ch : N) : char_in (sanitize_char ch) invalid = false.
Proof.
  unfold sanitize_char. destruct (char_in ch invalid) eqn:E; [reflexivity | exact E].
Qed.

Lemma sanitize_for_path_valid (name : list N) (ch : N) :
  In ch invalid -> ~ In ch (sanitize_for_path name).
Proof.
  intros Hinv Hin. unfold sanitize_for_path in Hin. apply In_strip in Hin.
  apply in_map_iff in Hin. destruct Hin as (x & <- & _).
  apply char_in_spec in Hinv. rewrite sanitize_char_valid in Hinv. discriminate.
Qed.

(** C2, as the claim states it, fails.  On the name a/b the sanitiser
    answers a_b: the slash is replaced by an underscore, not removed, so
    the result differs from the name with the forbidden characters
    deleted. *)
Lemma sanitize_for_path_does_not_remove :
  sanitize_for_path (u "a/b") = u "a_b"
  /\ remove_invalid (u "a/b") = u "ab"
  /\ sanitize_for_path (u "a/b") <> remove_invalid (u "a/b").
Proof. split; [reflexivity | split; [reflexivity | discriminate]]. Qed.

(** C2, amended.  For every input string, [sanitize_for_path] replaces
    every occurrence of the nine forbidden characters by an underscore,
    keeping all other characters in place, and trims surrounding white
    space; consequently its result contains none of those characters and
    neither starts nor ends with white space, and so do the folder name
    and the file-name prefix of a submission. *)
Theorem sanitize_for_path_replaces (name : list N) :
  (exists l r,
      List.map sanitize_char name = l ++ sanitize_for_path name ++ r
      /\ forallb isspace l = true /\ forallb isspace r = true)
  /\ (forall ch, sanitize_char ch = if char_in ch invalid then underscore else ch)
  /\ (forall ch, In ch invalid -> ~ In ch (sanitize_for_path name))
  /\ lstrip (sanitize_for_path name) = sanitize_for_path name
  /\ rstrip (sanitize_for_path name) = sanitize_for_path name
  /\ (forall env v ch, In ch invalid ->
        ~ In ch (folder_name v) /\ ~ In ch (prefix env v)).
Proof.
  split; [apply strip_split|].
  split; [reflexivity|].
  split; [intros ch; apply sanitize_for_path_valid|].
  split; [apply lstrip_strip|].
  split; [apply rstrip_strip|].
  intros env v ch Hch. split; apply sanitize_for_path_valid; exact Hch.
Qed.

Lemma sanitize_for_path_replaces_witness :
  In 47%N invalid
  /\ ~ In 47%N (sanitize_for_path (u " a/b: "))
  /\ ~ In 47%N (folder_name validated_kim).
Proof.
  assert (In 47%N invalid) as H by (vm_compute; tauto).
  split; [exact H | split].
  - exact (proj1 (proj2 (proj2 (sanitize_for_path_replaces (u " a/b: ")))) 47%N H).
  - exact (proj1 (proj2 (proj2 (proj2 (proj2 (proj2
             (sanitize_for_path_replaces [])))))
             env_ok validated_kim 47%N H)).
Defined.

(** ** Step 1 of [on_run] *)

(** The characters a customer identifier may hold. *)
Lemma allowed_customer_char (ch : N) :
  isdigit ch || char_in ch (u "- ") = true
  <-> isdigit ch = true \/ ch = 45%N \/ ch = 32%N.
Proof.
  rewrite orb_true_iff, char_in_spec. change (u "- ") with [45%N; 32%N].
  simpl. intuition.
Qed.

Lemma customer_number_Ok (raw no : list N) :
  customer_number raw = Ok no
  <-> no = List.filter isdigit raw /\ no <> []
      /\ forallb (fun ch => isdigit ch || char_in ch (u "- ")) raw = true.
Proof.
  unfold customer_number.
  destruct (List.filter isdigit raw) as [|d ds] eqn:Ed; cbn [truthy negb].
  - split; [discriminate | intros (-> & H & _); congruence].
  - destruct (existsb _ raw) eqn:Ex.
    + split; [discriminate|]. intros (_ & _ & Hall). exfalso.
      apply existsb_exists in Ex. destruct Ex as (x & Hx & Hn).
      rewrite forallb_forall in Hall. rewrite (Hall x Hx) in Hn. discriminate.
    + split.
      * intros [= <-]. split; [reflexivity | split; [discriminate|]].
        apply forallb_forall. intros x Hx.
        destruct (isdigit x || char_in x (u "- ")) eqn:E; [reflexivity|].
        assert (existsb (fun ch => negb (isdigit ch || char_in ch (u "- "))) raw = true)
          as Hc by (apply existsb_exists; exists x; rewrite E; auto).
        congruence.
      * intros (-> & _ & _). reflexivity.
Qed.

Lemma customer_number_not_Raise (raw : list N) (e : exn) :
  customer_number raw <> Raise e.
Proof.
  unfold customer_number. destruct (truthy _); cbn [negb]; [|discriminate].
  destruct (existsb _ raw); discriminate.
Qed.

Lemma breed_of_not_Raise (f : Form) (e : exn) : breed_of f <> Raise e.
Proof.
  unfold breed_of. destruct (str_eqb _ _); [|discriminate].
  destruct (truthy _); discriminate.
Qed.

(** What a successful step 1 has checked and computed. *)
Lemma validate_Ok (env : Env) (f : Form) (v : Validated) :
  validate env f = Ok v ->
  before_path f <> [] /\ after_path f <> []
  /\ strip (dog_name f) <> [] /\ strip (owner_name f) <> []
  /\ raw_customer_of f <> []
  /\ customer_number (raw_customer_of f) = Ok (v_customer_no v)
  /\ breed_of f = Ok (v_breed v)
  /\ payment_of env f = Ok (v_payment_amount v)
  /\ v_before v = before_path f /\ v_after v = after_path f
  /\ v_dog_name v = strip (dog_name f) /\ v_owner_name v = strip (owner_name f).
Proof.
  unfold validate.
  destruct (truthy (before_path f)) eqn:Hb; [|discriminate].
  destruct (truthy (after_path f)) eqn:Ha; [|discriminate].
  destruct (truthy (strip (dog_name f))) eqn:Hd; [|discriminate].
  destruct (truthy (strip (owner_name f))) eqn:Ho; [|discriminate].
  destruct (truthy (raw_customer_of f)) eqn:Hr; [|discriminate].
  simpl. unfold mbind, result_bind.
  destruct (customer_number (raw_customer_of f)) as [no| |]; try discriminate.
  destruct (breed_of f) as [br| |]; try discriminate.
  destruct (payment_of env f) as [pay| |]; try discriminate.
  intros [= <-]. simpl.
  apply truthy_true in Hb, Ha, Hd, Ho, Hr. repeat split; assumption.
Qed.

(** Step 1 never touches the world: whatever it answers short of success,
    [on_run] leaves the form and the world as they were. *)
Lemma on_run_invalid (env : Env) (f : Form) (w : World) :
  (forall v, validate env f <> Ok v) ->
  exists o, on_run env f w = (o, f, w) /\ forall d, o <> Saved d.
Proof.
  intros H. unfold on_run. destruct (validate env f) as [v|m|e].
  - destruct (H v). reflexivity.
  - exists (ShowError m). split; [reflexivity | discriminate].
  - exists (UnexpectedError e). split; [reflexivity | discriminate].
Qed.

(** ** The customer number *)

(** An identifier with letters among its digits is never turned into a
    customer number: ab-12 is rejected for its characters, with form and
    world untouched. *)
Example letters_in_customer_identifier_rejected :
  customer_number (u "ab-12") = Return CustomerBadCharacter
  /\ customer_number (u "ab-12") <> Ok (List.filter isdigit (u "ab-12"))
  /\ on_run env_ok form_letters world_empty
     = (ShowError CustomerBadCharacter, form_letters, world_empty).
Proof.
  split; [reflexivity | split; [discriminate|]].
  vm_compute. reflexivity.
Qed.

Lemma validate_customer_number (env : Env) (f : Form) (v : Validated) :
  validate env f = Ok v ->
  v_customer_no v = List.filter isdigit (raw_customer_of f)
  /\ (forall ch, In ch (raw_customer_of f) ->
        isdigit ch = true \/ ch = 45%N \/ ch = 32%N).
Proof.
  intros H. apply validate_Ok in H.
  destruct H as (_ & _ & _ & _ & _ & Hc & _).
  apply customer_number_Ok in Hc. destruct Hc as (Hno & _ & Hall).
  split; [exact Hno|].
  intros ch Hch. rewrite forallb_forall in Hall.
  apply allowed_customer_char, Hall, Hch.
Qed.

(** C1.  For every customer identifier that passes validation, whatever
    it is made of, the customer number the submission derives is the
    subsequence of the identifier's digit characters, in order.  An
    identifier that passes holds digits, hyphens and spaces only, so the
    case of letters mixed with the digits never arises: such an
    identifier does not pass. *)
Theorem validated_customer_number (env : Env) (f : Form) (v : Validated) :
  validate env f = Ok v ->
  v_customer_no v = List.filter isdigit (raw_customer_of f)
  /\ (forall ch, In ch (raw_customer_of f) ->
        isdigit ch = true \/ ch = 45%N \/ ch = 32%N).
Proof. apply validate_customer_number. Qed.

Lemma validated_customer_number_witness :
  validate env_ok form_kim = Ok validated_kim
  /\ v_customer_no validated_kim = List.filter isdigit (raw_customer_of form_kim).
Proof.
  assert (validate env_ok form_kim = Ok validated_kim) as H
    by (vm_compute; reflexivity).
  split; [exact H|].
  exact (proj1 (validated_customer_number env_ok form_kim validated_kim H)).
Defined.

(** C5, as the claim states it, fails when a digit is taken to be a
    decimal digit.  Superscript two has no decimal value, and is neither a
    hyphen nor a space, yet [str.isdigit] holds of it: the identifier
    made of superscript two, a hyphen and the digit 1 passes validation,
    superscript two is kept in the customer number, and the submission is
    saved under that number. *)
Lemma superscript_customer_identifier_accepted :
  decimal_value 178 = None /\ 178%N <> 45%N /\ 178%N <> 32%N
  /\ In 178%N (u "²-1")
  /\ customer_number (u "²-1") = Ok [178; 49]%N
  /\ validate env_ok form_superscript_customer = Ok validated_superscript_customer
  /\ v_customer_no validated_superscript_customer = [178; 49]%N
  /\ fst (fst (on_run env_ok form_superscript_customer world_empty))
     = Saved (dest_folder env_ok validated_superscript_customer).
Proof.
  split; [reflexivity|].
  split; [discriminate|].
  split; [discriminate|].
  split; [apply char_in_spec; reflexivity|].
  split; [reflexivity|].
  split; [vm_compute; reflexivity|].
  split; reflexivity.
Qed.

(** C5, amended.  The customer identifier [on_run] checks is the trimmed
    text of the field, and a digit is any character of which
    [str.isdigit] holds: the decimal digits of every script, and also
    superscripts, circled digits and the like.  If the identifier has no
    such digit, or has a character other than such a digit, a hyphen or a
    space, the submission ends with an error dialog raised at or before
    the check of the customer number, hence before any write: form and
    world are as they were.  A submission that is saved has an identifier
    of digits, hyphens and spaces with a digit among them, and its
    customer number is the identifier without its non-digit
    characters. *)
Theorem customer_identifier_validation
    (env : Env) (f : Form) (w : World) (o : outcome) (f' : Form) (w' : World) :
  on_run env f w = (o, f', w') ->
  ((List.filter isdigit (raw_customer_of f) = []
    \/ exists ch, In ch (raw_customer_of f)
                  /\ isdigit ch = false /\ ch <> 45%N /\ ch <> 32%N) ->
   (exists m, o = ShowError m /\ validate env f = Return m
              /\ (m = MissingPhotos \/ m = MissingIdentity
                  \/ m = CustomerNeedsDigit \/ m = CustomerBadCharacter))
   /\ f' = f /\ w' = w)
  /\ (forall d, o = Saved d ->
      exists v, validate env f = Ok v
        /\ v_customer_no v = List.filter isdigit (raw_customer_of f)
        /\ v_customer_no v <> []
        /\ forall ch, In ch (raw_customer_of f) ->
             isdigit ch = true \/ ch = 45%N \/ ch = 32%N).
Proof.
  intros Hrun. split.
  - intros Hbad.
    assert (exists m, validate env f = Return m
              /\ (m = MissingPhotos \/ m = MissingIdentity
                  \/ m = CustomerNeedsDigit \/ m = CustomerBadCharacter)) as (m & Hv & Hm).
    { unfold validate.
      destruct (negb (truthy (before_path f)) || negb (truthy (after_path f)));
        [exists MissingPhotos; auto|].
      destruct (_ || negb (truthy (raw_customer_of f)));
        [exists MissingIdentity; auto|].
      unfold mbind, result_bind, customer_number.
      destruct (truthy (List.filter isdigit (raw_customer_of f))) eqn:Hd; cbn [negb];
        [|exists CustomerNeedsDigit; auto].
      destruct (existsb _ (raw_customer_of f)) eqn:Hx;
        [exists CustomerBadCharacter; auto|].
      exfalso. destruct Hbad as [He | (ch & Hin & Hnd & H45 & H32)].
      - rewrite He in Hd. discriminate.
      - assert (existsb (fun ch => negb (isdigit ch || char_in ch (u "- ")))
                  (raw_customer_of f) = true) as Hc; [|congruence].
        apply existsb_exists. exists ch. split; [exact Hin|].
        destruct (isdigit ch || char_in ch (u "- ")) eqn:E; [|reflexivity].
        apply allowed_customer_char in E. destruct E as [E | [E | E]]; congruence. }
    unfold on_run in Hrun. rewrite Hv in Hrun. injection Hrun as <- <- <-.
    split; [exists m; auto | split; reflexivity].
  - intros d ->. unfold on_run in Hrun.
    destruct (validate env f) as [v|m|e] eqn:Hv; try discriminate.
    exists v. split; [reflexivity|].
    destruct (validate_customer_number env f v Hv) as (Hno & Hall).
    apply validate_Ok in Hv. destruct Hv as (_ & _ & _ & _ & _ & Hc & _).
    apply customer_number_Ok in Hc. destruct Hc as (_ & Hne & _).
    split; [exact Hno | split; [exact Hne | exact Hall]].
Qed.

Lemma customer_identifier_validation_witness :
  (exists m, ShowError CustomerBadCharacter = ShowError m
             /\ validate env_ok form_letters = Return m
             /\ (m = MissingPhotos \/ m = MissingIdentity
                 \/ m = CustomerNeedsDigit \/ m = CustomerBadCharacter))
  /\ form_letters = form_letters /\ world_empty = world_empty.
Proof.
  assert (on_run env_ok form_letters world_empty
          = (ShowError CustomerBadCharacter, form_letters, world_empty)) as H
    by (vm_compute; reflexivity).
  apply (proj1 (customer_identifier_validation _ _ _ _ _ _ H)).
  right. exists 97%N. repeat split; [vm_compute; tauto | discriminate | discriminate].
Defined.

(** ** The breed *)

Lemma load_breeds_stripped (lines : list (list N)) (b : list N) :
  In b (load_breeds_or_die lines) -> strip b = b.
Proof.
  unfold load_breeds_or_die. intros H.
  assert (In b (List.filter truthy (List.map strip lines)) \/ b = BREED_OTHER)
    as [Hb | ->].
  { destruct (str_in BREED_OTHER _); [left; exact H|].
    apply in_app_or in H. destruct H as [H | [<- | []]]; [left; exact H | right; reflexivity]. }
  - apply filter_In in Hb. destruct Hb as (Hb & _).
    apply in_map_iff in Hb. destruct Hb as (l & <- & _). apply strip_idempotent.
  - vm_compute. reflexivity.
Qed.

Lemma validate_breed_rejected (env : Env) (f : Form) :
  breed_of f = Return MissingOtherBreed ->
  exists m, validate env f = Return m.
Proof.
  intros Hb. unfold validate.
  destruct (_ || negb (truthy (after_path f))); [eexists; reflexivity|].
  destruct (_ || negb (truthy (raw_customer_of f))); [eexists; reflexivity|].
  unfold mbind, result_bind.
  destruct (customer_number (raw_customer_of f)) as [no|m|e] eqn:Hc.
  - rewrite Hb. eexists; reflexivity.
  - eexists; reflexivity.
  - destruct (customer_number_not_Raise _ _ Hc).
Qed.

(** C6.  With the sentinel breed selected, a free-text breed that is empty
    once trimmed makes the breed check fail and the submission end with an
    error dialog, form and world untouched; a free-text breed that is not
    empty passes the check and is the breed, trimmed.  With any other
    selection the breed is the selected value: trimmed, which for a value
    of the breed list is the value itself.  A valid submission records
    that breed. *)
Theorem breed_selection (env : Env) (f : Form) :
  (strip (breed_var f) = BREED_OTHER -> strip (breed_other_var f) = [] ->
     breed_of f = Return MissingOtherBreed
     /\ forall w, exists m, on_run env f w = (ShowError m, f, w))
  /\ (strip (breed_var f) = BREED_OTHER -> strip (breed_other_var f) <> [] ->
        breed_of f = Ok (strip (breed_other_var f)))
  /\ (strip (breed_var f) <> BREED_OTHER ->
        breed_of f = Ok (strip (breed_var f)))
  /\ (forall lines, In (breed_var f) (load_breeds_or_die lines) ->
        breed_var f <> BREED_OTHER -> breed_of f = Ok (breed_var f))
  /\ (forall v, validate env f = Ok v ->
        breed_of f = Ok (v_breed v)
        /\ nth_error (log_row env v) 4 = Some (CellStr (v_breed v))).
Proof.
  assert (strip (breed_var f) <> BREED_OTHER -> breed_of f = Ok (strip (breed_var f)))
    as Hplain.
  { intros Hne. unfold breed_of. apply str_eqb_neq in Hne. rewrite Hne. reflexivity. }
  repeat apply conj.
  - intros Hs He.
    assert (breed_of f = Return MissingOtherBreed) as Hb.
    { unfold breed_of. rewrite Hs, str_eqb_refl, He. reflexivity. }
    split; [exact Hb|]. intros w.
    destruct (validate_breed_rejected env f Hb) as (m & Hm).
    exists m. unfold on_run. rewrite Hm. reflexivity.
  - intros Hs Hne. unfold breed_of. rewrite Hs, str_eqb_refl.
    apply truthy_true in Hne. rewrite Hne. reflexivity.
  - exact Hplain.
  - intros lines Hin Hne. pose proof (load_breeds_stripped _ _ Hin) as Hst.
    assert (breed_of f = Ok (strip (breed_var f))) as Hb
      by (apply Hplain; rewrite Hst; exact Hne).
    rewrite Hb, Hst. reflexivity.
  - intros v Hv. apply validate_Ok in Hv.
    split; [apply Hv | reflexivity].
Qed.

Lemma breed_selection_witness :
  breed_of form_other_breed = Ok (strip (breed_other_var form_other_breed))
  /\ strip (breed_other_var form_other_breed) = u "Maltipoo"
  /\ (breed_of form_other_breed_blank = Return MissingOtherBreed
      /\ forall w, exists m,
           on_run env_ok form_other_breed_blank w
           = (ShowError m, form_other_breed_blank, w)).
Proof.
  split; [|split; [vm_compute; reflexivity|]].
  - apply (proj1 (proj2 (breed_selection env_ok form_other_breed)));
      vm_compute; [reflexivity | discriminate].
  - apply (proj1 (breed_selection env_ok form_other_breed_blank));
      vm_compute; reflexivity.
Defined.

(** ** The payment amount *)

Lemma decimal_fold_nonneg (s : list N) (acc n : Z) :
  (0 <= acc)%Z -> decimal_fold acc s = Some n -> (0 <= n)%Z.
Proof.
  revert acc. induction s as [|c s IH]; simpl; intros acc Hacc.
  - intros [= <-]. exact Hacc.
  - destruct (decimal_value c) as [d|]; [|discriminate].
    apply IH. lia.
Qed.

Lemma int_nonneg (max_str_digits : N) (s : list N) (n : Z) :
  int max_str_digits s = Some n -> (0 <= n)%Z.
Proof.
  unfold int. destruct s as [|c s]; [discriminate|].
  destruct (too_many_digits _ _); [discriminate|].
  apply decimal_fold_nonneg. lia.
Qed.

(** The three ways the payment block of [on_run] can end. *)
Lemma payment_of_cases (env : Env) (f : Form) :
  (strip (payment_display f) = [] /\ payment_of env f = Ok 0%Z)
  \/ (strip (payment_display f) <> []
      /\ List.filter isdigit (strip (payment_display f)) = []
      /\ payment_of env f = Return PaymentDigitsOnly)
  \/ (strip (payment_display f) <> []
      /\ List.filter isdigit (strip (payment_display f)) <> []
      /\ payment_of env f
         = match int (int_max_str_digits env)
                   (List.filter isdigit (strip (payment_display f))) with
           | Some n => Ok n
           | None => Raise ValueError
           end).
Proof.
  unfold payment_of.
  destruct (strip (payment_display f)) as [|c s] eqn:Es; cbn [truthy].
  - left. split; reflexivity.
  - right. destruct (List.filter isdigit (c :: s)) as [|d ds] eqn:Ed; cbn [truthy negb].
    + left. split; [discriminate | split; reflexivity].
    + right. split; [discriminate | split; [discriminate | reflexivity]].
Qed.

(** C7 fails on the code.  A payment field holding superscript two is not
    empty and reduces to a non-empty string of digits, yet [on_run]
    neither parses it nor rejects it with a payment message: [int]
    raises, and the submission ends in the dialog for unexpected errors.
    The focus-out handler of the same field catches that very failure and
    reports that the payment cannot be read. *)
Theorem payment_superscript_two_unexpected (env : Env) (w : World) :
  strip (payment_display form_superscript_payment) = [178%N]
  /\ List.filter isdigit (strip (payment_display form_superscript_payment)) = [178%N]
  /\ payment_of env form_superscript_payment = Raise ValueError
  /\ on_run env form_superscript_payment w
     = (UnexpectedError ValueError, form_superscript_payment, w)
  /\ on_payment_focus_out env form_superscript_payment
     = (Some PaymentUnreadable, set_payment_display form_superscript_payment []).
Proof.
  repeat apply conj; try reflexivity.
Qed.

(** C9.  The payment amount of a valid submission is not negative: it is
    zero for an empty field, and otherwise the number read from the digit
    characters of the field alone, every other character being dropped
    first.  It is the tenth cell of the row of the log.  A field holding
    -500 gives 500. *)
Theorem recorded_payment_nonnegative (env : Env) (f : Form) (v : Validated) :
  validate env f = Ok v ->
  (0 <= v_payment_amount v)%Z
  /\ (strip (payment_display f) = [] /\ v_payment_amount v = 0%Z
      \/ int (int_max_str_digits env)
             (List.filter isdigit (strip (payment_display f)))
         = Some (v_payment_amount v))
  /\ nth_error (log_row env v) 9 = Some (CellInt (v_payment_amount v))
  /\ (strip (payment_display f) = u "-500" -> v_payment_amount v = 500%Z).
Proof.
  intros Hv. apply validate_Ok in Hv.
  destruct Hv as (_ & _ & _ & _ & _ & _ & _ & Hp & _).
  assert (strip (payment_display f) = [] /\ v_payment_amount v = 0%Z
          \/ int (int_max_str_digits env)
                 (List.filter isdigit (strip (payment_display f)))
             = Some (v_payment_amount v)) as Hcase.
  { destruct (payment_of_cases env f) as [(He & H0) | [(_ & _ & Hr) | (_ & _ & Hi)]].
    - left. split; [exact He | congruence].
    - congruence.
    - right. rewrite Hp in Hi. destruct (int _ _); [congruence | discriminate]. }
  split; [|split; [exact Hcase | split; [reflexivity|]]].
  - destruct Hcase as [(_ & ->) | Hi]; [lia | exact (int_nonneg _ _ _ Hi)].
  - intros Hm. rewrite Hm in Hcase. destruct Hcase as [(Habs & _) | Hi].
    + discriminate.
    + assert (int (int_max_str_digits env) (List.filter isdigit (u "-500"))
              = Some 500%Z) as H500 by reflexivity.
      congruence.
Qed.

Lemma recorded_payment_nonnegative_witness :
  validate env_ok form_minus_payment
  = Ok (example_validated (u "Kim") (u "01012345678") (u "Poodle") 500)
  /\ (0 <= 500)%Z.
Proof.
  assert (validate env_ok form_minus_payment
          = Ok (example_validated (u "Kim") (u "01012345678") (u "Poodle") 500)) as H
    by (vm_compute; reflexivity).
  split; [exact H|].
  exact (proj1 (recorded_payment_nonnegative env_ok form_minus_payment _ H)).
Defined.

Lemma decimal_fold_total (s : list N) (acc : Z) :
  forallb isdecimal s = true -> exists n, decimal_fold acc s = Some n.
Proof.
  revert acc. induction s as [|c s IH]; simpl; intros acc H.
  - exists acc. reflexivity.
  - apply andb_true_iff in H. destruct H as (Hc & Hs). unfold isdecimal in Hc.
    destruct (decimal_value c) as [d|]; [apply IH; exact Hs | discriminate].
Qed.

(** The payment the handler does read: a field whose digit characters are
    all decimal and within the limit of the interpreter. *)
Lemma payment_of_decimal (env : Env) (f : Form) :
  List.filter isdigit (strip (payment_display f)) <> [] ->
  forallb isdecimal (List.filter isdigit (strip (payment_display f))) = true ->
  too_many_digits (int_max_str_digits env)
    (List.filter isdigit (strip (payment_display f))) = false ->
  exists n, payment_of env f = Ok n /\ (0 <= n)%Z.
Proof.
  intros Hne Hdec Hlen.
  destruct (payment_of_cases env f) as [(He & _) | [(_ & He & _) | (_ & _ & Hp)]].
  - rewrite He in Hne. destruct Hne. reflexivity.
  - destruct (Hne He).
  - destruct (decimal_fold_total _ 0%Z Hdec) as (n & Hn).
    assert (int (int_max_str_digits env)
              (List.filter isdigit (strip (payment_display f))) = Some n) as Hi.
    { unfold int. destruct (List.filter isdigit _); [destruct Hne; reflexivity|].
      rewrite Hlen. exact Hn. }
    rewrite Hi in Hp. exists n. split; [exact Hp | exact (int_nonneg _ _ _ Hi)].
Qed.

(** ** The placeholder of the customer entry *)

Lemma breed_of_Return (f : Form) (m : message) :
  breed_of f = Return m -> m = MissingOtherBreed.
Proof.
  unfold breed_of. destruct (str_eqb _ _); [|discriminate].
  destruct (truthy _); cbn [negb]; [discriminate | congruence].
Qed.

Lemma payment_of_Return (env : Env) (f : Form) (m : message) :
  payment_of env f = Return m -> m = PaymentDigitsOnly.
Proof.
  destruct (payment_of_cases env f) as [(_ & ->) | [(_ & _ & ->) | (_ & _ & ->)]].
  - discriminate.
  - congruence.
  - destruct (int _ _); discriminate.
Qed.

(** Past the checks on the photos and the identity fields, an error
    dialog of step 1 comes from the customer number, the breed or the
    payment, in that order. *)
Lemma validate_Return_cases (env : Env) (f : Form) (m : message) :
  before_path f <> [] -> after_path f <> [] ->
  strip (dog_name f) <> [] -> strip (owner_name f) <> [] ->
  raw_customer_of f <> [] ->
  validate env f = Return m ->
  customer_number (raw_customer_of f) = Return m
  \/ breed_of f = Return m
  \/ payment_of env f = Return m.
Proof.
  intros Hb Ha Hd Ho Hr. apply truthy_true in Hb, Ha, Hd, Ho, Hr.
  unfold validate. rewrite Hb, Ha, Hd, Ho, Hr. cbn [negb orb].
  unfold mbind, result_bind.
  destruct (customer_number (raw_customer_of f));
    [|intros [= <-]; left; reflexivity | discriminate].
  destruct (breed_of f); [|intros [= <-]; right; left; reflexivity | discriminate].
  destruct (payment_of env f);
    [discriminate | intros [= <-]; right; right; reflexivity | discriminate].
Qed.

(** C10.  The placeholder text counts as no input only while the entry is
    gray.  When the trimmed text of the entry is 010-0000-0000 and the
    entry is not gray, the handler takes the text as the identifier and
    derives the customer number 01000000000 from it; with the entry gray
    the same text is dropped and the submission is refused as lacking a
    photo or an identity field.  An operator who enters the gray
    placeholder field, types that text and leaves the field has an entry
    that is black. *)
Theorem typed_placeholder_accepted (env : Env) (f : Form) :
  strip (customer_raw f) = CUSTOMER_PLACEHOLDER ->
  (customer_foreground f <> GRAY ->
     raw_customer_of f = CUSTOMER_PLACEHOLDER
     /\ customer_number (raw_customer_of f) = Ok (u "01000000000")
     /\ (forall v, validate env f = Ok v -> v_customer_no v = u "01000000000")
     /\ (before_path f <> [] -> after_path f <> [] ->
         strip (dog_name f) <> [] -> strip (owner_name f) <> [] ->
         forall m, validate env f = Return m ->
                   m = MissingOtherBreed \/ m = PaymentDigitsOnly))
  /\ (customer_foreground f = GRAY ->
        raw_customer_of f = []
        /\ forall w, exists m,
             on_run env f w = (ShowError m, f, w)
             /\ (m = MissingPhotos \/ m = MissingIdentity))
  /\ (forall f0, customer_raw f0 = CUSTOMER_PLACEHOLDER ->
        customer_foreground f0 = GRAY ->
        customer_raw (_on_customer_focus_out
                        (type_customer CUSTOMER_PLACEHOLDER (_on_customer_focus_in f0)))
        = CUSTOMER_PLACEHOLDER
        /\ customer_foreground (_on_customer_focus_out
                        (type_customer CUSTOMER_PLACEHOLDER (_on_customer_focus_in f0)))
           = BLACK).
Proof.
  intros Hs. repeat apply conj.
  - intros Hfg.
    assert (raw_customer_of f = CUSTOMER_PLACEHOLDER) as Hraw.
    { unfold raw_customer_of. rewrite Hs. apply str_eqb_neq in Hfg.
      rewrite Hfg, andb_false_r. reflexivity. }
    assert (customer_number (raw_customer_of f) = Ok (u "01000000000")) as Hno
      by (rewrite Hraw; reflexivity).
    split; [exact Hraw | split; [exact Hno | split]].
    + intros v Hv. apply validate_Ok in Hv.
      destruct Hv as (_ & _ & _ & _ & _ & Hc & _). congruence.
    + intros Hb Ha Hd Ho m Hm.
      assert (raw_customer_of f <> []) as Hr by (rewrite Hraw; discriminate).
      destruct (validate_Return_cases env f m Hb Ha Hd Ho Hr Hm)
        as [Hc | [Hbr | Hp]].
      * congruence.
      * left. exact (breed_of_Return _ _ Hbr).
      * right. exact (payment_of_Return _ _ _ Hp).
  - intros Hfg.
    assert (raw_customer_of f = []) as Hraw.
    { unfold raw_customer_of. rewrite Hs, Hfg, !str_eqb_refl. reflexivity. }
    split; [exact Hraw|]. intros w. unfold on_run, validate.
    destruct (negb (truthy (before_path f)) || negb (truthy (after_path f))).
    + exists MissingPhotos. split; [reflexivity | left; reflexivity].
    + rewrite Hraw. cbn [truthy negb]. rewrite !orb_true_r.
      exists MissingIdentity. split; [reflexivity | right; reflexivity].
  - intros f0 Hraw Hfg.
    unfold _on_customer_focus_in. rewrite Hraw, Hfg, !str_eqb_refl.
    split; reflexivity.
Qed.

Lemma typed_placeholder_accepted_witness :
  validate env_ok form_typed_placeholder
  = Ok (example_validated (u "Kim") (u "01000000000") (u "Poodle") 15000)
  /\ v_customer_no (example_validated (u "Kim") (u "01000000000") (u "Poodle") 15000)
     = u "01000000000"
  /\ exists m, on_run env_ok form_gray_placeholder world_empty
               = (ShowError m, form_gray_placeholder, world_empty)
               /\ (m = MissingPhotos \/ m = MissingIdentity).
Proof.
  assert (validate env_ok form_typed_placeholder
          = Ok (example_validated (u "Kim") (u "01000000000") (u "Poodle") 15000)) as H
    by (vm_compute; reflexivity).
  split; [exact H | split].
  - refine (proj1 (proj2 (proj2
      (proj1 (typed_placeholder_accepted env_ok form_typed_placeholder _) _))) _ H).
    + vm_compute. reflexivity.
    + vm_compute. discriminate.
  - refine (proj2 (proj1 (proj2
      (typed_placeholder_accepted env_ok form_gray_placeholder _)) _) world_empty).
    + vm_compute. reflexivity.
    + vm_compute. reflexivity.
Defined.

(** ** Steps 2 to 5 of [on_run] *)

Lemma makedirs_inr (env : Env) (v : Validated) (w w1 : World) :
  makedirs env (base_dir env) (dest_folder env v) w = inr w1 ->
  w1 = world_with_folder env v w.
Proof.
  unfold makedirs. destruct (negb _ && negb _); [discriminate|].
  cbv zeta. destruct (_ && _); [|discriminate].
  intros [= <-]. reflexivity.
Qed.

(** A failed [makedirs]: the root could not be made and nothing has
    changed, or the folder could not be made and the root, if it had to
    be made, stays. *)
Lemma makedirs_inl (env : Env) (base path : list N) (w w0 : World) (e : exn) :
  makedirs env base path w = inl (e, w0) ->
  e = MakedirsError base /\ path_exists w base = false
    /\ makedirs_ok env base = false /\ w0 = w
  \/ e = MakedirsError path
     /\ w0 = (if path_exists w base then w else add_dir w base).
Proof.
  unfold makedirs. cbv zeta.
  destruct (path_exists w base) eqn:Hb; cbn [negb andb].
  - destruct (_ && _); [discriminate|]. intros [= <- <-]. right. split; reflexivity.
  - destruct (makedirs_ok env base) eqn:Hok; cbn [negb].
    + destruct (_ && _); [discriminate|]. intros [= <- <-]. right. split; reflexivity.
    + intros [= <- <-]. left. repeat split.
Qed.

Lemma dest_folder_in_world_with_folder (env : Env) (v : Validated) (w : World) :
  dest_folder env v ∈ dirs (world_with_folder env v w).
Proof.
  unfold world_with_folder. cbn [dirs].
  apply elem_of_union_r, elem_of_union_l, elem_of_singleton. reflexivity.
Qed.

Lemma world_with_folder_changes (env : Env) (v : Validated) (w : World) :
  dest_folder env v ∉ dirs w -> world_with_folder env v w <> w.
Proof.
  intros Hnot Heq. apply Hnot.
  pose proof (dest_folder_in_world_with_folder env v w) as Hin.
  rewrite Heq in Hin. exact Hin.
Qed.

Lemma path_exists_false (w : World) (path : list N) :
  path_exists w path = false <-> (path ∉ dirs w) /\ files w !! path = None.
Proof.
  unfold path_exists. rewrite orb_false_iff, !bool_decide_eq_false.
  rewrite <- eq_None_not_Some. reflexivity.
Qed.

Lemma path_exists_file (w : World) (path : list N) (x : file) :
  files w !! path = Some x -> path_exists w path = true.
Proof.
  intros H. unfold path_exists. apply orb_true_iff. right.
  apply bool_decide_eq_true. exists x. exact H.
Qed.

Lemma save_image_copy_inr (env : Env) (src dest : list N) (w w' : World) :
  save_image_copy env src dest w = inr w' ->
  exists fmt pic, w' = write_file w dest (ImageFile fmt pic).
Proof.
  unfold save_image_copy. destruct (image_open env src) as [im|]; [|discriminate].
  cbv zeta. destruct (_ && _); [|discriminate].
  destruct (image_write_ok env dest); [|discriminate].
  intros [= <-]. eexists _, _. reflexivity.
Qed.

(** A failed [save_image_copy]: the source could not be opened, or the
    copy could not be saved; only in the second case can the world have
    changed, by a damaged file at the destination. *)
Lemma save_image_copy_inl (env : Env) (src dest : list N) (w w0 : World) (e : exn) :
  save_image_copy env src dest w = inl (e, w0) ->
  e = ImageOpenError src /\ image_open env src = None /\ w0 = w
  \/ e = ImageSaveError dest /\ image_open env src <> None
     /\ (w0 = w \/ w0 = write_file w dest Damaged).
Proof.
  unfold save_image_copy. destruct (image_open env src) as [im|].
  - cbv zeta. intros H. right.
    destruct (_ && _).
    + destruct (image_write_ok env dest); [discriminate|].
      injection H as <- <-. split; [reflexivity | split; [discriminate|]].
      destruct (_ || _); [right | left]; reflexivity.
    + injection H as <- <-. split; [reflexivity | split; [discriminate | left; reflexivity]].
  - intros [= <- <-]. left. repeat split.
Qed.

Lemma workbook_save_inr (ok : bool) (failure : option exn) (path : list N)
    (rows : list (list cell)) (w w' : World) :
  workbook_save ok failure path rows w = inr w' ->
  (path ∉ dirs w) /\ failure = None /\ w' = write_file w path (Workbook rows).
Proof.
  unfold workbook_save. destruct ok; cbn [andb]; [|discriminate].
  destruct (bool_decide (path ∈ dirs w)) eqn:Hd; cbn [negb]; [discriminate|].
  apply bool_decide_eq_false in Hd. destruct failure; [discriminate|].
  intros [= <-]. split; [exact Hd | split; reflexivity].
Qed.

(** A failed save: the file could not be opened and the world is as it
    was, or the archive could not be written and the file is damaged. *)
Lemma workbook_save_inl (ok : bool) (failure : option exn) (path : list N)
    (rows : list (list cell)) (w w0 : World) (e : exn) :
  workbook_save ok failure path rows w = inl (e, w0) ->
  e = WorkbookSaveError path /\ w0 = w
  \/ failure = Some e /\ (path ∉ dirs w) /\ w0 = write_file w path Damaged.
Proof.
  unfold workbook_save. destruct ok; cbn [andb].
  - destruct (bool_decide (path ∈ dirs w)) eqn:Hd; cbn [negb].
    + intros [= <- <-]. left. split; reflexivity.
    + apply bool_decide_eq_false in Hd. destruct failure as [e0|]; [|discriminate].
      intros [= <- <-]. right. split; [reflexivity | split; [exact Hd | reflexivity]].
  - intros [= <- <-]. left. split; reflexivity.
Qed.

(** The header is kept as it is given; no cell refuses it, and writing
    it cannot overflow. *)
Lemma sheet_append_HEADER : sheet_append [] HEADER = [HEADER].
Proof. vm_compute. reflexivity. Qed.

Example header_accepted :
  existsb cell_illegal HEADER = false /\ existsb cell_overflows HEADER = false.
Proof. split; vm_compute; reflexivity. Qed.

Lemma write_failure_HEADER (ok : bool) (path : list N) :
  write_failure ok path HEADER = if ok then None else Some (WorkbookSaveError path).
Proof. reflexivity. Qed.

Lemma ensure_excel_file_inr (env : Env) (path : list N) (w w1 : World) :
  ensure_excel_file env path w = inr w1 ->
  path_exists w path = true /\ w1 = w
  \/ path_exists w path = false /\ w1 = write_file w path (Workbook [HEADER]).
Proof.
  unfold ensure_excel_file. destruct (path_exists w path); cbn [negb].
  - intros [= <-]. left. split; reflexivity.
  - rewrite sheet_append_HEADER. intros H. apply workbook_save_inr in H.
    right. split; [reflexivity | apply H].
Qed.

Lemma ensure_excel_file_inl (env : Env) (path : list N) (w w0 : World) (e : exn) :
  ensure_excel_file env path w = inl (e, w0) ->
  path_exists w path = false /\ e = WorkbookSaveError path
  /\ (w0 = w \/ w0 = write_file w path Damaged).
Proof.
  unfold ensure_excel_file. destruct (path_exists w path); cbn [negb]; [discriminate|].
  rewrite write_failure_HEADER. intros H. apply workbook_save_inl in H.
  split; [reflexivity|]. destruct H as [(-> & ->) | (Hf & _ & ->)].
  - split; [reflexivity | left; reflexivity].
  - destruct (workbook_create_write_ok env path); [discriminate|].
    injection Hf as <-. split; [reflexivity | right; reflexivity].
Qed.

Lemma load_workbook_inr (env : Env) (path : list N) (w : World)
    (rows : list (list cell)) :
  load_workbook env path w = inr rows -> files w !! path = Some (Workbook rows).
Proof.
  unfold load_workbook.
  destruct (files w !! path) as [[rows'|fmt pic|]|]; try discriminate.
  destruct (load_workbook_ok env path); [|discriminate].
  intros [= <-]. reflexivity.
Qed.

Lemma load_workbook_inl (env : Env) (path : list N) (w : World) (e : exn) :
  load_workbook env path w = inl e -> e = LoadWorkbookError path.
Proof.
  unfold load_workbook.
  destruct (files w !! path) as [[rows'|fmt pic|]|]; try (intros [= <-]; reflexivity).
  destruct (load_workbook_ok env path); [discriminate|].
  intros [= <-]. reflexivity.
Qed.

Lemma write_failure_None (ok : bool) (path : list N) (r : list cell) :
  write_failure ok path r = None -> existsb cell_overflows r = false.
Proof.
  unfold write_failure. destruct (existsb cell_overflows r); [discriminate | reflexivity].
Qed.

Lemma write_failure_Some (ok : bool) (path : list N) (r : list cell) (e : exn) :
  write_failure ok path r = Some e ->
  e = OverflowError /\ existsb cell_overflows r = true
  \/ e = WorkbookSaveError path /\ existsb cell_overflows r = false.
Proof.
  unfold write_failure. destruct (existsb cell_overflows r).
  - intros [= <-]. left. split; reflexivity.
  - destruct ok; [discriminate|]. intros [= <-]. right. split; reflexivity.
Qed.

Lemma write_file_twice (w : World) (path : list N) (x y : file) :
  write_file (write_file w path x) path y = write_file w path y.
Proof.
  unfold write_file. cbn [dirs files]. f_equal. apply insert_insert_eq.
Qed.

(** A successful append: the rows found in the log, or the header alone
    when there was no log, followed by the new row as the sheet keeps
    it. *)
Lemma append_excel_row_inr (env : Env) (path : list N) (r : list cell)
    (w w4 : World) :
  append_excel_row env path r w = inr w4 ->
  exists rows,
    (files w !! path = Some (Workbook rows)
     \/ files w !! path = None /\ rows = [HEADER])
    /\ (path ∉ dirs w)
    /\ dirs w4 = dirs w
    /\ files w4 = <[path := Workbook (sheet_append (resave_rows rows) r)]> (files w)
    /\ existsb cell_illegal r = false
    /\ existsb cell_overflows r = false.
Proof.
  unfold append_excel_row.
  destruct (ensure_excel_file env path w) as [(e, w0)|w1] eqn:He; [discriminate|].
  destruct (load_workbook env path w1) as [e|rows] eqn:Hl; [discriminate|].
  destruct (existsb cell_illegal r) eqn:Hi; [discriminate|].
  intros Hs. apply workbook_save_inr in Hs.
  destruct Hs as (Hd & Hf & ->). apply write_failure_None in Hf.
  rewrite existsb_app in Hf. apply orb_false_iff in Hf. destruct Hf as (_ & Hf).
  apply load_workbook_inr in Hl. exists rows.
  apply ensure_excel_file_inr in He. destruct He as [(_ & ->) | (Hne & ->)].
  - split; [left; exact Hl|].
    split; [exact Hd | split; [reflexivity | split; [reflexivity|]]].
    split; [reflexivity | exact Hf].
  - apply path_exists_false in Hne. destruct Hne as (Hnd & Hnone).
    cbn [write_file files dirs] in *. rewrite lookup_insert_eq in Hl.
    injection Hl as <-.
    split; [right; split; [exact Hnone | reflexivity]|].
    split; [exact Hd | split; [reflexivity | split; [apply insert_insert_eq|]]].
    split; [reflexivity | exact Hf].
Qed.

(** A failed append.  Either the log was not written to: the world is as
    it was, or has a new log that holds the header only.  Or the save
    failed while the archive was written, and the log is damaged. *)
Lemma append_excel_row_inl (env : Env) (path : list N) (r : list cell)
    (w w1 : World) (e : exn) :
  append_excel_row env path r w = inl (e, w1) ->
  (e = WorkbookSaveError path \/ e = LoadWorkbookError path
   \/ e = IllegalCharacterError)
  /\ (w1 = w
      \/ path_exists w path = false /\ w1 = write_file w path (Workbook [HEADER]))
  \/ (e = WorkbookSaveError path \/ e = OverflowError)
     /\ (path ∉ dirs w)
     /\ w1 = write_file w path Damaged.
Proof.
  unfold append_excel_row.
  destruct (ensure_excel_file env path w) as [(e0, w0)|w0] eqn:He.
  - intros [= <- <-]. apply ensure_excel_file_inl in He.
    destruct He as (Hne & -> & [-> | ->]).
    + left. split; [left; reflexivity | left; reflexivity].
    + right. split; [left; reflexivity | split; [|reflexivity]].
      apply path_exists_false in Hne. apply Hne.
  - apply ensure_excel_file_inr in He.
    assert (w0 = w \/ path_exists w path = false
                      /\ w0 = write_file w path (Workbook [HEADER])) as Hw0.
    { destruct He as [(_ & ->) | (Hne & ->)]; [left; reflexivity|].
      right. split; [exact Hne | reflexivity]. }
    destruct (load_workbook env path w0) as [e1|rows] eqn:Hl.
    { intros [= <- <-]. left. split; [|exact Hw0].
      right; left. apply load_workbook_inl in Hl. exact Hl. }
    destruct (existsb cell_illegal r).
    { intros [= <- <-]. left. split; [right; right; reflexivity | exact Hw0]. }
    intros Hs. apply workbook_save_inl in Hs.
    destruct Hs as [(-> & ->) | (Hf & Hd & ->)].
    + left. split; [left; reflexivity | exact Hw0].
    + right. split.
      { apply write_failure_Some in Hf. destruct Hf as [(-> & _) | (-> & _)];
          [right | left]; reflexivity. }
      destruct Hw0 as [-> | (_ & ->)].
      * split; [exact Hd | reflexivity].
      * split; [exact Hd | apply write_file_twice].
Qed.

(** The shape of a run of [on_run] that got past step 1 and was saved. *)
Lemma store_Saved (env : Env) (f : Form) (v : Validated) (w : World)
    (d : list N) (f' : Form) (w' : World) :
  store env f v w = (Saved d, f', w') ->
  exists fmt1 pic1 fmt2 pic2,
    d = dest_folder env v /\ f' = reset_inputs f
    /\ append_excel_row env (log_path env) (log_row env v)
         (write_file
            (write_file (world_with_folder env v w) (dest_before env v)
               (ImageFile fmt1 pic1))
            (dest_after env v) (ImageFile fmt2 pic2))
       = inr w'.
Proof.
  unfold store.
  destruct (makedirs env (base_dir env) (dest_folder env v) w) as [(e, w0)|w1] eqn:Hm;
    [discriminate|].
  apply makedirs_inr in Hm. subst w1.
  destruct (_ || _); [discriminate|].
  destruct (save_image_copy env (v_before v) _ _) as [(e, w0)|w2] eqn:H1; [discriminate|].
  destruct (save_image_copy env (v_after v) _ _) as [(e, w0)|w3] eqn:H2; [discriminate|].
  apply save_image_copy_inr in H1, H2.
  destruct H1 as (fmt1 & pic1 & ->). destruct H2 as (fmt2 & pic2 & ->).
  destruct (append_excel_row _ _ _ _) as [(e, w4)|w4] eqn:Ha; [discriminate|].
  intros [= <- <- <-]. exists fmt1, pic1, fmt2, pic2.
  split; [reflexivity | split; [reflexivity | exact Ha]].
Qed.

Lemma write_file_changes (w0 w : World) (path : list N) (x : file) :
  files w !! path = None -> write_file w0 path x <> w.
Proof.
  intros Hnone Heq. rewrite <- Heq in Hnone. cbn [write_file files] in Hnone.
  rewrite lookup_insert_eq in Hnone. discriminate.
Qed.

(** ** Further checks *)

Lemma valid_chars (s : list N) (ch : N) :
  forallb (fun c => negb (char_in c invalid)) s = true ->
  In ch invalid -> ~ In ch s.
Proof.
  intros Hall Hch Hin. rewrite forallb_forall in Hall. specialize (Hall ch Hin).
  apply char_in_spec in Hch. rewrite Hch in Hall. discriminate.
Qed.

(** The photos [set_photo] accepts have one of three extensions, and then
    the two file names as a whole are free of the forbidden characters. *)
Lemma names_valid (env : Env) (v : Validated) (ch : N) :
  photo_ext_accepted env (v_before v) = true ->
  photo_ext_accepted env (v_after v) = true ->
  In ch invalid ->
  ~ In ch (name_before env v) /\ ~ In ch (name_after env v).
Proof.
  assert (forall p, photo_ext_accepted env p = true ->
                    In ch invalid -> ~ In ch (ext_of env p)) as Hext.
  { intros p Hp. unfold photo_ext_accepted, str_in in Hp.
    cbn [existsb] in Hp. rewrite !orb_true_iff, !str_eqb_eq in Hp.
    destruct Hp as [-> | [-> | [-> | Hp]]]; [| | | discriminate];
      (apply valid_chars; reflexivity). }
  intros Hb Ha Hch. unfold name_before, name_after. split; intros Hin;
    apply in_app_or in Hin; destruct Hin as [Hin | Hin];
    try (exact (sanitize_for_path_valid _ _ Hch Hin));
    apply in_app_or in Hin; destruct Hin as [Hin | Hin];
    try (exact (Hext _ Hb Hch Hin)); try (exact (Hext _ Ha Hch Hin));
    revert Hin; (apply valid_chars; [reflexivity | exact Hch]).
Qed.

(** The display formatter and the handler agree: what the focus-out
    handler shows for 1234567 is read back as 1234567. *)
Example payment_display_round_trip :
  on_payment_focus_out env_ok
    (example_form (u "Kim") (u "010-1234-5678") BLACK (u "Poodle") [] (u "1234567"))
  = (None,
     example_form (u "Kim") (u "010-1234-5678") BLACK (u "Poodle") [] (u "1,234,567"))
  /\ payment_of env_ok
       (example_form (u "Kim") (u "010-1234-5678") BLACK (u "Poodle") [] (u "1,234,567"))
     = Ok 1234567%Z.
Proof. split; vm_compute; reflexivity. Qed.

(** * Further properties of the code *)

(** ** The breed list *)

Lemma str_in_spec (s : list N) (l : list (list N)) : str_in s l = true <-> In s l.
Proof.
  unfold str_in. rewrite existsb_exists. split.
  - intros (x & Hx & He). apply str_eqb_eq in He. subst. exact Hx.
  - intros H. exists s. split; [exact H | apply str_eqb_refl].
Qed.

(** X1.  Whatever the lines of the breed file are, the breed list that
    [load_breeds_or_die] returns is not empty, holds the sentinel breed,
    and holds only entries that are trimmed and not empty; it is the
    trimmed non-empty lines in their order, with the sentinel added at
    the end exactly when none of them is the sentinel. *)
Theorem load_breeds_or_die_entries (lines : list (list N)) :
  In BREED_OTHER (load_breeds_or_die lines)
  /\ load_breeds_or_die lines <> []
  /\ (forall b, In b (load_breeds_or_die lines) -> strip b = b /\ b <> [])
  /\ (In BREED_OTHER (List.filter truthy (List.map strip lines))
      /\ load_breeds_or_die lines = List.filter truthy (List.map strip lines)
      \/ ~ In BREED_OTHER (List.filter truthy (List.map strip lines))
         /\ load_breeds_or_die lines
            = List.filter truthy (List.map strip lines) ++ [BREED_OTHER]).
Proof.
  assert (In BREED_OTHER (load_breeds_or_die lines)) as Hin.
  { unfold load_breeds_or_die.
    destruct (str_in BREED_OTHER _) eqn:E.
    - apply str_in_spec. exact E.
    - apply in_or_app. right. left. reflexivity. }
  split; [exact Hin | split; [|split]].
  - intros He. rewrite He in Hin. destruct Hin.
  - intros b Hb. split; [exact (load_breeds_stripped _ _ Hb)|].
    unfold load_breeds_or_die in Hb.
    assert (In b (List.filter truthy (List.map strip lines)) \/ b = BREED_OTHER)
      as [H | ->].
    { destruct (str_in BREED_OTHER _); [left; exact Hb|].
      apply in_app_or in Hb. destruct Hb as [H | [<- | []]]; auto. }
    + apply filter_In in H. apply truthy_true, H.
    + discriminate.
  - unfold load_breeds_or_die. destruct (str_in BREED_OTHER _) eqn:E.
    + left. split; [apply str_in_spec; exact E | reflexivity].
    + right. split; [|reflexivity]. intros H. apply str_in_spec in H. congruence.
Qed.

Lemma load_breeds_or_die_entries_witness :
  In (u "Poodle") (load_breeds_or_die [u " Poodle "; u "  "])
  /\ strip (u "Poodle") = u "Poodle" /\ u "Poodle" <> [].
Proof.
  assert (In (u "Poodle") (load_breeds_or_die [u " Poodle "; u "  "])) as H
    by (left; reflexivity).
  split; [exact H|].
  exact (proj1 (proj2 (proj2 (load_breeds_or_die_entries [u " Poodle "; u "  "])))
           (u "Poodle") H).
Defined.

(** ** The sanitiser, again *)

Lemma lstrip_length (s : list N) : (length (lstrip s) <= length s)%nat.
Proof.
  induction s as [|c s IH]; simpl; [lia|]. destruct (isspace c); simpl; lia.
Qed.

Lemma strip_length (s : list N) : (length (strip s) <= length s)%nat.
Proof.
  unfold strip, rstrip. pose proof (lstrip_length (rev (lstrip (rev s)))) as H1.
  pose proof (lstrip_length (rev s)) as H2.
  rewrite !length_rev in *. lia.
Qed.

Lemma sanitize_char_idempotent (ch : N) :
  sanitize_char (sanitize_char ch) = sanitize_char ch.
Proof.
  unfold sanitize_char at 1. rewrite sanitize_char_valid. reflexivity.
Qed.

Lemma map_sanitize_char_fixed (s : list N) :
  (forall ch, In ch s -> char_in ch invalid = false) ->
  List.map sanitize_char s = s.
Proof.
  induction s as [|c s IH]; intros H; simpl; [reflexivity|].
  unfold sanitize_char at 1. rewrite (H c (or_introl eq_refl)).
  f_equal. apply IH. intros ch Hch. apply H. right. exact Hch.
Qed.

Lemma sanitize_for_path_idempotent_length (name : list N) :
  sanitize_for_path (sanitize_for_path name) = sanitize_for_path name
  /\ (length (sanitize_for_path name) <= length name)%nat.
Proof.
  split.
  - unfold sanitize_for_path at 1.
    rewrite map_sanitize_char_fixed.
    + unfold sanitize_for_path. apply strip_idempotent.
    + intros ch Hch. destruct (char_in ch invalid) eqn:E; [|reflexivity].
      apply char_in_spec in E. destruct (sanitize_for_path_valid name ch E Hch).
  - unfold sanitize_for_path.
    pose proof (strip_length (List.map sanitize_char name)) as H.
    rewrite length_map in H. exact H.
Qed.

(** X2.  Sanitising is idempotent and never makes a name longer: a name
    that has been sanitised is left as it is by a second pass, and the
    result has at most as many characters as the input. *)
Theorem sanitize_for_path_idempotent (name : list N) :
  sanitize_for_path (sanitize_for_path name) = sanitize_for_path name
  /\ (length (sanitize_for_path name) <= length name)%nat.
Proof. apply sanitize_for_path_idempotent_length. Qed.

(** ** The log, again *)

Lemma sheet_append_cons (rows : list (list cell)) (r : list cell) :
  r <> [] -> sheet_append rows r = rows ++ [List.map stored_cell r].
Proof. destruct r; [congruence | reflexivity]. Qed.

Lemma stored_cell_kept (c : cell) : cell_kept c = true -> stored_cell c = c.
Proof.
  destruct c; cbn [cell_kept stored_cell]; intros H; try rewrite H; reflexivity.
Qed.

Lemma resaved_kept (c : cell) : cell_kept c = true -> resaved c = c.
Proof.
  destruct c; cbn [cell_kept resaved]; intros H; try rewrite H; reflexivity.
Qed.

Lemma resaved_stored (c : cell) : resaved (stored_cell c) = stored_cell c.
Proof.
  destruct c as [s|n|c]; cbn [stored_cell].
  - destruct (plain_text s); reflexivity.
  - destruct (Z.abs n <=? 2 ^ 53)%Z eqn:E; cbn [resaved]; [rewrite E|]; reflexivity.
  - reflexivity.
Qed.

Lemma resaved_idempotent (c : cell) : resaved (resaved c) = resaved c.
Proof.
  destruct c as [s|n|c]; cbn [resaved]; try reflexivity.
  destruct (Z.abs n <=? 2 ^ 53)%Z eqn:E; cbn [resaved]; [rewrite E|]; reflexivity.
Qed.

Lemma resave_rows_kept (rows : list (list cell)) :
  forallb (forallb cell_kept) rows = true -> resave_rows rows = rows.
Proof.
  unfold resave_rows. induction rows as [|r rows IH]; [reflexivity|].
  cbn [forallb List.map]. intros H. apply andb_true_iff in H. destruct H as (Hr & Hrows).
  rewrite (IH Hrows). f_equal.
  induction r as [|c r IHr]; [reflexivity|].
  cbn [forallb List.map] in *. apply andb_true_iff in Hr. destruct Hr as (Hc & Hr).
  rewrite (resaved_kept c Hc), (IHr Hr). reflexivity.
Qed.

(** Saving again what an append has saved changes nothing. *)
Lemma resave_rows_sheet_append (rows : list (list cell)) (r : list cell) :
  resave_rows (sheet_append (resave_rows rows) r) = sheet_append (resave_rows rows) r.
Proof.
  assert (resave_rows (resave_rows rows) = resave_rows rows) as Hidem.
  { unfold resave_rows. rewrite List.map_map. apply List.map_ext. intros row.
    rewrite List.map_map. apply List.map_ext. apply resaved_idempotent. }
  destruct r as [|c r]; [exact Hidem|].
  cbn [sheet_append]. unfold resave_rows at 1. rewrite List.map_app.
  fold (resave_rows (resave_rows rows)). rewrite Hidem. f_equal.
  cbn [List.map]. f_equal. rewrite resaved_stored. f_equal.
  rewrite List.map_map. apply List.map_ext. apply resaved_stored.
Qed.

Lemma map_stored_cell_kept (r : list cell) :
  forallb cell_kept r = true -> List.map stored_cell r = r.
Proof.
  induction r as [|c r IH]; [reflexivity|]. cbn [forallb List.map].
  intros H. apply andb_true_iff in H. destruct H as (Hc & Hr).
  rewrite (stored_cell_kept c Hc), (IH Hr). reflexivity.
Qed.

(** X3.  [ensure_excel_file] creates the log only when nothing is at its
    path, and then with the header row alone; it leaves an existing file
    or folder at that path, and every other file and folder, as they
    are.  Once it has succeeded, calling it again changes nothing. *)
Theorem ensure_excel_file_idempotent
    (env : Env) (path : list N) (w w1 : World) :
  ensure_excel_file env path w = inr w1 ->
  path_exists w1 path = true
  /\ dirs w1 = dirs w
  /\ (forall p, p <> path -> files w1 !! p = files w !! p)
  /\ (path_exists w path = true -> w1 = w)
  /\ (path_exists w path = false -> files w1 !! path = Some (Workbook [HEADER]))
  /\ (forall env', ensure_excel_file env' path w1 = inr w1).
Proof.
  intros He. apply ensure_excel_file_inr in He.
  assert (path_exists w1 path = true) as Hex.
  { destruct He as [(Hp & ->) | (_ & ->)]; [exact Hp|].
    eapply path_exists_file. cbn [write_file files]. apply lookup_insert_eq. }
  split; [exact Hex|]. repeat apply conj.
  - destruct He as [(_ & ->) | (_ & ->)]; reflexivity.
  - intros p Hp. destruct He as [(_ & ->) | (_ & ->)]; [reflexivity|].
    cbn [write_file files]. apply lookup_insert_ne. congruence.
  - intros Hp. destruct He as [(_ & ->) | (Hn & _)]; [reflexivity | congruence].
  - intros Hp. destruct He as [(Hn & _) | (_ & ->)]; [congruence|].
    cbn [write_file files]. apply lookup_insert_eq.
  - intros env'. unfold ensure_excel_file. rewrite Hex. reflexivity.
Qed.

Lemma ensure_excel_file_idempotent_witness :
  path_exists (write_file world_empty (log_path env_ok) (Workbook [HEADER]))
    (log_path env_ok) = true.
Proof.
  apply (ensure_excel_file_idempotent env_ok (log_path env_ok) world_empty).
  reflexivity.
Defined.

(** X4.  Two appends in a row keep their order: on a log that is there,
    or on no log at all, appending a row and then another leaves the old
    rows (the header, for a new log) as a save writes them, followed by
    what the sheet keeps of the first row and then of the second, and
    touches no other file or folder.  An empty row adds nothing: the next
    row then comes directly under the old ones.  When the old rows and
    the two new ones are made of texts and numbers that the workbook
    keeps as given, the log holds the old rows and the two rows as they
    were passed. *)
Theorem append_excel_row_twice
    (env1 env2 : Env) (path : list N) (r1 r2 : list cell) (w w1 w2 : World) :
  append_excel_row env1 path r1 w = inr w1 ->
  append_excel_row env2 path r2 w1 = inr w2 ->
  exists rows,
    (files w !! path = Some (Workbook rows)
     \/ files w !! path = None /\ rows = [HEADER])
    /\ files w2 !! path
       = Some (Workbook (sheet_append (sheet_append (resave_rows rows) r1) r2))
    /\ (r1 <> [] -> r2 <> [] ->
        sheet_append (sheet_append (resave_rows rows) r1) r2
        = resave_rows rows ++ [List.map stored_cell r1; List.map stored_cell r2])
    /\ (r1 = [] -> r2 <> [] ->
        sheet_append (sheet_append (resave_rows rows) r1) r2
        = resave_rows rows ++ [List.map stored_cell r2])
    /\ (r1 <> [] -> r2 <> [] ->
        forallb (forallb cell_kept) rows = true ->
        forallb cell_kept r1 = true -> forallb cell_kept r2 = true ->
        sheet_append (sheet_append (resave_rows rows) r1) r2 = rows ++ [r1; r2])
    /\ dirs w2 = dirs w
    /\ forall p, p <> path -> files w2 !! p = files w !! p.
Proof.
  intros H1 H2. apply append_excel_row_inr in H1, H2.
  destruct H1 as (rows & Hrows & _ & Hd1 & Hf1 & _).
  destruct H2 as (rows' & Hrows' & _ & Hd2 & Hf2 & _).
  rewrite Hf1, lookup_insert_eq in Hrows'.
  destruct Hrows' as [[= <-] | (Habs & _)]; [|discriminate].
  rewrite resave_rows_sheet_append in Hf2.
  exists rows. split; [exact Hrows|].
  split; [rewrite Hf2; apply lookup_insert_eq|].
  split; [|split; [|split; [|split]]].
  - intros N1 N2. rewrite !sheet_append_cons, <- app_assoc by assumption. reflexivity.
  - intros -> N2. cbn [sheet_append]. apply sheet_append_cons. exact N2.
  - intros N1 N2 K0 K1 K2.
    rewrite !sheet_append_cons, <- app_assoc by assumption.
    rewrite !map_stored_cell_kept, resave_rows_kept by assumption. reflexivity.
  - congruence.
  - intros p Hp. rewrite Hf2, lookup_insert_ne by congruence.
    rewrite Hf1, lookup_insert_ne by congruence. reflexivity.
Qed.

Lemma append_excel_row_twice_witness :
  exists rows,
    (files world_empty !! log_path env_ok = Some (Workbook rows)
     \/ files world_empty !! log_path env_ok = None /\ rows = [HEADER])
    /\ files (write_file world_empty (log_path env_ok)
                (Workbook [HEADER; [CellInt 1]; [CellInt 2]])) !! log_path env_ok
       = Some (Workbook
           (sheet_append (sheet_append (resave_rows rows) [CellInt 1]) [CellInt 2]))
    /\ sheet_append (sheet_append (resave_rows rows) [CellInt 1]) [CellInt 2]
       = resave_rows rows ++ [[CellInt 1]; [CellInt 2]].
Proof.
  destruct (append_excel_row_twice env_ok env_ok (log_path env_ok)
              [CellInt 1] [CellInt 2] world_empty
              (write_file world_empty (log_path env_ok) (Workbook [HEADER; [CellInt 1]]))
              (write_file world_empty (log_path env_ok)
                 (Workbook [HEADER; [CellInt 1]; [CellInt 2]]))
              eq_refl eq_refl)
    as (rows & Hrows & Hlog & Hboth & _).
  exists rows. split; [exact Hrows | split; [exact Hlog|]].
  apply Hboth; discriminate.
Defined.

Lemma decimal_in_bound (zeros : list N) (c d : N) :
  decimal_in zeros c = Some d -> (d < 10)%N.
Proof.
  induction zeros as [|z zs IH]; simpl; [discriminate|].
  destruct ((z <=? c)%N && (c <? z + 10)%N) eqn:E; [|exact IH].
  apply andb_true_iff in E. destruct E as (H1 & H2).
  apply N.leb_le in H1. apply N.ltb_lt in H2. intros [= <-]. lia.
Qed.

Lemma decimal_value_ascii (c : N) :
  (48 <= c <= 57)%N -> decimal_value c = Some (c - 48)%N.
Proof.
  intros H. unfold decimal_value, decimal_zeros. cbn [decimal_in].
  assert ((48 <=? c)%N && (c <? 48 + 10)%N = true) as ->; [|reflexivity].
  apply andb_true_iff. split; [apply N.leb_le | apply N.ltb_lt]; lia.
Qed.

Lemma isdigit_ascii (c : N) : (48 <= c <= 57)%N -> isdigit c = true.
Proof.
  intros H. unfold isdigit, isdecimal. rewrite (decimal_value_ascii c H). reflexivity.
Qed.

Lemma decimal_fold_snoc (s : list N) (acc : Z) (c d : N) :
  decimal_value c = Some d ->
  decimal_fold acc (s ++ [c])
  = option_map (fun v => (v * 10 + Z.of_N d)%Z) (decimal_fold acc s).
Proof.
  intros Hc. revert acc. induction s as [|x s IH]; intros acc; simpl.
  - rewrite Hc. reflexivity.
  - destruct (decimal_value x); [apply IH | reflexivity].
Qed.

Lemma decimal_fold_bound (s : list N) (acc v : Z) :
  (0 <= acc)%Z -> decimal_fold acc s = Some v ->
  (v < (acc + 1) * 10 ^ Z.of_nat (length s))%Z.
Proof.
  revert acc. induction s as [|c s IH]; intros acc Hacc; cbn [decimal_fold length].
  - intros [= <-]. change (10 ^ Z.of_nat 0)%Z with 1%Z. lia.
  - destruct (decimal_value c) as [d|] eqn:Hd; [|discriminate].
    intros Hv. apply decimal_in_bound in Hd.
    apply IH in Hv; [|lia].
    rewrite Nat2Z.inj_succ, Z.pow_succ_r by lia.
    assert (0 < 10 ^ Z.of_nat (length s))%Z by (apply Z.pow_pos_nonneg; lia).
    nia.
Qed.

(** The digits [digits_rev] gives, read back most significant first. *)
Lemma digits_rev_fold (fuel : nat) (n : N) :
  (Z.of_N n < 10 ^ Z.of_nat fuel)%Z ->
  decimal_fold 0 (rev (digits_rev fuel n)) = Some (Z.of_N n)
  /\ (forall c, In c (digits_rev fuel n) -> (48 <= c <= 57)%N).
Proof.
  revert n. induction fuel as [|k IH]; intros n Hn.
  - change (10 ^ Z.of_nat 0)%Z with 1%Z in Hn.
    assert (n = 0%N) as -> by lia. split; [reflexivity | intros c []].
  - cbn [digits_rev]. destruct (n <? 10)%N eqn:E.
    + apply N.ltb_lt in E. split.
      * cbn [rev app decimal_fold]. rewrite decimal_value_ascii by lia.
        f_equal. lia.
      * intros c [<- | []]. lia.
    + apply N.ltb_ge in E.
      rewrite Nat2Z.inj_succ, Z.pow_succ_r in Hn by lia.
      destruct (IH (n / 10)%N) as (Hf & Hd).
      { rewrite N2Z.inj_div. apply Z.div_lt_upper_bound; lia. }
      split.
      * cbn [rev]. rewrite (decimal_fold_snoc _ _ _ (n mod 10)%N).
        -- rewrite Hf. cbn [option_map]. f_equal.
           rewrite N2Z.inj_div, N2Z.inj_mod.
           change (Z.of_N 10) with 10%Z.
           pose proof (Z.div_mod (Z.of_N n) 10). lia.
        -- pose proof (N.mod_upper_bound n 10) as Hm.
           generalize dependent (n mod 10)%N. intros m Hm.
           rewrite decimal_value_ascii by lia.
           replace (48 + m - 48)%N with m by lia. reflexivity.
      * intros c [<- | Hc]; [|exact (Hd c Hc)].
        pose proof (N.mod_upper_bound n 10) as Hm.
        generalize dependent (n mod 10)%N. intros m Hm. lia.
Qed.

Lemma digits_rev_length (fuel : nat) (n : N) (k : nat) :
  (1 <= k)%nat -> (Z.of_N n < 10 ^ Z.of_nat k)%Z ->
  (length (digits_rev fuel n) <= k)%nat.
Proof.
  revert n k. induction fuel as [|f IH]; intros n k Hk Hn; cbn [digits_rev].
  - simpl. lia.
  - destruct (n <? 10)%N eqn:E; [simpl; lia|].
    apply N.ltb_ge in E. cbn [length].
    destruct k as [|[|k]]; [lia | |].
    + change (10 ^ Z.of_nat 1)%Z with 10%Z in Hn. lia.
    + apply le_n_S. apply IH; [lia|].
      rewrite Nat2Z.inj_succ, Z.pow_succ_r in Hn by lia.
      rewrite N2Z.inj_div. apply Z.div_lt_upper_bound; lia.
Qed.

Lemma digits_rev_nonempty (fuel : nat) (n : N) : digits_rev (S fuel) n <> [].
Proof. cbn [digits_rev]. destruct (n <? 10)%N; discriminate. Qed.

Lemma size_fuel (n : N) :
  (Z.of_N n < 10 ^ Z.of_nat (S (N.to_nat (N.size n))))%Z.
Proof.
  pose proof (N.size_gt n) as H. apply N2Z.inj_lt in H.
  rewrite N2Z.inj_pow in H. change (Z.of_N 2) with 2%Z in H.
  rewrite Nat2Z.inj_succ, Z.pow_succ_r by lia.
  rewrite N_nat_Z.
  assert (2 ^ Z.of_N (N.size n) <= 10 ^ Z.of_N (N.size n))%Z
    by (apply Z.pow_le_mono_l; lia).
  assert (0 < 10 ^ Z.of_N (N.size n))%Z by (apply Z.pow_pos_nonneg; lia).
  lia.
Qed.

(** The commas change nothing but commas. *)
Lemma commas_rev_spec (k : nat) (ds : list N) :
  (length ds <= k)%nat ->
  (forall c, In c ds -> (48 <= c <= 57)%N) ->
  List.filter isdigit (commas_rev ds) = ds
  /\ (forall c, In c (commas_rev ds) -> c = 44%N \/ In c ds).
Proof.
  revert ds. induction k as [|k IH]; intros ds Hlen Hds.
  - destruct ds; [split; [reflexivity | intros c []] | simpl in Hlen; lia].
  - assert (List.filter isdigit ds = ds) as Hfilter.
    { clear Hlen. induction ds as [|x ds IHds]; [reflexivity|]. cbn [List.filter].
      rewrite isdigit_ascii by (apply Hds; left; reflexivity).
      f_equal. apply IHds. intros c Hc. apply Hds. right. exact Hc. }
    destruct ds as [|a [|b [|c [|d r]]]]; try (split; [exact Hfilter | auto]).
    change (commas_rev (a :: b :: c :: d :: r))
      with (a :: b :: c :: 44%N :: commas_rev (d :: r)).
    destruct (IH (d :: r)) as (Hf & Hin).
    { cbn [length] in *. lia. }
    { intros x Hx. apply Hds. do 3 right. exact Hx. }
    split.
    + cbn [List.filter].
      rewrite !isdigit_ascii by (apply Hds; cbn [In]; auto).
      change (isdigit 44) with false. cbv iota. rewrite Hf. reflexivity.
    + intros x [<- | [<- | [<- | [<- | Hx]]]]; cbn [In]; auto.
      destruct (Hin x Hx) as [-> | Hx']; [left; reflexivity|].
      right. do 3 right. exact Hx'.
Qed.

Lemma filter_rev_comm (p : N -> bool) (l : list N) :
  List.filter p (rev l) = rev (List.filter p l).
Proof.
  induction l as [|x l IH]; [reflexivity|]. cbn [rev List.filter].
  rewrite List.filter_app, IH. cbn [List.filter].
  destruct (p x); cbn [rev]; [reflexivity | apply app_nil_r].
Qed.

Lemma strip_no_space (s : list N) :
  (forall c, In c s -> isspace c = false) -> strip s = s.
Proof.
  intros H.
  assert (forall t, (forall c, In c t -> isspace c = false) -> lstrip t = t) as Hl.
  { intros [|c t] Ht; [reflexivity|]. apply lstrip_nonspace, Ht. left. reflexivity. }
  unfold strip, rstrip. rewrite (Hl (rev s)).
  - rewrite rev_involutive. apply Hl, H.
  - intros c Hc. apply H. apply in_rev. exact Hc.
Qed.

Lemma isspace_ascii_digit (c : N) : (48 <= c <= 57)%N -> isspace c = false.
Proof.
  intros H.
  assert (c = 48 \/ c = 49 \/ c = 50 \/ c = 51 \/ c = 52 \/ c = 53 \/ c = 54
          \/ c = 55 \/ c = 56 \/ c = 57)%N as Hc by lia.
  repeat destruct Hc as [-> | Hc]; try subst c; reflexivity.
Qed.

(** What [format_commas] writes is read back as the same number. *)
Lemma format_commas_read_back (value : Z) :
  (0 <= value)%Z ->
  strip (format_commas value) = format_commas value
  /\ List.filter isdigit (format_commas value)
     = rev (digits_rev (S (N.to_nat (N.size (Z.to_N value)))) (Z.to_N value))
  /\ decimal_fold 0 (List.filter isdigit (format_commas value)) = Some value.
Proof.
  intros Hv. unfold format_commas. cbv zeta.
  set (n := Z.to_N value). set (fuel := S (N.to_nat (N.size n))).
  destruct (digits_rev_fold fuel n (size_fuel n)) as (Hfold & Hdigits).
  destruct (commas_rev_spec (length (digits_rev fuel n)) (digits_rev fuel n)
              (Nat.le_refl _) Hdigits) as (Hf & Hin).
  split; [|split].
  - apply strip_no_space. intros c Hc. apply in_rev in Hc.
    destruct (Hin c Hc) as [-> | Hd]; [reflexivity|].
    apply isspace_ascii_digit, Hdigits, Hd.
  - rewrite filter_rev_comm, Hf. reflexivity.
  - rewrite filter_rev_comm, Hf, Hfold. f_equal. subst n. lia.
Qed.

Lemma too_many_digits_shorter (limit : N) (s t : list N) :
  (length t <= length s)%nat ->
  too_many_digits limit s = false -> too_many_digits limit t = false.
Proof.
  unfold too_many_digits. cbv zeta. intros Hlen.
  destruct (N.ltb_spec 640 (N.of_nat (length s)));
    destruct (N.ltb_spec 0 limit);
    destruct (N.ltb_spec limit (N.of_nat (length s)));
    destruct (N.ltb_spec 640 (N.of_nat (length t)));
    destruct (N.ltb_spec limit (N.of_nat (length t)));
    cbn [andb]; intros Hs; try reflexivity; try discriminate; lia.
Qed.

Lemma set_payment_display_twice (f : Form) (a b : list N) :
  set_payment_display (set_payment_display f a) b = set_payment_display f b.
Proof. reflexivity. Qed.

(** A field that shows [format_commas value] is read as [value], by the
    focus-out handler and by [on_run] alike. *)
Lemma payment_of_formatted (env : Env) (f : Form) (value : Z) :
  (0 <= value)%Z ->
  payment_display f = format_commas value ->
  too_many_digits (int_max_str_digits env)
    (List.filter isdigit (format_commas value)) = false ->
  payment_of env f = Ok value
  /\ on_payment_focus_out env f = (None, set_payment_display f (format_commas value)).
Proof.
  intros Hv Hd Hlen.
  destruct (format_commas_read_back value Hv) as (Hstrip & Hdigits & Hfold).
  assert (List.filter isdigit (format_commas value) <> []) as Hne.
  { rewrite Hdigits. intros H. apply (f_equal (@rev N)) in H.
    rewrite rev_involutive in H. exact (digits_rev_nonempty _ _ H). }
  assert (format_commas value <> []) as Hne'.
  { intros H. rewrite H in Hne. apply Hne. reflexivity. }
  assert (int (int_max_str_digits env) (List.filter isdigit (format_commas value))
          = Some value) as Hint.
  { unfold int. destruct (List.filter isdigit (format_commas value)) eqn:E;
      [destruct Hne; reflexivity|].
    rewrite Hlen. exact Hfold. }
  apply truthy_true in Hne, Hne'.
  unfold payment_of, on_payment_focus_out. rewrite Hd, Hstrip, Hne', Hne, Hint.
  split; reflexivity.
Qed.

(** X5.  When the payment field is one that [on_run] reads, the
    focus-out handler reports no error and what it leaves in the field is
    read by [on_run] as the same amount: an empty field stays as it is,
    any other is rewritten as the amount with a comma after every third
    digit from the right.  A second focus-out changes nothing more. *)
Theorem payment_focus_out_keeps_amount (env : Env) (f : Form) (v : Z) :
  payment_of env f = Ok v ->
  fst (on_payment_focus_out env f) = None
  /\ payment_of env (snd (on_payment_focus_out env f)) = Ok v
  /\ on_payment_focus_out env (snd (on_payment_focus_out env f))
     = (None, snd (on_payment_focus_out env f))
  /\ (strip (payment_display f) = [] -> snd (on_payment_focus_out env f) = f)
  /\ (strip (payment_display f) <> [] ->
      payment_display (snd (on_payment_focus_out env f)) = format_commas v).
Proof.
  intros Hp.
  destruct (payment_of_cases env f) as [(He & _) | [(_ & _ & Hr) | (Hne & Hd & Hi)]].
  - assert (on_payment_focus_out env f = (None, f)) as Hout.
    { unfold on_payment_focus_out. rewrite He. reflexivity. }
    rewrite Hout. cbn [fst snd].
    repeat apply conj; auto. intros H. destruct (H He).
  - congruence.
  - rewrite Hp in Hi.
    destruct (int (int_max_str_digits env)
                (List.filter isdigit (strip (payment_display f)))) as [n|] eqn:Hint;
      [|discriminate].
    injection Hi as <-.
    assert (on_payment_focus_out env f
            = (None, set_payment_display f (format_commas v))) as Hout.
    { unfold on_payment_focus_out. apply truthy_true in Hne, Hd.
      rewrite Hne, Hd, Hint. reflexivity. }
    rewrite Hout. cbn [fst snd].
    pose proof (int_nonneg _ _ _ Hint) as Hv.
    assert (too_many_digits (int_max_str_digits env)
              (List.filter isdigit (format_commas v)) = false) as Hlen.
    { unfold int in Hint.
      destruct (List.filter isdigit (strip (payment_display f))) as [|c s] eqn:E;
        [discriminate|].
      destruct (too_many_digits (int_max_str_digits env) (c :: s)) eqn:Ht;
        [discriminate|].
      apply (too_many_digits_shorter _ (c :: s)); [|exact Ht].
      destruct (format_commas_read_back v Hv) as (_ & -> & _).
      rewrite length_rev. apply digits_rev_length; [cbn [length]; lia|].
      pose proof (decimal_fold_bound _ _ _ (Z.le_refl 0) Hint) as Hb.
      rewrite Z2N.id by exact Hv. lia. }
    destruct (payment_of_formatted env (set_payment_display f (format_commas v)) v
                Hv eq_refl Hlen) as (Hp' & Hout').
    split; [reflexivity | split; [exact Hp' | split; [|split]]].
    + rewrite Hout', set_payment_display_twice. reflexivity.
    + intros He. destruct (Hne He).
    + intros _. reflexivity.
Qed.

Lemma payment_focus_out_keeps_amount_witness :
  payment_of env_ok (snd (on_payment_focus_out env_ok form_kim)) = Ok 15000%Z
  /\ payment_display (snd (on_payment_focus_out env_ok form_kim)) = u "15,000".
Proof.
  destruct (payment_focus_out_keeps_amount env_ok form_kim 15000 eq_refl)
    as (_ & Hp & _ & _ & Hd).
  split; [exact Hp|]. rewrite Hd; [reflexivity | discriminate].
Defined.

(** X6.  The focus-out handler reports an error exactly for the fields
    on which [on_run] would not get an amount: the digits-only message
    when [on_run] would show the same message, the unreadable-payment
    message when [on_run] would fail in [int].  In both cases it empties
    the field, after which [on_run] records the amount 0. *)
Theorem payment_focus_out_error_clears (env : Env) (f : Form) (m : message) :
  fst (on_payment_focus_out env f) = Some m ->
  (m = PaymentDigitsOnly /\ payment_of env f = Return PaymentDigitsOnly
   \/ m = PaymentUnreadable /\ payment_of env f = Raise ValueError)
  /\ snd (on_payment_focus_out env f) = set_payment_display f []
  /\ payment_of env (snd (on_payment_focus_out env f)) = Ok 0%Z.
Proof.
  intros Hm.
  destruct (payment_of_cases env f) as [(He & _) | [(Hne & Hd & Hr) | (Hne & Hd & Hi)]].
  - unfold on_payment_focus_out in Hm. rewrite He in Hm. discriminate.
  - assert (on_payment_focus_out env f
            = (Some PaymentDigitsOnly, set_payment_display f [])) as Hout.
    { unfold on_payment_focus_out. apply truthy_true in Hne.
      rewrite Hne, Hd. reflexivity. }
    rewrite Hout in *. cbn [fst snd] in *. injection Hm as <-.
    split; [left; split; [reflexivity | exact Hr] | split; reflexivity].
  - unfold on_payment_focus_out in *. apply truthy_true in Hne, Hd.
    rewrite Hne, Hd in *. cbn [negb] in *.
    destruct (int (int_max_str_digits env) _) as [n|]; [discriminate|].
    cbn [fst snd] in *. injection Hm as <-.
    split; [right; split; [reflexivity | exact Hi] | split; reflexivity].
Qed.

Lemma payment_focus_out_error_clears_witness :
  payment_of env_ok (snd (on_payment_focus_out env_ok form_superscript_payment))
  = Ok 0%Z.
Proof.
  apply (payment_focus_out_error_clears env_ok form_superscript_payment
           PaymentUnreadable).
  reflexivity.
Defined.

(** ** Dropped files *)

Lemma char_in_false (ch : N) (s : list N) : char_in ch s = false <-> ~ In ch s.
Proof.
  rewrite <- char_in_spec. destruct (char_in ch s); split; intros H;
    try reflexivity; try discriminate; try congruence.
Qed.

Lemma dnd_item_okb_ok (items : list (list N * bool)) :
  forallb dnd_item_okb items = true -> Forall dnd_item_ok items.
Proof.
  intros H. apply Forall_forall. intros item Hin.
  rewrite forallb_forall in H. specialize (H item (proj1 (list_elem_of_In _ _) Hin)).
  unfold dnd_item_okb in H. rewrite !andb_true_iff, !negb_true_iff in H.
  destruct H as ((Hl & Hr) & Hb). apply char_in_false in Hl, Hr.
  split; [exact Hl | split; [exact Hr|]].
  apply orb_true_iff in Hb. destruct Hb as [Hb | Hb]; [left; exact Hb|].
  rewrite andb_true_iff, negb_true_iff in Hb. destruct Hb as (Ht & Hs).
  right. split; [apply truthy_true; exact Ht | apply char_in_false; exact Hs].
Qed.

Lemma split_dnd_loop_in_brace (p rest : list N) (result : list (list N))
    (current : list N) :
  ~ In lbrace p -> ~ In rbrace p ->
  split_dnd_loop (p ++ rest) result current true
  = split_dnd_loop rest result (current ++ p) true.
Proof.
  revert current. induction p as [|ch p IH]; intros current Hl Hr.
  - rewrite app_nil_r. reflexivity.
  - cbn [app split_dnd_loop].
    assert (N.eqb ch lbrace = false) as ->
      by (apply N.eqb_neq; intros ->; apply Hl; left; reflexivity).
    assert (N.eqb ch rbrace = false) as ->
      by (apply N.eqb_neq; intros ->; apply Hr; left; reflexivity).
    rewrite andb_false_r, IH.
    + rewrite <- app_assoc. reflexivity.
    + intros H. apply Hl. right. exact H.
    + intros H. apply Hr. right. exact H.
Qed.

Lemma split_dnd_loop_bare (p rest : list N) (result : list (list N))
    (current : list N) :
  ~ In lbrace p -> ~ In rbrace p -> ~ In space p ->
  split_dnd_loop (p ++ rest) result current false
  = split_dnd_loop rest result (current ++ p) false.
Proof.
  revert current. induction p as [|ch p IH]; intros current Hl Hr Hs.
  - rewrite app_nil_r. reflexivity.
  - cbn [app split_dnd_loop].
    assert (N.eqb ch lbrace = false) as ->
      by (apply N.eqb_neq; intros ->; apply Hl; left; reflexivity).
    assert (N.eqb ch rbrace = false) as ->
      by (apply N.eqb_neq; intros ->; apply Hr; left; reflexivity).
    assert (N.eqb ch space = false) as ->
      by (apply N.eqb_neq; intros ->; apply Hs; left; reflexivity).
    cbn [andb]. rewrite IH.
    + rewrite <- app_assoc. reflexivity.
    + intros H. apply Hl. right. exact H.
    + intros H. apply Hr. right. exact H.
    + intros H. apply Hs. right. exact H.
Qed.

(** Reading one well-formed item: a braced path goes to the result, a
    bare one is left in [current]. *)
Lemma split_dnd_loop_item (item : list N * bool) (rest : list N)
    (result : list (list N)) :
  dnd_item_ok item ->
  split_dnd_loop (dnd_item item ++ rest) result [] false
  = if snd item
    then split_dnd_loop rest (result ++ [fst item]) [] false
    else split_dnd_loop rest result (fst item) false.
Proof.
  destruct item as (p, b). unfold dnd_item_ok, dnd_item. cbn [fst snd].
  intros (Hl & Hr & Hb). destruct b.
  - cbn [app split_dnd_loop]. change (N.eqb lbrace lbrace) with true. cbv iota.
    rewrite <- app_assoc, split_dnd_loop_in_brace by assumption.
    cbn [app split_dnd_loop].
    change (N.eqb rbrace lbrace) with false.
    change (N.eqb rbrace rbrace) with true. reflexivity.
  - destruct Hb as [Hb | (_ & Hs)]; [discriminate|].
    apply split_dnd_loop_bare; assumption.
Qed.

Lemma split_dnd_format (items : list (list N * bool)) (result : list (list N)) :
  Forall dnd_item_ok items ->
  split_dnd_finish (split_dnd_loop (dnd_format items) result [] false)
  = result ++ List.map fst items.
Proof.
  intros Hok. revert result.
  induction Hok as [|item rest Hitem Hrest IH]; intros result.
  - cbn. rewrite app_nil_r. reflexivity.
  - assert (snd item = false -> truthy (fst item) = true) as Hbare.
    { intros Hb. destruct Hitem as (_ & _ & [H | (H & _)]); [congruence|].
      apply truthy_true. exact H. }
    cbn [dnd_format List.map]. destruct rest as [|item2 rest].
    + rewrite <- (app_nil_r (dnd_item item)), split_dnd_loop_item by exact Hitem.
      destruct (snd item) eqn:Hb; cbn [split_dnd_loop split_dnd_finish truthy].
      * reflexivity.
      * rewrite (Hbare eq_refl). reflexivity.
    + rewrite split_dnd_loop_item by exact Hitem.
      destruct (snd item) eqn:Hb; cbn [split_dnd_loop].
      * change (N.eqb space lbrace) with false.
        change (N.eqb space rbrace) with false.
        change (N.eqb space space) with true. cbn [andb negb truthy].
        rewrite IH, <- app_assoc. reflexivity.
      * change (N.eqb space lbrace) with false.
        change (N.eqb space rbrace) with false.
        change (N.eqb space space) with true. cbn [andb negb].
        rewrite (Hbare eq_refl), IH, <- app_assoc. reflexivity.
Qed.

(** X7.  [split_dnd_files] gives back the paths that were dropped: for
    paths without braces, written one after the other with a space
    between them, each in braces or, when it is not empty and holds no
    space, bare, the parts are exactly those paths in their order. *)
Theorem split_dnd_files_round_trip (items : list (list N * bool)) :
  Forall dnd_item_ok items ->
  split_dnd_files (dnd_format items) = List.map fst items.
Proof.
  intros Hok. unfold split_dnd_files. apply (split_dnd_format items [] Hok).
Qed.

Lemma split_dnd_files_round_trip_witness :
  dnd_format dnd_example = u "{C:\path with space\file.jpg} C:\path2\file2.jpg"
  /\ split_dnd_files (dnd_format dnd_example)
     = [u "C:\path with space\file.jpg"; u "C:\path2\file2.jpg"].
Proof.
  split; [reflexivity|].
  apply (split_dnd_files_round_trip dnd_example).
  apply dnd_item_okb_ok. reflexivity.
Defined.

Lemma split_dnd_loop_no_brace (data : list N) (result : list (list N))
    (current : list N) (in_brace : bool) :
  (forall p, In p result -> ~ In lbrace p /\ ~ In rbrace p) ->
  ~ In lbrace current /\ ~ In rbrace current ->
  forall p, In p (split_dnd_finish (split_dnd_loop data result current in_brace)) ->
            ~ In lbrace p /\ ~ In rbrace p.
Proof.
  revert result current in_brace.
  induction data as [|ch data IH]; intros result current in_brace Hres Hcur.
  - cbn [split_dnd_loop split_dnd_finish]. destruct (truthy current); [|exact Hres].
    intros p Hp. apply in_app_or in Hp. destruct Hp as [Hp | [<- | []]]; auto.
  - assert (forall p, In p (result ++ [current]) -> ~ In lbrace p /\ ~ In rbrace p)
      as Hres'.
    { intros p Hp. apply in_app_or in Hp. destruct Hp as [Hp | [<- | []]]; auto. }
    assert (~ In lbrace (@nil N) /\ ~ In rbrace (@nil N)) as Hnil
      by (split; intros []).
    cbn [split_dnd_loop].
    destruct (N.eqb ch lbrace) eqn:El; [apply IH; assumption|].
    destruct (N.eqb ch rbrace) eqn:Er; [apply IH; assumption|].
    destruct (N.eqb ch space && negb in_brace).
    + destruct (truthy current); apply IH; assumption.
    + apply IH; [exact Hres|]. apply N.eqb_neq in El, Er.
      destruct Hcur as (Hl & Hr). split; intros H; apply in_app_or in H;
        destruct H as [H | [H | []]]; auto.
Qed.

Lemma split_dnd_loop_spaces (data : list N) (result : list (list N))
    (current : list N) :
  ~ In lbrace data -> ~ In rbrace data ->
  (forall p, In p result -> p <> [] /\ ~ In space p) ->
  ~ In space current ->
  (forall p, In p (split_dnd_finish (split_dnd_loop data result current false)) ->
             p <> [] /\ ~ In space p)
  /\ concat (split_dnd_finish (split_dnd_loop data result current false))
     = concat result ++ current
         ++ List.filter (fun ch => negb (N.eqb ch space)) data.
Proof.
  revert result current.
  induction data as [|ch data IH]; intros result current Hl Hr Hres Hcur.
  - cbn [split_dnd_loop split_dnd_finish List.filter]. rewrite app_nil_r.
    destruct current as [|c current]; cbn [truthy].
    + split; [exact Hres | rewrite app_nil_r; reflexivity].
    + split.
      * intros p Hp. apply in_app_or in Hp.
        destruct Hp as [Hp | [<- | []]]; [auto | split; [discriminate | exact Hcur]].
      * rewrite concat_app. cbn [concat]. rewrite app_nil_r. reflexivity.
  - assert (N.eqb ch lbrace = false) as El
      by (apply N.eqb_neq; intros ->; apply Hl; left; reflexivity).
    assert (N.eqb ch rbrace = false) as Er
      by (apply N.eqb_neq; intros ->; apply Hr; left; reflexivity).
    assert (~ In lbrace data) as Hl' by (intros H; apply Hl; right; exact H).
    assert (~ In rbrace data) as Hr' by (intros H; apply Hr; right; exact H).
    cbn [split_dnd_loop List.filter]. rewrite El, Er.
    destruct (N.eqb ch space) eqn:Es; cbn [andb negb].
    + destruct current as [|c current]; cbn [truthy].
      * apply IH; assumption.
      * destruct (IH (result ++ [c :: current]) [] Hl' Hr') as (H1 & H2).
        { intros p Hp. apply in_app_or in Hp.
          destruct Hp as [Hp | [<- | []]]; [auto | split; [discriminate | exact Hcur]]. }
        { intros []. }
        split; [exact H1|]. rewrite H2, concat_app. cbn [concat app].
        rewrite app_nil_r, <- app_assoc. reflexivity.
    + destruct (IH result (current ++ [ch]) Hl' Hr' Hres) as (H1 & H2).
      { apply N.eqb_neq in Es. intros H. apply in_app_or in H.
        destruct H as [H | [H | []]]; auto. }
      split; [exact H1|]. rewrite H2, <- !app_assoc. reflexivity.
Qed.

(** X8.  No part that [split_dnd_files] returns holds a brace.  On
    data without braces it splits at the spaces: no part is empty or
    holds a space, however many spaces lie between the parts, and the
    parts put together are the data without its spaces. *)
Theorem split_dnd_files_parts (data : list N) :
  (forall p, In p (split_dnd_files data) -> ~ In lbrace p /\ ~ In rbrace p)
  /\ (~ In lbrace data -> ~ In rbrace data ->
      (forall p, In p (split_dnd_files data) -> p <> [] /\ ~ In space p)
      /\ concat (split_dnd_files data)
         = List.filter (fun ch => negb (N.eqb ch space)) data).
Proof.
  split.
  - apply split_dnd_loop_no_brace; [intros p [] | split; intros []].
  - intros Hl Hr.
    apply (split_dnd_loop_spaces data [] [] Hl Hr); [intros p [] | intros []].
Qed.

Lemma split_dnd_files_parts_witness :
  split_dnd_files (u " a.jpg   b.png ") = [u "a.jpg"; u "b.png"]
  /\ concat (split_dnd_files (u " a.jpg   b.png ")) = u "a.jpgb.png".
Proof.
  split; [reflexivity|].
  destruct (split_dnd_files_parts (u " a.jpg   b.png ")) as (_ & H).
  destruct H as (_ & Hc).
  - apply char_in_false. reflexivity.
  - apply char_in_false. reflexivity.
  - rewrite Hc. reflexivity.
Defined.

(** ** [on_photo_drop] and [set_photo] *)

Lemma lstrip_chars_all (chars a b : list N) :
  (forall c, In c a -> char_in c chars = true) ->
  lstrip_chars chars (a ++ b) = lstrip_chars chars b.
Proof.
  induction a as [|x a IH]; intros H; [reflexivity|].
  cbn [app lstrip_chars]. rewrite (H x (or_introl eq_refl)).
  apply IH. intros c Hc. apply H. right. exact Hc.
Qed.

Lemma lstrip_chars_fixed_app (chars s t : list N) :
  lstrip_chars chars s = s -> s <> [] ->
  lstrip_chars chars (s ++ t) = s ++ t.
Proof.
  destruct s as [|c s]; [congruence|]. intros H _.
  cbn [app lstrip_chars] in *. destruct (char_in c chars); [|reflexivity].
  exfalso. assert (length (lstrip_chars chars s) <= length s)%nat as Hlen.
  { clear H. induction s as [|x s IH]; cbn [lstrip_chars]; [lia|].
    destruct (char_in x chars); cbn [length]; lia. }
  rewrite H in Hlen. cbn [length] in Hlen. lia.
Qed.

(** Stripping gives back a text that was wrapped in strippable
    characters, when the text itself starts and ends with none. *)
Lemma strip_chars_wrapped (chars x body y : list N) :
  (forall c, In c x -> char_in c chars = true) ->
  (forall c, In c y -> char_in c chars = true) ->
  lstrip_chars chars body = body ->
  lstrip_chars chars (rev body) = rev body ->
  strip_chars chars (x ++ body ++ y) = body.
Proof.
  intros Hx Hy Hb Hrb. unfold strip_chars, rstrip_chars.
  rewrite !rev_app_distr, <- app_assoc.
  rewrite lstrip_chars_all by (intros c Hc; apply Hy, in_rev; exact Hc).
  destruct body as [|b body].
  - cbn [rev app].
    assert (lstrip_chars chars (rev x) = []) as ->.
    { rewrite <- (app_nil_r (rev x)), lstrip_chars_all; [reflexivity|].
      intros c Hc. apply Hx, in_rev. exact Hc. }
    reflexivity.
  - rewrite lstrip_chars_fixed_app.
    + rewrite rev_app_distr, !rev_involutive, lstrip_chars_all by exact Hx.
      exact Hb.
    + exact Hrb.
    + intros H. apply (f_equal (@length N)) in H.
      rewrite length_rev in H. discriminate.
Qed.

Lemma lstrip_chars_free (chars s : list N) :
  (forall c, In c s -> char_in c chars = false) -> lstrip_chars chars s = s.
Proof.
  destruct s as [|c s]; intros H; [reflexivity|].
  cbn [lstrip_chars]. rewrite (H c (or_introl eq_refl)). reflexivity.
Qed.

Lemma brace_free (p : list N) :
  ~ In lbrace p -> ~ In rbrace p ->
  forall c, In c p -> char_in c (u "{}") = false.
Proof.
  intros Hl Hr c Hc. apply char_in_false. change (u "{}") with [lbrace; rbrace].
  intros [<- | [<- | []]]; auto.
Qed.

Lemma strip_braces_item (item : list N * bool) :
  dnd_item_ok item -> strip_chars (u "{}") (dnd_item item) = fst item.
Proof.
  destruct item as (p, b). intros (Hl & Hr & _). cbn [fst snd] in *.
  pose proof (brace_free p Hl Hr) as Hfree.
  assert (lstrip_chars (u "{}") p = p) as H1 by (apply lstrip_chars_free, Hfree).
  assert (lstrip_chars (u "{}") (rev p) = rev p) as H2.
  { apply lstrip_chars_free. intros c Hc. apply Hfree, in_rev. exact Hc. }
  unfold dnd_item. cbn [fst snd]. destruct b.
  - apply (strip_chars_wrapped (u "{}") [lbrace] p [rbrace]); auto;
      intros c [<- | []]; reflexivity.
  - pose proof (strip_chars_wrapped (u "{}") [] p []) as H.
    cbn [app] in H. rewrite app_nil_r in H. apply H; auto; intros c [].
Qed.

Lemma dnd_format_cons (item item2 : list N * bool) (rest : list (list N * bool)) :
  dnd_format (item :: item2 :: rest)
  = dnd_item item ++ space :: dnd_format (item2 :: rest).
Proof. reflexivity. Qed.

(** X9.  When one file is dropped, bare or in braces, [on_photo_drop]
    hands its path to [set_photo].  When several files are dropped, it
    hands over the path of the first, unless the data both starts and
    ends with a brace; in particular whenever the first path is bare. *)
Theorem on_photo_drop_first
    (env : Env) (isfile : list N -> bool) (which : list N) (f : Form)
    (item : list N * bool) (rest : list (list N * bool)) :
  Forall dnd_item_ok (item :: rest) ->
  rest = [] \/ snd item = false
  \/ startswith_char lbrace (dnd_format (item :: rest))
     && endswith_char rbrace (dnd_format (item :: rest)) = false ->
  (exists more, drop_parts (dnd_format (item :: rest)) = fst item :: more)
  /\ on_photo_drop env isfile (dnd_format (item :: rest)) which f
     = set_photo env isfile which (fst item) f.
Proof.
  intros Hok Hcase.
  assert (exists more, drop_parts (dnd_format (item :: rest)) = fst item :: more)
    as (more & Hparts).
  { pose proof (Forall_inv Hok) as Hitem.
    destruct rest as [|item2 rest].
    - exists []. cbn [dnd_format]. unfold drop_parts.
      destruct (char_in space (dnd_item item)
                && negb (startswith_char lbrace (dnd_item item)
                         && endswith_char rbrace (dnd_item item))) eqn:E.
      + change (dnd_item item) with (dnd_format [item]).
        rewrite split_dnd_files_round_trip by exact Hok. reflexivity.
      + rewrite strip_braces_item by exact Hitem. reflexivity.
    - exists (List.map fst (item2 :: rest)).
      assert (startswith_char lbrace (dnd_format (item :: item2 :: rest))
              && endswith_char rbrace (dnd_format (item :: item2 :: rest)) = false)
        as Hends.
      { destruct Hcase as [H | [H | H]]; [discriminate | | exact H].
        rewrite dnd_format_cons. destruct item as (p, b). cbn [snd] in H. subst b.
        destruct Hitem as (Hl & _ & [Hb | (Hne & _)]); [discriminate|].
        cbn [fst snd] in *. unfold dnd_item. cbn [fst snd].
        destruct p as [|c p]; [congruence|]. cbn [app startswith_char].
        assert (N.eqb c lbrace = false) as ->; [|reflexivity].
        apply N.eqb_neq. intros ->. apply Hl. left. reflexivity. }
      unfold drop_parts. rewrite Hends.
      assert (char_in space (dnd_format (item :: item2 :: rest)) = true) as ->.
      { apply char_in_spec. rewrite dnd_format_cons.
        apply in_or_app. right. left. reflexivity. }
      cbn [andb negb]. rewrite split_dnd_files_round_trip by exact Hok.
      reflexivity. }
  split; [exists more; exact Hparts|].
  unfold on_photo_drop. rewrite Hparts. reflexivity.
Qed.

Lemma on_photo_drop_first_witness :
  on_photo_drop env_ok (fun _ => true)
    (dnd_format [(u "C:\path with space\file.jpg", true);
                 (u "C:\path2\file2.jpg", false)])
    (u "before") form_kim
  = set_photo env_ok (fun _ => true) (u "before")
      (fst (u "C:\path with space\file.jpg", true)) form_kim.
Proof.
  refine (proj2 (on_photo_drop_first env_ok (fun _ => true) (u "before") form_kim
                   (u "C:\path with space\file.jpg", true)
                   [(u "C:\path2\file2.jpg", false)] _ _)).
  - apply dnd_item_okb_ok. reflexivity.
  - right. right. reflexivity.
Defined.

(** X10.  When two files are dropped and both paths are in braces, the
    data starts and ends with a brace, so [on_photo_drop] takes it for a
    single path and only strips the outer braces: [set_photo] is handed
    the two paths run together with the inner braces and the space, not
    the first path. *)
Theorem on_photo_drop_two_braced
    (env : Env) (isfile : list N -> bool) (which : list N) (f : Form)
    (p q : list N) :
  p <> [] -> q <> [] ->
  ~ In lbrace p -> ~ In rbrace p -> ~ In lbrace q -> ~ In rbrace q ->
  dnd_format [(p, true); (q, true)] = lbrace :: (p ++ u "} {" ++ q) ++ [rbrace]
  /\ drop_parts (dnd_format [(p, true); (q, true)]) = [p ++ u "} {" ++ q]
  /\ on_photo_drop env isfile (dnd_format [(p, true); (q, true)]) which f
     = set_photo env isfile which (p ++ u "} {" ++ q) f
  /\ p ++ u "} {" ++ q <> p.
Proof.
  intros Hp Hq Hlp Hrp Hlq Hrq.
  assert (dnd_format [(p, true); (q, true)]
          = lbrace :: (p ++ u "} {" ++ q) ++ [rbrace]) as Hdata.
  { cbn [dnd_format dnd_item fst snd]. change (u "} {") with [rbrace; space; lbrace].
    cbn [app]. rewrite <- !app_assoc. reflexivity. }
  assert (drop_parts (dnd_format [(p, true); (q, true)]) = [p ++ u "} {" ++ q])
    as Hparts.
  { rewrite Hdata. unfold drop_parts.
    assert (endswith_char rbrace (lbrace :: (p ++ u "} {" ++ q) ++ [rbrace]) = true)
      as Hend.
    { unfold endswith_char. change (lbrace :: (p ++ u "} {" ++ q) ++ [rbrace])
        with ((lbrace :: (p ++ u "} {" ++ q)) ++ [rbrace]).
      rewrite rev_app_distr. reflexivity. }
    rewrite Hend. cbn [startswith_char]. change (N.eqb lbrace lbrace) with true.
    cbn [andb negb]. rewrite andb_false_r. f_equal.
    apply (strip_chars_wrapped (u "{}") [lbrace] (p ++ u "} {" ++ q) [rbrace]).
    - intros c [<- | []]. reflexivity.
    - intros c [<- | []]. reflexivity.
    - apply lstrip_chars_fixed_app; [|exact Hp].
      apply lstrip_chars_free, brace_free; assumption.
    - rewrite !rev_app_distr, <- app_assoc.
      apply lstrip_chars_fixed_app.
      + apply lstrip_chars_free. intros c Hc. apply in_rev in Hc.
        revert c Hc. apply brace_free; assumption.
      + intros H. apply (f_equal (@length N)) in H. rewrite length_rev in H.
        destruct q; [congruence | discriminate]. }
  split; [exact Hdata | split; [exact Hparts | split]].
  - unfold on_photo_drop. rewrite Hparts. reflexivity.
  - intros H. apply (f_equal (@length N)) in H. rewrite !length_app in H.
    change (length (u "} {")) with 3%nat in H. lia.
Qed.

Lemma on_photo_drop_two_braced_witness :
  drop_parts (u "{a b.jpg} {c d.jpg}") = [u "a b.jpg} {c d.jpg"].
Proof.
  apply (on_photo_drop_two_braced env_ok (fun _ => true) (u "before") form_kim
           (u "a b.jpg") (u "c d.jpg"));
    try discriminate; apply char_in_false; reflexivity.
Defined.

Lemma on_run_form (env : Env) (f : Form) (w : World) :
  snd (fst (on_run env f w)) = f \/ snd (fst (on_run env f w)) = reset_inputs f.
Proof.
  unfold on_run. destruct (validate env f) as [v|m|e]; [|left; reflexivity..].
  unfold store. destruct (makedirs _ _ _ _) as [(e, w0)|w1]; [left; reflexivity|].
  destruct (_ || _); [left; reflexivity|].
  destruct (save_image_copy _ (v_before v) _ _) as [(e, w0)|w2]; [left; reflexivity|].
  destruct (save_image_copy _ (v_after v) _ _) as [(e, w0)|w3]; [left; reflexivity|].
  destruct (append_excel_row _ _ _ _) as [(e, w4)|w4];
    [left | right]; reflexivity.
Qed.

(** X11.  The photo paths of the form always carry an accepted
    extension.  [set_photo] changes the form only when the path is a
    file, its lower-cased extension is .jpg, .jpeg or .png and the image
    can be opened, and then it stores the path in the slot it was asked
    for and nothing else; so a form whose photo paths are empty or
    accepted stays such under [set_photo], [on_photo_drop],
    [on_photo_click], [reset_inputs] and [on_run], and the initial form
    is such a form. *)
Theorem set_photo_keeps_photos_accepted
    (env : Env) (isfile : list N -> bool) (which path : list N) (f : Form) :
  photos_accepted env f ->
  (fst (set_photo env isfile which path f) <> None ->
     snd (set_photo env isfile which path f) = f)
  /\ (fst (set_photo env isfile which path f) = None ->
        isfile path = true /\ photo_ext_accepted env path = true
        /\ image_open env path <> None
        /\ snd (set_photo env isfile which path f)
           = if str_eqb which (u "before")
             then set_before_path f path else set_after_path f path)
  /\ photos_accepted env (snd (set_photo env isfile which path f))
  /\ (forall data, photos_accepted env (snd (on_photo_drop env isfile data which f)))
  /\ (forall chosen,
        photos_accepted env (snd (on_photo_click env isfile chosen which f)))
  /\ photos_accepted env (reset_inputs f)
  /\ photos_accepted env (initial_form (breeds f))
  /\ (forall env' w, photos_accepted env (snd (fst (on_run env' f w)))).
Proof.
  intros Hinv.
  assert (forall p, photos_accepted env (snd (set_photo env isfile which p f)))
    as Hset.
  { intros p. unfold set_photo.
    destruct (isfile p); cbn [negb]; [|exact Hinv].
    destruct (photo_ext_accepted env p) eqn:Hext; cbn [negb]; [|exact Hinv].
    destruct (image_open env p); [|exact Hinv].
    destruct Hinv as (Hb & Ha).
    destruct (str_eqb which (u "before")); cbn [snd];
      (split; [try (right; exact Hext); exact Hb | try (right; exact Hext); exact Ha]). }
  assert (photos_accepted env (reset_inputs f)) as Hreset
    by (split; left; reflexivity).
  split; [|split; [|split; [|split; [|split; [|split; [|split]]]]]].
  - unfold set_photo. destruct (isfile path); cbn [negb]; [|reflexivity].
    destruct (photo_ext_accepted env path); cbn [negb]; [|reflexivity].
    destruct (image_open env path); [|reflexivity].
    destruct (str_eqb which (u "before")); cbn [fst]; congruence.
  - unfold set_photo. destruct (isfile path); cbn [negb]; [|discriminate].
    destruct (photo_ext_accepted env path); cbn [negb]; [|discriminate].
    destruct (image_open env path); [|discriminate].
    intros _. repeat split; try discriminate.
    destruct (str_eqb which (u "before")); reflexivity.
  - apply Hset.
  - intros data. unfold on_photo_drop.
    destruct (drop_parts data); [exact Hinv | apply Hset].
  - intros chosen. unfold on_photo_click.
    destruct (truthy chosen); [apply Hset | exact Hinv].
  - exact Hreset.
  - split; left; reflexivity.
  - intros env' w. destruct (on_run_form env' f w) as [-> | ->]; assumption.
Qed.

Lemma set_photo_keeps_photos_accepted_witness :
  photos_accepted env_ok
    (snd (set_photo env_ok (fun _ => true) (u "after") (u "/photos/c.PNG") form_kim))
  /\ snd (set_photo env_ok (fun _ => true) (u "after") (u "/photos/c.txt") form_kim)
     = form_kim.
Proof.
  assert (photos_accepted env_ok form_kim) as H
    by (split; right; reflexivity).
  split.
  - exact (proj1 (proj2 (proj2 (set_photo_keeps_photos_accepted env_ok
             (fun _ => true) (u "after") (u "/photos/c.PNG") form_kim H)))).
  - apply (proj1 (set_photo_keeps_photos_accepted env_ok
             (fun _ => true) (u "after") (u "/photos/c.txt") form_kim H)).
    discriminate.
Defined.

(** ** Paths *)

Lemma rfind_from_app (c : N) (a b : list N) (i last : Z) :
  os_path.rfind_from c (a ++ b) i last
  = os_path.rfind_from c b (i + Z.of_nat (length a)) (os_path.rfind_from c a i last).
Proof.
  revert i last. induction a as [|x a IH]; intros i last.
  - cbn [app length os_path.rfind_from]. f_equal. lia.
  - cbn [app length os_path.rfind_from]. rewrite IH. f_equal. lia.
Qed.

Lemma rfind_from_notin (c : N) (s : list N) (i last : Z) :
  ~ In c s -> os_path.rfind_from c s i last = last.
Proof.
  revert i last. induction s as [|x s IH]; intros i last H; [reflexivity|].
  cbn [os_path.rfind_from].
  assert (N.eqb x c = false) as ->
    by (apply N.eqb_neq; intros ->; apply H; left; reflexivity).
  apply IH. intros Hc. apply H. right. exact Hc.
Qed.

Lemma rfind_from_bound (c : N) (s : list N) (i last : Z) :
  (last < i)%Z ->
  (last <= os_path.rfind_from c s i last < i + Z.of_nat (length s))%Z.
Proof.
  revert i last. induction s as [|x s IH]; intros i last H.
  - cbn [os_path.rfind_from length]. lia.
  - cbn [os_path.rfind_from length]. destruct (N.eqb x c).
    + specialize (IH (i + 1)%Z i). lia.
    + specialize (IH (i + 1)%Z last). lia.
Qed.

Lemma rfind_last (c : N) (a b : list N) :
  ~ In c b -> os_path.rfind c (a ++ c :: b) = Z.of_nat (length a).
Proof.
  intros H. unfold os_path.rfind. rewrite rfind_from_app.
  cbn [os_path.rfind_from]. rewrite N.eqb_refl.
  rewrite rfind_from_notin by exact H. lia.
Qed.

Lemma rfind_app_notin (c : N) (a b : list N) :
  ~ In c b -> os_path.rfind c (a ++ b) = os_path.rfind c a.
Proof.
  intros H. unfold os_path.rfind. rewrite rfind_from_app.
  apply rfind_from_notin. exact H.
Qed.

(** The base name of a path that ends in a component without separator
    is that component. *)
Lemma basename_component (y z : list N) :
  ~ In os_path.sep z -> (y = [] \/ exists y', y = y' ++ [os_path.sep]) ->
  os_path.basename (y ++ z) = z.
Proof.
  intros Hz [-> | (y' & ->)]; unfold os_path.basename, os_path.slice_from.
  - cbn [app]. unfold os_path.rfind. rewrite rfind_from_notin by exact Hz.
    reflexivity.
  - rewrite <- app_assoc. cbn [app]. rewrite rfind_last by exact Hz.
    replace (Z.to_nat (Z.of_nat (length y') + 1)) with (length (y' ++ [os_path.sep])).
    + change (y' ++ os_path.sep :: z) with (y' ++ [os_path.sep] ++ z).
      rewrite app_assoc. apply drop_app_length.
    + rewrite length_app. cbn [length]. lia.
Qed.

Lemma endswith_sep_inv (a : list N) :
  os_path.endswith_sep a = true -> exists a', a = a' ++ [os_path.sep].
Proof.
  unfold os_path.endswith_sep. destruct (rev a) as [|c t] eqn:E; [discriminate|].
  intros H. apply N.eqb_eq in H. subst c. exists (rev t).
  rewrite <- (rev_involutive a), E. reflexivity.
Qed.

(** [join] puts the second path after the first, with a separator when
    one is needed, when the second does not start with a separator. *)
Lemma join_relative (a b : list N) :
  os_path.startswith_sep b = false ->
  exists y, os_path.join a b = y ++ b
            /\ (y = [] \/ exists y', y = y' ++ [os_path.sep])
            /\ (y = a \/ y = a ++ [os_path.sep]).
Proof.
  intros Hb. unfold os_path.join. rewrite Hb.
  destruct a as [|c a]; cbn [truthy negb orb].
  - exists []. split; [reflexivity | split; left; reflexivity].
  - destruct (os_path.endswith_sep (c :: a)) eqn:E.
    + exists (c :: a). split; [reflexivity|].
      split; [right; apply endswith_sep_inv; exact E | left; reflexivity].
    + exists ((c :: a) ++ [os_path.sep]). split; [|split].
      * rewrite <- app_assoc. reflexivity.
      * right. exists (c :: a). reflexivity.
      * right. reflexivity.
Qed.

(** The extension of a path whose last component is a stem with a
    character other than a dot, a dot, and letters without dot. *)
Lemma splitext_stem (y stem e : list N) :
  ~ In os_path.sep stem -> ~ In os_path.sep e -> ~ In os_path.extsep e ->
  (exists c, In c stem /\ c <> os_path.extsep) ->
  os_path.splitext (y ++ stem ++ os_path.extsep :: e)
  = (y ++ stem, os_path.extsep :: e).
Proof.
  intros Hstem He Hdot (c & Hc & Hne).
  assert (os_path.sep <> os_path.extsep) as Hsd by discriminate.
  assert (os_path.rfind os_path.sep (y ++ stem ++ os_path.extsep :: e)
          = os_path.rfind os_path.sep y) as Hsep.
  { apply rfind_app_notin. intros H. apply in_app_or in H.
    destruct H as [H | [H | H]]; auto. }
  assert (os_path.rfind os_path.extsep (y ++ stem ++ os_path.extsep :: e)
          = Z.of_nat (length (y ++ stem))) as Hd.
  { rewrite app_assoc. apply rfind_last. exact Hdot. }
  pose proof (rfind_from_bound os_path.sep y 0 (-1) ltac:(lia)) as Hb.
  fold (os_path.rfind os_path.sep y) in Hb.
  unfold os_path.splitext. cbv zeta. rewrite Hsep, Hd.
  set (k := os_path.rfind os_path.sep y) in *.
  assert ((k <? Z.of_nat (length (y ++ stem)))%Z = true) as ->.
  { apply Z.ltb_lt. rewrite length_app. lia. }
  assert (existsb (fun c => negb (N.eqb c os_path.extsep))
            (os_path.slice_to
               (os_path.slice_from (y ++ stem ++ os_path.extsep :: e) (k + 1))
               (Z.of_nat (length (y ++ stem)) - (k + 1))) = true) as ->.
  { apply existsb_exists. exists c. split; [|apply negb_true_iff, N.eqb_neq; exact Hne].
    unfold os_path.slice_to, os_path.slice_from.
    assert (Z.to_nat (k + 1) <= length y)%nat as Hk by lia.
    rewrite drop_app_le by exact Hk.
    replace (Z.to_nat (Z.of_nat (length (y ++ stem)) - (k + 1)))
      with (length (drop (Z.to_nat (k + 1)) y) + length stem)%nat
      by (rewrite length_drop, length_app; lia).
    rewrite take_app_add', take_app_length by reflexivity.
    apply in_or_app. right. exact Hc. }
  cbn [andb]. unfold os_path.slice_to, os_path.slice_from.
  rewrite Nat2Z.id. rewrite (app_assoc y stem).
  rewrite take_app_length, drop_app_length. reflexivity.
Qed.

Lemma join_relative_eq (a b : list N) :
  os_path.startswith_sep b = false ->
  os_path.join a b
  = (if negb (truthy a) || os_path.endswith_sep a then a else a ++ [os_path.sep]) ++ b.
Proof.
  intros Hb. unfold os_path.join. rewrite Hb.
  destruct (negb (truthy a) || os_path.endswith_sep a); [reflexivity|].
  rewrite <- app_assoc. reflexivity.
Qed.

Lemma startswith_sep_false (s : list N) :
  s <> [] -> ~ In os_path.sep s -> os_path.startswith_sep s = false.
Proof.
  destruct s as [|c s]; [congruence|]. intros _ H. cbn [os_path.startswith_sep].
  apply N.eqb_neq. intros ->. apply H. left. reflexivity.
Qed.

Lemma accepted_ext (env : Env) (path : list N) :
  photo_ext_accepted env path = true ->
  exists e, ext_of env path = os_path.extsep :: e
            /\ ~ In os_path.sep e /\ ~ In os_path.extsep e
            /\ (length e <= 4)%nat
            /\ forall ch, In ch invalid -> ~ In ch (ext_of env path).
Proof.
  unfold photo_ext_accepted, str_in. cbn [existsb].
  rewrite !orb_true_iff, !str_eqb_eq.
  intros [-> | [-> | [-> | H]]]; [| | | discriminate].
  - exists (u "jpg"). repeat split; try (apply char_in_false; reflexivity).
    + apply Nat.leb_le. reflexivity.
    + intros ch. apply valid_chars. reflexivity.
  - exists (u "jpeg"). repeat split; try (apply char_in_false; reflexivity).
    + apply Nat.leb_le. reflexivity.
    + intros ch. apply valid_chars. reflexivity.
  - exists (u "png"). repeat split; try (apply char_in_false; reflexivity).
    + apply Nat.leb_le. reflexivity.
    + intros ch. apply valid_chars. reflexivity.
Qed.

(** A file name of [on_run] under a folder: what [basename] and
    [splitext] find in the joined path. *)
Lemma stored_name (folder pre suffix e : list N) :
  ~ In os_path.sep pre -> ~ In os_path.sep suffix -> In space suffix ->
  ~ In os_path.sep e -> ~ In os_path.extsep e ->
  os_path.basename (os_path.join folder (pre ++ suffix ++ os_path.extsep :: e))
  = pre ++ suffix ++ os_path.extsep :: e
  /\ snd (os_path.splitext
            (os_path.join folder (pre ++ suffix ++ os_path.extsep :: e)))
     = os_path.extsep :: e
  /\ os_path.join folder (pre ++ suffix ++ os_path.extsep :: e)
     = (if negb (truthy folder) || os_path.endswith_sep folder
        then folder else folder ++ [os_path.sep])
         ++ pre ++ suffix ++ os_path.extsep :: e.
Proof.
  intros Hpre Hsuf Hsp He Hdot.
  assert (~ In os_path.sep (pre ++ suffix ++ os_path.extsep :: e)) as Hname.
  { intros H. apply in_app_or in H. destruct H as [H | H]; [auto|].
    apply in_app_or in H. destruct H as [H | [H | H]]; auto. discriminate. }
  assert (pre ++ suffix ++ os_path.extsep :: e <> []) as Hne.
  { intros H. apply (f_equal (@length N)) in H. rewrite !length_app in H.
    cbn [length] in H. lia. }
  pose proof (join_relative_eq folder _ (startswith_sep_false _ Hne Hname)) as Hjoin.
  rewrite Hjoin.
  set (y := if negb (truthy folder) || os_path.endswith_sep folder
            then folder else folder ++ [os_path.sep]).
  assert (y = [] \/ exists y', y = y' ++ [os_path.sep]) as Hy.
  { subst y. destruct folder as [|c folder]; [left; reflexivity|].
    cbn [truthy negb orb]. destruct (os_path.endswith_sep (c :: folder)) eqn:E.
    - right. apply endswith_sep_inv. exact E.
    - right. exists (c :: folder). reflexivity. }
  split; [apply basename_component; assumption|].
  split; [|reflexivity].
  rewrite (app_assoc pre suffix), splitext_stem; [reflexivity | | assumption..|].
  - intros H. apply in_app_or in H. destruct H; auto.
  - exists space. split; [apply in_or_app; right; exact Hsp | discriminate].
Qed.

Lemma prefix_no_sep (env : Env) (v : Validated) : ~ In os_path.sep (prefix env v).
Proof.
  apply sanitize_for_path_valid. apply char_in_spec. reflexivity.
Qed.

Lemma name_relative (env : Env) (v : Validated) (suffix ext : list N) :
  suffix <> [] -> ~ In os_path.sep suffix ->
  os_path.startswith_sep (prefix env v ++ suffix ++ ext) = false.
Proof.
  intros Hne Hs. pose proof (prefix_no_sep env v) as Hp.
  destruct (prefix env v) as [|c pre]; cbn [app os_path.startswith_sep].
  - destruct suffix as [|c suffix]; [congruence|]. cbn [app].
    apply N.eqb_neq. intros ->. apply Hs. left. reflexivity.
  - apply N.eqb_neq. intros ->. apply Hp. left. reflexivity.
Qed.

(** The two photos of a submission never get the same path. *)
Lemma dest_before_after_differ (env : Env) (v : Validated) :
  dest_before env v <> dest_after env v.
Proof.
  unfold dest_before, dest_after, name_before, name_after.
  rewrite !join_relative_eq
    by (apply name_relative; [discriminate | apply char_in_false; reflexivity]).
  intros Heq. apply app_inv_head in Heq. apply app_inv_head in Heq.
  apply (f_equal (fun l => nth_error l 5)) in Heq.
  change (u " - 미용전") with [32; 45; 32; 48120; 50857; 51204]%N in Heq.
  change (u " - 미용후") with [32; 45; 32; 48120; 50857; 54980]%N in Heq.
  cbn [app nth_error] in Heq. discriminate.
Qed.

(** For accepted photos: the base names and the extensions of the two
    stored paths. *)
Lemma dest_paths (env : Env) (v : Validated) :
  photo_ext_accepted env (v_before v) = true ->
  photo_ext_accepted env (v_after v) = true ->
  os_path.basename (dest_before env v) = name_before env v
  /\ os_path.basename (dest_after env v) = name_after env v
  /\ snd (os_path.splitext (dest_before env v)) = ext_of env (v_before v)
  /\ snd (os_path.splitext (dest_after env v)) = ext_of env (v_after v).
Proof.
  intros Hb Ha.
  destruct (accepted_ext env _ Hb) as (e1 & He1 & Hs1 & Hd1 & _ & _).
  destruct (accepted_ext env _ Ha) as (e2 & He2 & Hs2 & Hd2 & _ & _).
  assert (~ In os_path.sep (u " - 미용전")) as Hsb by (apply char_in_false; reflexivity).
  assert (~ In os_path.sep (u " - 미용후")) as Hsa by (apply char_in_false; reflexivity).
  assert (In space (u " - 미용전")) as Hpb by (apply char_in_spec; reflexivity).
  assert (In space (u " - 미용후")) as Hpa by (apply char_in_spec; reflexivity).
  destruct (stored_name (dest_folder env v) (prefix env v) (u " - 미용전") e1
              (prefix_no_sep env v) Hsb Hpb Hs1 Hd1) as (B1 & B2 & _).
  destruct (stored_name (dest_folder env v) (prefix env v) (u " - 미용후") e2
              (prefix_no_sep env v) Hsa Hpa Hs2 Hd2) as (A1 & A2 & _).
  unfold dest_before, dest_after, name_before, name_after. rewrite He1, He2.
  split; [exact B1 | split; [exact A1 | split; [exact B2 | exact A2]]].
Qed.

(** X12.  For photos that [set_photo] accepted, the two stored files
    get different paths; the base
    name of each path is the file name [on_run] built, which is what the
    last two cells of the log row hold; the extension [splitext] finds in
    the stored path is the lower-cased extension of the source photo;
    and the file names hold none of the forbidden characters. *)
Theorem stored_file_names (env : Env) (v : Validated) :
  photo_ext_accepted env (v_before v) = true ->
  photo_ext_accepted env (v_after v) = true ->
  os_path.basename (dest_before env v) = name_before env v
  /\ os_path.basename (dest_after env v) = name_after env v
  /\ nth_error (log_row env v) 11 = Some (CellStr (name_before env v))
  /\ nth_error (log_row env v) 12 = Some (CellStr (name_after env v))
  /\ snd (os_path.splitext (dest_before env v)) = ext_of env (v_before v)
  /\ snd (os_path.splitext (dest_after env v)) = ext_of env (v_after v)
  /\ dest_before env v <> dest_after env v
  /\ (forall ch, In ch invalid ->
        ~ In ch (name_before env v) /\ ~ In ch (name_after env v)).
Proof.
  intros Hb Ha.
  destruct (dest_paths env v Hb Ha) as (Hbase1 & Hbase2 & Hext1 & Hext2).
  split; [exact Hbase1 | split; [exact Hbase2|]].
  split; [cbn [log_row nth_error]; rewrite Hbase1; reflexivity|].
  split; [cbn [log_row nth_error]; rewrite Hbase2; reflexivity|].
  split; [exact Hext1 | split; [exact Hext2|]].
  split; [apply dest_before_after_differ|].
  intros ch. apply names_valid; assumption.
Qed.

Lemma stored_file_names_witness :
  os_path.basename (dest_before env_ok validated_kim) = name_before env_ok validated_kim
  /\ snd (os_path.splitext (dest_before env_ok validated_kim)) = u ".jpg".
Proof.
  destruct (stored_file_names env_ok validated_kim eq_refl eq_refl)
    as (H1 & _ & _ & _ & H2 & _).
  split; [exact H1 | rewrite H2; reflexivity].
Defined.

(** ** What a saved submission leaves *)

Lemma save_image_copy_stored (env : Env) (src dest : list N) (w w' : World) :
  save_image_copy env src dest w = inr w' ->
  exists im, image_open env src = Some im
             /\ w' = write_file w dest (stored_image env dest im).
Proof.
  unfold save_image_copy. destruct (image_open env src) as [im|]; [|discriminate].
  cbv zeta. destruct (_ && _); [|discriminate].
  destruct (image_write_ok env dest); [|discriminate].
  intros [= <-]. exists im. split; reflexivity.
Qed.

(** X13.  A submission that is saved leaves both photos in the customer
    folder: the file at the before-path is the picture opened from the
    first source path, the file at the after-path the one opened from the
    second, each in the form [save_image_copy] gives it; both file names
    have at most 100 characters; the output root and the customer folder
    exist; apart from those two files and the log no file is touched;
    and the form is reset. *)
Theorem saved_submission_stores_photos
    (env : Env) (f : Form) (w : World) (d : list N) (f' : Form) (w' : World) :
  on_run env f w = (Saved d, f', w') ->
  exists v im1 im2,
    validate env f = Ok v /\ d = dest_folder env v /\ f' = reset_inputs f
    /\ image_open env (v_before v) = Some im1
    /\ image_open env (v_after v) = Some im2
    /\ files w' !! dest_before env v
       = Some (stored_image env (dest_before env v) im1)
    /\ files w' !! dest_after env v
       = Some (stored_image env (dest_after env v) im2)
    /\ (length (name_before env v) <= 100)%nat
    /\ (length (name_after env v) <= 100)%nat
    /\ dirs w' = {[ base_dir env ]} ∪ ({[ dest_folder env v ]} ∪ dirs w)
    /\ forall p, p <> dest_before env v -> p <> dest_after env v ->
                 p <> log_path env -> files w' !! p = files w !! p.
Proof.
  intros Hrun. unfold on_run in Hrun.
  destruct (validate env f) as [v|m|e] eqn:Hv; try discriminate.
  unfold store in Hrun.
  destruct (makedirs env (base_dir env) (dest_folder env v) w) as [(e, w0)|w1] eqn:Hm;
    [discriminate|].
  apply makedirs_inr in Hm. subst w1.
  destruct ((100 <? length (name_before env v))%nat
            || (100 <? length (name_after env v))%nat) eqn:Hlen; [discriminate|].
  apply orb_false_iff in Hlen. destruct Hlen as (Hl1 & Hl2).
  apply Nat.ltb_ge in Hl1, Hl2.
  destruct (save_image_copy env (v_before v) _ _) as [(e, w0)|w2] eqn:H1; [discriminate|].
  destruct (save_image_copy env (v_after v) _ _) as [(e, w0)|w3] eqn:H2; [discriminate|].
  apply save_image_copy_stored in H1, H2.
  destruct H1 as (im1 & Ho1 & ->). destruct H2 as (im2 & Ho2 & ->).
  destruct (append_excel_row _ _ _ _) as [(e, w4)|w4] eqn:Ha; [discriminate|].
  injection Hrun as <- <- <-.
  apply append_excel_row_inr in Ha.
  destruct Ha as (rows & Hrows & _ & Hdirs & Hfiles & _).
  cbn [write_file world_with_folder files dirs] in Hrows, Hfiles, Hdirs.
  pose proof (dest_before_after_differ env v) as Hdiff.
  assert (dest_after env v <> log_path env) as Na.
  { intros E. rewrite <- E, lookup_insert_eq in Hrows.
    destruct Hrows as [Hr | (Hr & _)]; discriminate. }
  assert (dest_before env v <> log_path env) as Nb.
  { intros E. rewrite <- E, lookup_insert_ne, lookup_insert_eq in Hrows
      by (intros E'; apply Hdiff; symmetry; exact E').
    destruct Hrows as [Hr | (Hr & _)]; discriminate. }
  exists v, im1, im2.
  split; [reflexivity | split; [reflexivity | split; [reflexivity|]]].
  split; [exact Ho1 | split; [exact Ho2|]].
  split.
  { rewrite Hfiles, lookup_insert_ne by congruence.
    rewrite lookup_insert_ne by (intros E'; apply Hdiff; symmetry; exact E').
    apply lookup_insert_eq. }
  split.
  { rewrite Hfiles, lookup_insert_ne by congruence. apply lookup_insert_eq. }
  split; [exact Hl1 | split; [exact Hl2 | split; [exact Hdirs|]]].
  intros p P1 P2 P3. rewrite Hfiles.
  rewrite !lookup_insert_ne by congruence. reflexivity.
Qed.

Lemma saved_submission_stores_photos_witness :
  exists v im1 im2,
    validate env_ok form_kim = Ok v
    /\ files world_kim_saved !! dest_before env_ok v
       = Some (stored_image env_ok (dest_before env_ok v) im1)
    /\ files world_kim_saved !! dest_after env_ok v
       = Some (stored_image env_ok (dest_after env_ok v) im2).
Proof.
  assert (on_run env_ok form_kim world_empty
          = (Saved (dest_folder env_ok validated_kim), reset_inputs form_kim,
             world_kim_saved)) as H
    by reflexivity.
  destruct (saved_submission_stores_photos _ _ _ _ _ _ H)
    as (v & im1 & im2 & Hv & _ & _ & _ & _ & H1 & H2 & _).
  exists v, im1, im2. split; [exact Hv | split; [exact H1 | exact H2]].
Defined.

(** X14.  The format of a stored photo follows the extension of its
    source, whatever the case of its letters: with a [lower] that leaves
    lower-cased text as it is, an accepted photo is stored as PNG when
    its lower-cased extension is .png and as JPEG of quality 95 when it is
    .jpg or .jpeg; a picture in mode RGBA or LA is flattened onto white,
    any other is converted to RGB. *)
Theorem photo_format_follows_extension (env : Env) (v : Validated) (im : image) :
  (forall s, lower env (lower env s) = lower env s) ->
  photo_ext_accepted env (v_before v) = true ->
  photo_ext_accepted env (v_after v) = true ->
  stored_image env (dest_before env v) im
  = ImageFile
      (if str_eqb (ext_of env (v_before v)) (u ".png") then PNG else JPEG_quality_95)
      (if str_in (im_mode im) [u "RGBA"; u "LA"]
       then FlattenedOnWhite im else ConvertedRGB im)
  /\ stored_image env (dest_after env v) im
     = ImageFile
         (if str_eqb (ext_of env (v_after v)) (u ".png") then PNG else JPEG_quality_95)
         (if str_in (im_mode im) [u "RGBA"; u "LA"]
          then FlattenedOnWhite im else ConvertedRGB im).
Proof.
  intros Hlow Hb Ha.
  destruct (dest_paths env v Hb Ha) as (_ & _ & Hext1 & Hext2).
  assert (forall p, photo_ext_accepted env p = true ->
            str_in (lower env (ext_of env p)) [u ".jpg"; u ".jpeg"]
            = negb (str_eqb (ext_of env p) (u ".png"))) as Hfmt.
  { intros p Hp. unfold ext_of at 1. rewrite Hlow. fold (ext_of env p).
    unfold photo_ext_accepted, str_in in Hp. cbn [existsb] in Hp.
    rewrite !orb_true_iff, !str_eqb_eq in Hp.
    destruct Hp as [-> | [-> | [-> | Hp]]]; [| | | discriminate]; reflexivity. }
  unfold stored_image. rewrite Hext1, Hext2, (Hfmt _ Hb), (Hfmt _ Ha).
  split; f_equal.
  - destruct (str_eqb (ext_of env (v_before v)) (u ".png")); reflexivity.
  - destruct (str_eqb (ext_of env (v_after v)) (u ".png")); reflexivity.
Qed.

Lemma ascii_lower_idempotent (s : list N) : ascii_lower (ascii_lower s) = ascii_lower s.
Proof.
  unfold ascii_lower. rewrite List.map_map. apply List.map_ext. intros c.
  unfold ascii_lower_char.
  destruct ((65 <=? c)%N && (c <=? 90)%N) eqn:E; [|rewrite E; reflexivity].
  apply andb_true_iff in E. destruct E as (H1 & H2).
  apply N.leb_le in H1, H2.
  assert ((65 <=? c + 32)%N && (c + 32 <=? 90)%N = false) as ->; [|reflexivity].
  apply andb_false_iff. right. apply N.leb_gt. lia.
Qed.

Lemma photo_format_follows_extension_witness :
  stored_image env_ok (dest_before env_ok validated_kim) rgb_photo
  = ImageFile JPEG_quality_95 (ConvertedRGB rgb_photo)
  /\ stored_image env_ok (dest_after env_ok validated_kim) rgb_photo
     = ImageFile PNG (ConvertedRGB rgb_photo).
Proof.
  destruct (photo_format_follows_extension env_ok validated_kim rgb_photo
              ascii_lower_idempotent eq_refl eq_refl) as (H1 & H2).
  split; [rewrite H1 | rewrite H2]; reflexivity.
Defined.

(** X15.  After a submission has been saved the form is the one the
    window opened with, so running the handler again, in whatever state
    the outside world is, only asks for the photos: nothing is written a
    second time. *)
Theorem saved_then_run_again
    (env : Env) (f : Form) (w : World) (d : list N) (f' : Form) (w' : World) :
  on_run env f w = (Saved d, f', w') ->
  f' = initial_form (breeds f)
  /\ forall env2 w2, on_run env2 f' w2 = (ShowError MissingPhotos, f', w2).
Proof.
  intros Hrun.
  assert (f' = reset_inputs f) as ->.
  { unfold on_run in Hrun. destruct (validate env f) as [v|m|e]; try discriminate.
    apply store_Saved in Hrun. destruct Hrun as (_ & _ & _ & _ & _ & Hf & _). exact Hf. }
  split; reflexivity.
Qed.

Lemma saved_then_run_again_witness :
  on_run env_after_unreadable (reset_inputs form_kim) world_kim_saved
  = (ShowError MissingPhotos, reset_inputs form_kim, world_kim_saved).
Proof.
  assert (on_run env_ok form_kim world_empty
          = (Saved (dest_folder env_ok validated_kim), reset_inputs form_kim,
             world_kim_saved)) as H
    by reflexivity.
  apply (proj2 (saved_then_run_again _ _ _ _ _ _ H)).
Defined.

(** ** The customer entry *)

Lemma lstrip_spaces (ws s : list N) :
  (forall c, In c ws -> isspace c = true) -> lstrip (ws ++ s) = lstrip s.
Proof.
  induction ws as [|c ws IH]; intros H; [reflexivity|].
  cbn [app lstrip]. rewrite (H c (or_introl eq_refl)).
  apply IH. intros x Hx. apply H. right. exact Hx.
Qed.

Lemma strip_app_spaces (s ws : list N) :
  (forall c, In c ws -> isspace c = true) -> strip (s ++ ws) = strip s.
Proof.
  intros H. unfold strip, rstrip. rewrite rev_app_distr, lstrip_spaces; [reflexivity|].
  intros c Hc. apply H, in_rev. exact Hc.
Qed.

Lemma set_customer_same (f : Form) :
  set_customer f (customer_raw f) (customer_foreground f) = f.
Proof. destruct f. reflexivity. Qed.

(** X16.  An operator who enters the gray placeholder field and leaves
    it having typed nothing but white space gets the placeholder back in
    gray, in front of the white space, and [on_run] takes the field for
    empty.  With no white space typed the form is as before.  With white
    space typed, the text is no longer the placeholder itself, so the
    next focus-in leaves it in place instead of clearing it.  Leaving
    the field with anything else typed keeps the text, in black. *)
Theorem customer_placeholder_round_trip (f : Form) (ws : list N) :
  customer_raw f = CUSTOMER_PLACEHOLDER ->
  customer_foreground f = GRAY ->
  (forall c, In c ws -> isspace c = true) ->
  customer_raw (_on_customer_focus_out (type_customer ws (_on_customer_focus_in f)))
  = CUSTOMER_PLACEHOLDER ++ ws
  /\ customer_foreground
       (_on_customer_focus_out (type_customer ws (_on_customer_focus_in f))) = GRAY
  /\ raw_customer_of
       (_on_customer_focus_out (type_customer ws (_on_customer_focus_in f))) = []
  /\ (ws = [] ->
      _on_customer_focus_out (type_customer ws (_on_customer_focus_in f)) = f)
  /\ (ws <> [] ->
      _on_customer_focus_in
        (_on_customer_focus_out (type_customer ws (_on_customer_focus_in f)))
      = _on_customer_focus_out (type_customer ws (_on_customer_focus_in f)))
  /\ (forall text, strip text <> [] ->
      _on_customer_focus_out (type_customer text (_on_customer_focus_in f))
      = set_customer f text BLACK).
Proof.
  intros Hraw Hfg Hws.
  assert (_on_customer_focus_in f = set_customer f [] BLACK) as Hin.
  { unfold _on_customer_focus_in. rewrite Hraw, Hfg, !str_eqb_refl. reflexivity. }
  assert (strip ws = []) as Hstrip.
  { pose proof (strip_app_spaces [] ws Hws) as H. cbn [app] in H.
    rewrite H. reflexivity. }
  assert (_on_customer_focus_out (type_customer ws (_on_customer_focus_in f))
          = set_customer f (CUSTOMER_PLACEHOLDER ++ ws) GRAY) as Hout.
  { rewrite Hin. unfold _on_customer_focus_out, type_customer.
    cbn [set_customer customer_raw customer_foreground].
    rewrite Hstrip. reflexivity. }
  rewrite Hout. cbn [set_customer customer_raw customer_foreground].
  split; [reflexivity | split; [reflexivity | split; [|split; [|split]]]].
  - unfold raw_customer_of. cbn [set_customer customer_raw customer_foreground].
    rewrite (strip_app_spaces _ ws Hws).
    change (strip CUSTOMER_PLACEHOLDER) with CUSTOMER_PLACEHOLDER.
    rewrite !str_eqb_refl. reflexivity.
  - intros ->. rewrite app_nil_r.
    transitivity (set_customer f (customer_raw f) (customer_foreground f));
      [rewrite Hraw, Hfg; reflexivity | apply set_customer_same].
  - intros Hne. unfold _on_customer_focus_in.
    cbn [set_customer customer_raw customer_foreground].
    assert (str_eqb (CUSTOMER_PLACEHOLDER ++ ws) CUSTOMER_PLACEHOLDER = false) as ->;
      [|reflexivity].
    apply str_eqb_neq. intros H. apply (f_equal (@length N)) in H.
    rewrite length_app in H. destruct ws; [congruence | cbn [length] in H; lia].
  - intros text Htext. rewrite Hin. unfold _on_customer_focus_out, type_customer.
    cbn [set_customer customer_raw customer_foreground].
    apply truthy_true in Htext. rewrite Htext. reflexivity.
Qed.

Lemma customer_placeholder_round_trip_witness :
  raw_customer_of
    (_on_customer_focus_out
       (type_customer (u "  ") (_on_customer_focus_in form_gray_placeholder))) = []
  /\ customer_raw
       (_on_customer_focus_out
          (type_customer (u "  ") (_on_customer_focus_in form_gray_placeholder)))
     = CUSTOMER_PLACEHOLDER ++ u "  ".
Proof.
  destruct (customer_placeholder_round_trip form_gray_placeholder (u "  ")
              eq_refl eq_refl) as (H1 & _ & H3 & _).
  - intros c Hc. apply char_in_spec in Hc.
    assert (forallb isspace (u "  ") = true) as Hall by reflexivity.
    rewrite forallb_forall in Hall. apply Hall. apply char_in_spec. exact Hc.
  - split; [exact H3 | exact H1].
Defined.

(** ** The length of the file names *)

Lemma dt_str_length (d : datetime) : length (dt_str d) = 12%nat.
Proof. reflexivity. Qed.

(** X17.  Short identity fields always pass the check on the length of
    the file names: when the customer number, the owner name and the dog
    name of a validated submission have at most 68 characters together
    and the photos have accepted extensions, both file names have at most
    100 characters and the handler never shows the file-name dialog. *)
Theorem short_names_pass (env : Env) (f : Form) (v : Validated) (w : World) :
  photo_ext_accepted env (v_before v) = true ->
  photo_ext_accepted env (v_after v) = true ->
  (length (v_customer_no v) + length (v_owner_name v) + length (v_dog_name v)
   <= 68)%nat ->
  (length (name_before env v) <= 100)%nat
  /\ (length (name_after env v) <= 100)%nat
  /\ fst (fst (store env f v w)) <> ShowError FilenameTooLong.
Proof.
  intros Hb Ha Hlen.
  destruct (accepted_ext env _ Hb) as (e1 & He1 & _ & _ & Hl1 & _).
  destruct (accepted_ext env _ Ha) as (e2 & He2 & _ & _ & Hl2 & _).
  assert (length (prefix env v) <= 68 + 21)%nat as Hpre.
  { unfold prefix.
    pose proof (proj2 (sanitize_for_path_idempotent_length
      (v_customer_no v ++ u " - " ++ v_owner_name v ++ u " - " ++ v_dog_name v
         ++ u " - " ++ dt_str (now env)))) as H.
    rewrite !length_app, dt_str_length in H.
    change (length (u " - ")) with 3%nat in H. lia. }
  assert (length (name_before env v) <= 100)%nat as H1.
  { unfold name_before. rewrite He1, !length_app.
    change (length (u " - 미용전")) with 6%nat. cbn [length]. lia. }
  assert (length (name_after env v) <= 100)%nat as H2.
  { unfold name_after. rewrite He2, !length_app.
    change (length (u " - 미용후")) with 6%nat. cbn [length]. lia. }
  split; [exact H1 | split; [exact H2|]].
  unfold store. destruct (makedirs _ _ _ _) as [(e, w0)|w1]; [discriminate|].
  assert ((100 <? length (name_before env v))%nat
          || (100 <? length (name_after env v))%nat = false) as ->.
  { apply orb_false_iff. split; apply Nat.ltb_ge; assumption. }
  destruct (save_image_copy _ (v_before v) _ _) as [(e, w0)|w2]; [discriminate|].
  destruct (save_image_copy _ (v_after v) _ _) as [(e, w0)|w3]; [discriminate|].
  destruct (append_excel_row _ _ _ _) as [(e, w4)|w4]; discriminate.
Qed.

Lemma short_names_pass_witness :
  (length (name_before env_ok validated_kim) <= 100)%nat
  /\ (length (name_after env_ok validated_kim) <= 100)%nat.
Proof.
  destruct (short_names_pass env_ok form_kim validated_kim world_empty
              eq_refl eq_refl) as (H1 & H2 & _).
  - apply Nat.leb_le. reflexivity.
  - split; [exact H1 | exact H2].
Defined.

(** ** The breed the form starts with *)

(** X18.  The form opens, and is reset, with the first entry of the
    breed list selected, which always exists and is a trimmed entry of
    the list.  If that entry is not the sentinel the breed check of
    [on_run] passes with it as the breed; if it is the sentinel, as it is
    when the breed file has no entry of its own, the check asks for the
    free-text breed. *)
Theorem initial_breed (lines : list (list N)) :
  In (breed_var (initial_form (load_breeds_or_die lines))) (load_breeds_or_die lines)
  /\ breed_var (reset_inputs (initial_form (load_breeds_or_die lines)))
     = breed_var (initial_form (load_breeds_or_die lines))
  /\ (breed_var (initial_form (load_breeds_or_die lines)) <> BREED_OTHER ->
      breed_of (initial_form (load_breeds_or_die lines))
      = Ok (breed_var (initial_form (load_breeds_or_die lines))))
  /\ (breed_var (initial_form (load_breeds_or_die lines)) = BREED_OTHER ->
      breed_of (initial_form (load_breeds_or_die lines)) = Return MissingOtherBreed)
  /\ (List.filter truthy (List.map strip lines) = [] ->
      breed_var (initial_form (load_breeds_or_die lines)) = BREED_OTHER).
Proof.
  assert (In BREED_OTHER (load_breeds_or_die lines)) as Hne.
  { unfold load_breeds_or_die. destruct (str_in BREED_OTHER _) eqn:E.
    - apply str_in_spec. exact E.
    - apply in_or_app. right. left. reflexivity. }
  destruct (load_breeds_or_die lines) as [|b bs] eqn:Hl; [destruct Hne|].
  cbn [initial_form reset_inputs breed_var breeds].
  assert (strip b = b) as Hb.
  { apply (load_breeds_stripped lines). rewrite Hl. left. reflexivity. }
  split; [left; reflexivity | split; [reflexivity | split; [|split]]].
  - intros Hn. unfold breed_of. cbn [initial_form breed_var]. rewrite Hb.
    apply str_eqb_neq in Hn. rewrite Hn. reflexivity.
  - intros ->. reflexivity.
  - intros He. unfold load_breeds_or_die in Hl. rewrite He in Hl.
    change (str_in BREED_OTHER []) with false in Hl. cbv iota in Hl.
    change ([] ++ [BREED_OTHER]) with [BREED_OTHER] in Hl.
    congruence.
Qed.

Lemma initial_breed_witness :
  breed_var (initial_form (load_breeds_or_die [])) = BREED_OTHER
  /\ breed_of (initial_form (load_breeds_or_die [u " Poodle "; u ""]))
     = Ok (u "Poodle").
Proof.
  split.
  - apply (proj2 (proj2 (proj2 (proj2 (initial_breed []))))). reflexivity.
  - apply (proj1 (proj2 (proj2 (initial_breed [u " Poodle "; u ""])))).
    discriminate.
Defined.

(** ** The customer folder *)

Lemma isspace_bound (c : N) : isspace c = true -> (c <= 12288)%N.
Proof.
  unfold isspace, in_ranges, space_ranges, in_range. cbn [existsb fst snd].
  rewrite !orb_true_iff, !andb_true_iff, !N.leb_le. lia.
Qed.

(** No character is both white space and a digit. *)
Lemma isdigit_not_space (c : N) : isdigit c = true -> isspace c = false.
Proof.
  intros Hd. destruct (isspace c) eqn:Hs; [|reflexivity].
  pose proof (isspace_bound c Hs) as Hb.
  assert (forallb (fun n => negb (isspace (N.of_nat n) && isdigit (N.of_nat n)))
            (seq 0 (N.to_nat 12289)) = true) as Hall by (vm_compute; reflexivity).
  rewrite forallb_forall in Hall. specialize (Hall (N.to_nat c)).
  rewrite N2Nat.id, Hs, Hd in Hall.
  assert (In (N.to_nat c) (seq 0 (N.to_nat 12289))) as Hin by (apply in_seq; lia).
  apply Hall in Hin. discriminate.
Qed.

Lemma isdigit_valid (c : N) : isdigit c = true -> char_in c invalid = false.
Proof.
  intros Hd. destruct (char_in c invalid) eqn:Hc; [|reflexivity].
  apply char_in_spec in Hc.
  assert (forallb (fun x => negb (isdigit x)) invalid = true) as Hall
    by (vm_compute; reflexivity).
  rewrite forallb_forall in Hall. specialize (Hall c Hc).
  rewrite Hd in Hall. discriminate.
Qed.

Lemma strip_nonempty (c : N) (s : list N) :
  isspace c = false -> strip (c :: s) <> [].
Proof.
  intros Hc He. destruct (strip_split (c :: s)) as (l & r & Hs & Hl & Hr).
  rewrite He in Hs. cbn [app] in Hs.
  assert (In c (l ++ r)) as Hin by (rewrite <- Hs; left; reflexivity).
  rewrite forallb_forall in Hl, Hr.
  apply in_app_or in Hin. destruct Hin as [Hin | Hin];
    [apply Hl in Hin | apply Hr in Hin]; congruence.
Qed.

(** The folder of a validated submission has a name, so it is not the
    output root itself. *)
Lemma folder_name_nonempty (env : Env) (f : Form) (v : Validated) :
  validate env f = Ok v -> folder_name v <> [].
Proof.
  intros Hv. apply validate_Ok in Hv.
  destruct Hv as (_ & _ & _ & _ & _ & Hc & _).
  apply customer_number_Ok in Hc. destruct Hc as (Hno & Hne & _).
  destruct (v_customer_no v) as [|d ds] eqn:Ed; [congruence|].
  assert (isdigit d = true) as Hd.
  { assert (In d (List.filter isdigit (raw_customer_of f))) as Hin
      by (rewrite <- Hno; left; reflexivity).
    apply filter_In in Hin. apply Hin. }
  unfold folder_name, sanitize_for_path. rewrite Ed. cbn [app List.map].
  unfold sanitize_char at 1. rewrite (isdigit_valid d Hd).
  apply strip_nonempty, isdigit_not_space, Hd.
Qed.

Lemma dest_folder_not_root (env : Env) (f : Form) (v : Validated) :
  validate env f = Ok v -> dest_folder env v <> base_dir env.
Proof.
  intros Hv. pose proof (folder_name_nonempty env f v Hv) as Hne.
  assert (~ In os_path.sep (folder_name v)) as Hsep
    by (apply sanitize_for_path_valid, char_in_spec; reflexivity).
  unfold dest_folder.
  rewrite (join_relative_eq _ _ (startswith_sep_false _ Hne Hsep)).
  intros Heq. apply (f_equal (@length N)) in Heq.
  destruct (folder_name v) as [|c s]; [congruence|].
  destruct (negb (truthy (base_dir env)) || os_path.endswith_sep (base_dir env));
    rewrite !length_app in Heq; cbn [length] in Heq; lia.
Qed.

Lemma add_dir_changes (w : World) (path : list N) :
  (path ∉ dirs w) -> add_dir w path <> w.
Proof.
  intros Hnot Heq. apply Hnot. rewrite <- Heq. cbn [add_dir dirs].
  apply elem_of_union_l, elem_of_singleton. reflexivity.
Qed.

(** When the root and the folder can be made, or are there, and no file
    is in their place, [makedirs] succeeds. *)
Lemma makedirs_succeeds (env : Env) (base path : list N) (w : World) :
  makedirs_ok env base = true -> makedirs_ok env path = true ->
  files w !! base = None -> files w !! path = None ->
  exists w1, makedirs env base path w = inr w1.
Proof.
  intros Hb Hp Fb Fp. unfold makedirs. rewrite Hb.
  rewrite andb_false_r. cbv zeta.
  assert (forall w0 p, files w0 !! p = None ->
            path_exists w0 p = bool_decide (p ∈ dirs w0)) as Hex.
  { intros w0 p H0. unfold path_exists. rewrite H0.
    rewrite (bool_decide_eq_false_2 (is_Some None)) by (intros [x Hx]; discriminate).
    apply orb_false_r. }
  set (w1 := if path_exists w base then w else add_dir w base).
  assert (files w1 !! path = None) as Fp1
    by (subst w1; destruct (path_exists w base); exact Fp).
  assert (bool_decide (base ∈ dirs w1) = true) as ->.
  { apply bool_decide_eq_true. subst w1. rewrite (Hex w base Fb).
    destruct (bool_decide (base ∈ dirs w)) eqn:E.
    - apply bool_decide_eq_true in E. exact E.
    - cbn [add_dir dirs]. apply elem_of_union_l, elem_of_singleton. reflexivity. }
  rewrite Hp, (Hex w1 path Fp1). cbn [andb].
  destruct (bool_decide (path ∈ dirs w1)); cbn [orb negb]; eexists; reflexivity.
Qed.

(** When the root is missing and can be made, but the folder cannot,
    [makedirs] fails and leaves the new root behind. *)
Lemma makedirs_leaf_fails (env : Env) (base path : list N) (w : World) :
  path_exists w base = false -> makedirs_ok env base = true ->
  makedirs_ok env path = false -> (path ∉ dirs w) -> path <> base ->
  makedirs env base path w = inl (MakedirsError path, add_dir w base).
Proof.
  intros Hb Hok Hp Hnd Hne. unfold makedirs. rewrite Hb, Hok, Hp.
  cbn [negb andb]. cbv zeta.
  rewrite (bool_decide_eq_false_2 (path ∈ dirs (add_dir w base))).
  - rewrite andb_false_r. reflexivity.
  - cbn [add_dir dirs]. intros Hin. apply elem_of_union in Hin.
    destruct Hin as [Hin | Hin]; [|exact (Hnd Hin)].
    apply elem_of_singleton in Hin. exact (Hne Hin).
Qed.

(** C3, as the claim states it, fails.  With an owner name of a hundred
    characters both file names pass a hundred characters and the
    submission is refused, but by then the handler has made the output
    root and the customer folder: the world is no longer the empty one it
    started from. *)
Lemma filename_too_long_leaves_folder :
  (100 < length (name_before env_ok validated_long_owner))%nat
  /\ validate env_ok form_long_owner = Ok validated_long_owner
  /\ on_run env_ok form_long_owner world_empty
     = (ShowError FilenameTooLong, form_long_owner,
        world_with_folder env_ok validated_long_owner world_empty)
  /\ dest_folder env_ok validated_long_owner
       ∈ dirs (world_with_folder env_ok validated_long_owner world_empty)
  /\ world_with_folder env_ok validated_long_owner world_empty <> world_empty.
Proof.
  split; [vm_compute; lia|].
  split; [reflexivity|].
  split; [reflexivity|].
  split; [apply dest_folder_in_world_with_folder|].
  apply world_with_folder_changes. apply not_elem_of_empty.
Qed.

(** C3, amended.  For every validated submission whose before-filename
    or after-filename (sanitised prefix, suffix, lower-cased extension)
    is longer than 100 characters, the submission is not saved, the form
    is kept, no file is written and the log is unchanged; but folders are
    made before the length is looked at.  If the customer folder is there
    or can be made, the submission is refused with the file-name dialog,
    and the output root and the customer folder exist afterwards.  If the
    output root is missing and cannot be made, the submission ends in the
    unexpected-error dialog and nothing has changed.  If the customer
    folder cannot be made, it ends in the unexpected-error dialog too, and
    an output root that had to be made first stays behind.  The first
    case is the one that happens when both folders can be made and no
    file is in their place; the last one happens, with a new output root
    left behind, when the root was missing and only the customer folder
    cannot be made. *)
Theorem filename_too_long_rejected
    (env : Env) (f : Form) (v : Validated) (w : World) :
  validate env f = Ok v ->
  (100 < length (name_before env v))%nat \/ (100 < length (name_after env v))%nat ->
  exists o w',
    on_run env f w = (o, f, w')
    /\ (forall d, o <> Saved d)
    /\ files w' = files w
    /\ (o = ShowError FilenameTooLong /\ w' = world_with_folder env v w
        \/ o = UnexpectedError (MakedirsError (base_dir env))
           /\ path_exists w (base_dir env) = false
           /\ makedirs_ok env (base_dir env) = false /\ w' = w
        \/ o = UnexpectedError (MakedirsError (dest_folder env v))
           /\ w' = (if path_exists w (base_dir env) then w
                    else add_dir w (base_dir env)))
    /\ (makedirs_ok env (base_dir env) = true ->
        makedirs_ok env (dest_folder env v) = true ->
        files w !! base_dir env = None -> files w !! dest_folder env v = None ->
        o = ShowError FilenameTooLong /\ w' = world_with_folder env v w)
    /\ (path_exists w (base_dir env) = false ->
        makedirs_ok env (base_dir env) = true ->
        makedirs_ok env (dest_folder env v) = false ->
        (dest_folder env v ∉ dirs w) ->
        o = UnexpectedError (MakedirsError (dest_folder env v))
        /\ w' = add_dir w (base_dir env) /\ w' <> w).
Proof.
  intros Hv Hlen. unfold on_run, store. rewrite Hv.
  assert ((100 <? length (name_before env v))%nat
          || (100 <? length (name_after env v))%nat = true) as Hlong.
  { apply orb_true_iff. destruct Hlen as [H | H]; [left | right];
      apply Nat.ltb_lt; exact H. }
  assert (path_exists w (base_dir env) = false ->
          makedirs_ok env (base_dir env) = true ->
          makedirs_ok env (dest_folder env v) = false ->
          (dest_folder env v ∉ dirs w) ->
          makedirs env (base_dir env) (dest_folder env v) w
          = inl (MakedirsError (dest_folder env v), add_dir w (base_dir env)))
    as Hleaf.
  { intros Hb Hok Hp Hnd. apply makedirs_leaf_fails; try assumption.
    apply (dest_folder_not_root env f v Hv). }
  destruct (makedirs env (base_dir env) (dest_folder env v) w) as [(e, w0)|w1] eqn:Hm.
  - exists (UnexpectedError e), w0.
    split; [reflexivity | split; [discriminate|]].
    pose proof Hm as Hm'. apply makedirs_inl in Hm'.
    assert (files w0 = files w) as Hfiles.
    { destruct Hm' as [(_ & _ & _ & ->) | (_ & ->)]; [reflexivity|].
      destruct (path_exists w (base_dir env)); reflexivity. }
    split; [exact Hfiles|].
    split; [|split].
    + destruct Hm' as [(-> & Hb & Hok & ->) | (-> & ->)].
      * right; left. repeat split; assumption.
      * right; right. split; reflexivity.
    + intros Hb Hp Fb Fp.
      destruct (makedirs_succeeds env _ _ w Hb Hp Fb Fp) as (w1 & Hw1). congruence.
    + intros Hb Hok Hp Hnd. specialize (Hleaf Hb Hok Hp Hnd).
      injection Hleaf as -> ->. split; [reflexivity | split; [reflexivity|]].
      apply add_dir_changes. apply path_exists_false in Hb. apply Hb.
  - pose proof Hm as Hm'. apply makedirs_inr in Hm'. subst w1. rewrite Hlong.
    exists (ShowError FilenameTooLong), (world_with_folder env v w).
    split; [reflexivity | split; [discriminate | split; [reflexivity|]]].
    split; [left; split; reflexivity|].
    split; [intros _ _ _ _; split; reflexivity|].
    intros Hb Hok Hp Hnd. specialize (Hleaf Hb Hok Hp Hnd). discriminate.
Qed.

Lemma filename_too_long_rejected_witness :
  exists o w',
    on_run env_ok form_long_owner world_empty = (o, form_long_owner, w')
    /\ files w' = files world_empty
    /\ o = ShowError FilenameTooLong
    /\ w' = world_with_folder env_ok validated_long_owner world_empty.
Proof.
  destruct (filename_too_long_rejected env_ok form_long_owner validated_long_owner
              world_empty)
    as (o & w' & Hrun & _ & Hfiles & _ & Hmade & _).
  - vm_compute. reflexivity.
  - left. vm_compute. lia.
  - exists o, w'. split; [exact Hrun | split; [exact Hfiles|]].
    apply Hmade; reflexivity.
Defined.

(** The same long owner name where the customer folder cannot be made:
    the submission ends in the unexpected-error dialog and the output
    root, made on the way, stays. *)
Example filename_too_long_leaves_root :
  on_run env_no_folder form_long_owner world_empty
  = (UnexpectedError (MakedirsError (dest_folder env_no_folder validated_long_owner)),
     form_long_owner, add_dir world_empty (base_dir env_no_folder))
  /\ base_dir env_no_folder ∈ dirs (add_dir world_empty (base_dir env_no_folder)).
Proof.
  split; [reflexivity|].
  cbn [add_dir dirs]. apply elem_of_union_l, elem_of_singleton. reflexivity.
Qed.

(** ** The row of the log *)

Lemma plain_digit (k : N) : plain_char (48 + k mod 10) = true.
Proof.
  unfold plain_char.
  pose proof (N.mod_upper_bound k 10 ltac:(discriminate)) as H.
  generalize dependent (k mod 10)%N. intros m H.
  apply andb_true_iff. split; [apply negb_true_iff, N.eqb_neq; lia|].
  assert ((32 <=? 48 + m)%N && (48 + m <? 55296)%N = true) as ->.
  { apply andb_true_iff. split; [apply N.leb_le | apply N.ltb_lt]; lia. }
  rewrite orb_true_r. reflexivity.
Qed.

(** The time of the record is a text of 16 characters that the workbook
    keeps as it is. *)
Lemma record_time_kept (d : datetime) :
  length (record_time d) = 16%nat
  /\ stored_cell (CellStr (record_time d)) = CellStr (record_time d).
Proof.
  split; [reflexivity|].
  apply stored_cell_kept. cbn [cell_kept]. unfold plain_text.
  apply andb_true_iff; split;
    [apply andb_true_iff; split; [apply andb_true_iff; split|]|].
  - reflexivity.
  - reflexivity.
  - unfold record_time, pad4, pad2.
    change (u "-") with [45%N]. change (u " ") with [32%N]. change (u ":") with [58%N].
    cbn [app forallb]. rewrite !plain_digit. reflexivity.
  - unfold record_time, pad4. cbn [app special_start].
    pose proof (N.mod_upper_bound (year d / 1000) 10 ltac:(discriminate)) as H.
    generalize dependent (year d / 1000 mod 10)%N. intros m H.
    apply negb_true_iff, orb_false_iff. split; apply N.eqb_neq; lia.
Qed.

Lemma validate_payment (env : Env) (f : Form) (v : Validated) :
  validate env f = Ok v ->
  (0 <= v_payment_amount v)%Z
  /\ (v_payment_state v = u "결제완료" \/ v_payment_state v = u "입금 전").
Proof.
  intros Hv. split.
  - apply validate_Ok in Hv. destruct Hv as (_ & _ & _ & _ & _ & _ & _ & Hp & _).
    destruct (payment_of_cases env f) as [(_ & H0) | [(_ & _ & Hr) | (_ & _ & Hi)]].
    + assert (v_payment_amount v = 0%Z) as -> by congruence. lia.
    + congruence.
    + rewrite Hp in Hi. destruct (int _ _) as [n|] eqn:En; [|discriminate].
      injection Hi as ->. exact (int_nonneg _ _ _ En).
  - revert Hv. unfold validate.
    destruct (negb (truthy (before_path f)) || negb (truthy (after_path f)));
      [discriminate|].
    destruct (_ || negb (truthy (raw_customer_of f))); [discriminate|].
    unfold mbind, result_bind.
    destruct (customer_number (raw_customer_of f)) as [no| |]; try discriminate.
    destruct (breed_of f) as [br| |]; try discriminate.
    destruct (payment_of env f) as [pay| |]; try discriminate.
    intros [= <-]. cbn [v_payment_state].
    destruct (str_eqb (payment_state f) (u "paid")); [left | right]; reflexivity.
Qed.

(** An append to a log that is there: the rows stay and the new row
    comes after them, or the log is left alone, or the save fails while
    the archive is written and the log is lost. *)
Lemma append_excel_row_existing (env : Env) (path : list N) (r : list cell)
    (w : World) (rows : list (list cell)) :
  files w !! path = Some (Workbook rows) ->
  match append_excel_row env path r w with
  | inr w1 => files w1 !! path = Some (Workbook (sheet_append (resave_rows rows) r))
  | inl (e, w1) =>
      w1 = w /\ e <> OverflowError
      \/ (e = WorkbookSaveError path \/ e = OverflowError)
         /\ w1 = write_file w path Damaged
  end.
Proof.
  intros Hf. destruct (append_excel_row env path r w) as [(e, w1)|w1] eqn:Ha.
  - apply append_excel_row_inl in Ha.
    destruct Ha as [(He & [-> | (Hne & _)]) | (He & _ & ->)].
    + left. split; [reflexivity|]. destruct He as [-> | [-> | ->]]; discriminate.
    + rewrite (path_exists_file _ _ _ Hf) in Hne. discriminate.
    + right. split; [exact He | reflexivity].
  - apply append_excel_row_inr in Ha.
    destruct Ha as (rows' & [Hr | (Hr & _)] & _ & _ & -> & _).
    + rewrite Hf in Hr. injection Hr as <-. apply lookup_insert_eq.
    + congruence.
Qed.




(** The end-to-end example of the specification: the folder, the amount
    and the state that are recorded, and the names of the two photos. *)
Example end_to_end_kim :
  folder_name validated_kim = u "01012345678 - Kim - Mango"
  /\ name_before env_ok validated_kim
     = u "01012345678 - Kim - Mango - 202512071434 - 미용전.jpg"
  /\ name_after env_ok validated_kim
     = u "01012345678 - Kim - Mango - 202512071434 - 미용후.png"
  /\ os_path.basename (dest_before env_ok validated_kim)
     = name_before env_ok validated_kim
  /\ nth_error (log_row env_ok validated_kim) 0 = Some (CellStr (u "2025-12-07 14:34"))
  /\ nth_error (log_row env_ok validated_kim) 9 = Some (CellInt 15000)
  /\ nth_error (log_row env_ok validated_kim) 10 = Some (CellStr (u "결제완료")).
Proof. repeat apply conj; vm_compute; reflexivity. Qed.

(** ** What a failed submission leaves *)


(** The steps after validation, when the submission is not saved: which
    step stopped it, and the world that step and the ones before it
    left. *)
Lemma store_not_saved
    (env : Env) (f : Form) (v : Validated) (w : World)
    (o : outcome) (f' : Form) (w' : World) :
  store env f v w = (o, f', w') ->
  (forall d, o <> Saved d) ->
  f' = f
  /\ (o = UnexpectedError (MakedirsError (base_dir env))
        /\ path_exists w (base_dir env) = false /\ w' = w
      \/ o = UnexpectedError (MakedirsError (dest_folder env v))
         /\ w' = (if path_exists w (base_dir env) then w
                  else add_dir w (base_dir env))
      \/ o = ShowError FilenameTooLong /\ w' = world_with_folder env v w
      \/ o = UnexpectedError (ImageOpenError (v_before v))
         /\ image_open env (v_before v) = None
         /\ w' = world_with_folder env v w
      \/ o = UnexpectedError (ImageSaveError (dest_before env v))
         /\ (w' = world_with_folder env v w
             \/ w' = write_file (world_with_folder env v w) (dest_before env v)
                       Damaged)
      \/ exists im1,
           image_open env (v_before v) = Some im1
           /\ (o = UnexpectedError (ImageOpenError (v_after v))
                 /\ image_open env (v_after v) = None
                 /\ w' = world_with_before env v w im1
               \/ o = UnexpectedError (ImageSaveError (dest_after env v))
                  /\ (w' = world_with_before env v w im1
                      \/ w' = write_file (world_with_before env v w im1)
                                (dest_after env v) Damaged)
               \/ exists im2 e,
                    image_open env (v_after v) = Some im2
                    /\ o = UnexpectedError e
                    /\ ((e = WorkbookSaveError (log_path env)
                         \/ e = LoadWorkbookError (log_path env)
                         \/ e = IllegalCharacterError)
                        /\ (w' = world_with_photos env v w im1 im2
                            \/ path_exists (world_with_photos env v w im1 im2)
                                 (log_path env) = false
                               /\ w' = write_file
                                         (world_with_photos env v w im1 im2)
                                         (log_path env) (Workbook [HEADER]))
                        \/ (e = WorkbookSaveError (log_path env)
                            \/ e = OverflowError)
                           /\ w' = write_file (world_with_photos env v w im1 im2)
                                     (log_path env) Damaged)))
  /\ ((forall p, o <> UnexpectedError (MakedirsError p)) ->
      dirs w' = {[ base_dir env ]} ∪ ({[ dest_folder env v ]} ∪ dirs w)).
Proof.
  intros Hrun Hfail. unfold store in Hrun.
  destruct (makedirs env (base_dir env) (dest_folder env v) w) as [(e, w0)|w1] eqn:Hm.
  { injection Hrun as <- <- <-. apply makedirs_inl in Hm.
    split; [reflexivity|].
    destruct Hm as [(-> & Hb & _ & ->) | (-> & ->)].
    - split; [left; auto|]. intros Hnm. destruct (Hnm _ eq_refl).
    - split; [right; left; auto|]. intros Hnm. destruct (Hnm _ eq_refl). }
  apply makedirs_inr in Hm. subst w1.
  destruct (_ || _).
  { injection Hrun as <- <- <-. split; [reflexivity|].
    split; [right; right; left; auto | reflexivity]. }
  destruct (save_image_copy env (v_before v) _ _) as [(e, w0)|w2] eqn:H1.
  { injection Hrun as <- <- <-. split; [reflexivity|].
    apply save_image_copy_inl in H1.
    destruct H1 as [(-> & Ho & ->) | (-> & _ & [-> | ->])].
    - split; [right; right; right; left; auto | reflexivity].
    - split; [right; right; right; right; left; auto | reflexivity].
    - split; [right; right; right; right; left; auto | reflexivity]. }
  apply save_image_copy_stored in H1. destruct H1 as (im1 & Ho1 & ->).
  fold (world_with_before env v w im1) in Hrun |- *.
  destruct (save_image_copy env (v_after v) _ _) as [(e, w0)|w3] eqn:H2.
  { injection Hrun as <- <- <-. split; [reflexivity|].
    apply save_image_copy_inl in H2.
    destruct H2 as [(-> & Ho & ->) | (-> & _ & [-> | ->])].
    - split; [|reflexivity]. do 5 right. exists im1. split; [exact Ho1|].
      left. auto.
    - split; [|reflexivity]. do 5 right. exists im1. split; [exact Ho1|].
      right; left. auto.
    - split; [|reflexivity]. do 5 right. exists im1. split; [exact Ho1|].
      right; left. auto. }
  apply save_image_copy_stored in H2. destruct H2 as (im2 & Ho2 & ->).
  fold (world_with_photos env v w im1 im2) in Hrun |- *.
  destruct (append_excel_row _ _ _ _) as [(e, w4)|w4] eqn:Ha.
  - injection Hrun as <- <- <-. split; [reflexivity|].
    apply append_excel_row_inl in Ha. split.
    + do 5 right. exists im1. split; [exact Ho1|].
      right; right. exists im2, e. split; [exact Ho2 | split; [reflexivity|]].
      destruct Ha as [(He & Hw) | (He & _ & Hw)]; [left | right]; auto.
    + intros _.
      destruct Ha as [(_ & [-> | (_ & ->)]) | (_ & _ & ->)]; reflexivity.
  - injection Hrun as <- _ _. destruct (Hfail (dest_folder env v)). reflexivity.
Qed.


